(** * Axon licensing: validation, Paddle webhook lifecycle, enforcement gate

    A shallow embedding of
      - server/src/modules/license/license.helpers.ts
      - server/src/modules/license/license.service.ts
      - server/src/modules/license/license.middleware.ts
      - server/src/modules/license/license.controller.ts
      - the tables [licenses] and [processed_events] of shared/schema.ts
    together with the parts of the JavaScript runtime and of Node's [crypto]
    and [Buffer] modules those files call.

    Conventions.
      - A JavaScript string is a [string]: a sequence of code units in the
        range U+0000..U+00FF.  All string primitives used by the sources
        ([trim], [split], [startsWith], ...) act on code units.
      - The numbers of the skew test are doubles ([Js.number]): what
        [Number.parseInt] returns is rounded to the nearest double, is an
        infinity beyond their range and NaN without a digit, and the
        difference and the comparisons are those of doubles.  The other
        numbers of the sources (epoch milliseconds, status codes, device
        quotas) are integers far below 2^53 and are [Z].
      - Bytes of a [Buffer] are [Z] in [0, 256).
      - [undefined] / [null] are [None].
      - An [async] method is a computation in the monad [M] below: it reads
        and updates a [World] (the two tables, the clock, the random
        source) and returns or throws.  Calls run one after the other, and
        the clock stands still during a call.
      - The datastore answers the query shapes the service sends and
        enforces the unique constraints on [licenses.key],
        [licenses.paddle_subscription_id] and [processed_events.event_id].
        A statement that writes the values of a license, or that looks
        licenses up by a subscription id, fails with the datastore's
        error when the datastore does not take a value: a key longer than
        the 64 characters of its column, a quota outside [integer], a
        string or an instant outside the domains [Pg_text] and
        [Pg_timestamp], which a [Runtime] fixes.  The select by key and
        the statements on [processed_events] are taken to succeed: the
        validator and the ledger are described for keys and event ids
        that the datastore takes.  A lost connection is not modelled.
      - SHA-256 and HMAC are written out, so that signatures can be
        computed and checked inside the development. *)

From Stdlib Require Import ZArith List String Ascii Bool Lia.
Import ListNotations.

Set Warnings "-register-all".

Local Open Scope string_scope.
Local Open Scope list_scope.
Local Open Scope Z_scope.

(* ================================================================== *)
(** ** JavaScript string primitives *)

Module Js.

Definition code (c : ascii) : Z := Z.of_N (N_of_ascii c).

Definition ofCode (z : Z) : ascii := ascii_of_N (Z.to_N z).

(** WhiteSpace and LineTerminator code units (ECMA-262, 12.2 and 12.3)
    that lie in U+0000..U+00FF: TAB, LF, VT, FF, CR, SP, NBSP. *)
Definition isWhiteSpace (c : ascii) : bool :=
  let n := code c in
  ((9 <=? n) && (n <=? 13)) || (n =? 32) || (n =? 160).

Fixpoint trimStart (s : string) : string :=
  match s with
  | EmptyString => EmptyString
  | String c r => if isWhiteSpace c then trimStart r else s
  end.

Fixpoint trimEnd (s : string) : string :=
  match s with
  | EmptyString => EmptyString
  | String c r =>
      match trimEnd r with
      | EmptyString => if isWhiteSpace c then EmptyString else String c EmptyString
      | r' => String c r'
      end
  end.

(** [String.prototype.trim] *)
Definition trim (s : string) : string := trimEnd (trimStart s).

(** Truthiness of a string: the empty string is falsy. *)
Definition truthy (s : string) : bool :=
  match s with EmptyString => false | _ => true end.

(** Truthiness of [string | undefined | null]. *)
Definition truthyOpt (o : option string) : bool :=
  match o with Some s => truthy s | None => false end.

(** [a || b] for [a : string | undefined] and [b : string]. *)
Definition orElse (a : option string) (b : string) : string :=
  match a with
  | Some s => if truthy s then s else b
  | None => b
  end.

(** [s.startsWith(p)] *)
Definition startsWith (s p : string) : bool := String.prefix p s.

(** [s.endsWith(p)] *)
Fixpoint endsWith (s p : string) : bool :=
  (s =? p)%string ||
  match s with
  | EmptyString => false
  | String _ r => endsWith r p
  end.

(** [s.includes(p)] *)
Fixpoint includes (s p : string) : bool :=
  startsWith s p ||
  match s with
  | EmptyString => false
  | String _ r => includes r p
  end.

(** [s.split(sep)] for a separator that matches exactly one code unit
    (a one-character string, or a character class such as [/[;,]/]). *)
Fixpoint split (sep : ascii -> bool) (s : string) : list string :=
  match s with
  | EmptyString => [EmptyString]
  | String c r =>
      if sep c then EmptyString :: split sep r
      else match split sep r with
           | h :: t => String c h :: t
           | [] => [String c EmptyString]
           end
  end.

(** [parts.join(sep)] *)
Definition join (sep : string) (parts : list string) : string :=
  String.concat sep parts.

Definition isDigit (c : ascii) : bool :=
  (48 <=? code c) && (code c <=? 57).

Fixpoint digits (acc : option Z) (s : string) : option Z :=
  match s with
  | EmptyString => acc
  | String c r =>
      if isDigit c
      then digits (Some (10 * match acc with Some a => a | None => 0 end
                         + (code c - 48))) r
      else acc
  end.

(** A number as [Number.parseInt] gives it and as the arithmetic of the
    sources keeps it: NaN, an infinity, or a finite double whose value is
    an integer.  Negative zero is not told apart from zero; nothing the
    sources do with a number tells them apart. *)
Inductive number : Type :=
| NaN
| Infinity (negative : bool)
| Finite (value : Z).

(** The double nearest to an integer (IEEE 754 binary64, ties to the even
    significand): the integer itself below 2^53 in magnitude; otherwise
    the 53 leading bits, rounded; an infinity from 2^1024 - 2^970 on. *)
Definition nearestDouble (n : Z) : number :=
  let a := Z.abs n in
  if a <? 9007199254740992 then Finite n
  else
    let e := Z.log2 a - 52 in
    let q := Z.shiftr a e in
    let r := a - Z.shiftl q e in
    let half := Z.shiftl 1 (e - 1) in
    let q' := if (half <? r) || ((r =? half) && Z.odd q) then q + 1 else q in
    let m := Z.shiftl q' e in
    if 2 ^ 1024 <=? m then Infinity (n <? 0) else Finite (Z.sgn n * m).

(** The integer that a sign and a run of decimal digits denote. *)
Definition integerOf (s : string) : option Z :=
  match trimStart s with
  | String "-" r => option_map Z.opp (digits None r)
  | String "+" r => digits None r
  | t => digits None t
  end.

(** [Number.parseInt(s, 10)]: leading white space is skipped, one sign is
    read, then the longest run of decimal digits; NaN when there is no
    digit.  The result is a double: the one nearest to the integer read,
    as V8 computes it, and an infinity for a run of digits beyond the
    range of doubles. *)
Definition parseInt (s : string) : number :=
  match integerOf s with
  | Some n => nearestDouble n
  | None => NaN
  end.

(** [Number.isFinite] *)
Definition isFinite (x : number) : bool :=
  match x with Finite _ => true | _ => false end.

(** [a - b] *)
Definition minus (a b : number) : number :=
  match a, b with
  | Finite x, Finite y => nearestDouble (x - y)
  | NaN, _ | _, NaN => NaN
  | Infinity s, Infinity t => if Bool.eqb s t then NaN else Infinity s
  | Infinity s, Finite _ => Infinity s
  | Finite _, Infinity t => Infinity (negb t)
  end.

(** [Math.abs] *)
Definition abs (x : number) : number :=
  match x with
  | NaN => NaN
  | Infinity _ => Infinity false
  | Finite v => Finite (Z.abs v)
  end.

(** [a > b]: false as soon as one side is NaN. *)
Definition greater (a b : number) : bool :=
  match a, b with
  | Finite x, Finite y => y <? x
  | Infinity false, Finite _ | Infinity false, Infinity true
  | Finite _, Infinity true => true
  | _, _ => false
  end.

(** [String.prototype.toLowerCase] on U+0000..U+00FF: A-Z, and the
    Latin-1 capitals U+00C0..U+00DE except U+00D7, move up by 32. *)
Definition lowerChar (c : ascii) : ascii :=
  let n := code c in
  if ((65 <=? n) && (n <=? 90))
     || ((192 <=? n) && (n <=? 222) && negb (n =? 215))
  then ofCode (n + 32) else c.

Fixpoint toLowerCase (s : string) : string :=
  match s with
  | EmptyString => EmptyString
  | String c r => String (lowerChar c) (toLowerCase r)
  end.

(** [String.prototype.toUpperCase] restricted to ASCII letters; the
    sources apply it to hexadecimal digit strings only. *)
Definition upperChar (c : ascii) : ascii :=
  let n := code c in
  if (97 <=? n) && (n <=? 122) then ofCode (n - 32) else c.

Fixpoint toUpperCase (s : string) : string :=
  match s with
  | EmptyString => EmptyString
  | String c r => String (upperChar c) (toUpperCase r)
  end.

(** UTF-8 encoding of a string of code units below U+0100, as performed
    by [hash.update(s, "utf8")] and [Buffer.from(s, "utf8")]. *)
Fixpoint utf8 (s : string) : list Z :=
  match s with
  | EmptyString => []
  | String c r =>
      let n := code c in
      if n <? 128 then n :: utf8 r
      else Z.lor 192 (Z.shiftr n 6) :: Z.lor 128 (Z.land n 63) :: utf8 r
  end.

End Js.

(* ================================================================== *)
(** ** Node's [Buffer] hex codec and [crypto] *)

Module Buffer.

(** Value of a hexadecimal digit, either case. *)
Definition unhex (c : ascii) : option Z :=
  let n := Js.code c in
  if (48 <=? n) && (n <=? 57) then Some (n - 48)
  else if (97 <=? n) && (n <=? 102) then Some (n - 87)
  else if (65 <=? n) && (n <=? 70) then Some (n - 55)
  else None.

(** [Buffer.from(s, "hex")]: pairs of digits are decoded from the left;
    decoding stops at the first pair that is not two hex digits, and a
    trailing single character is dropped. *)
Fixpoint fromHex (s : string) : list Z :=
  match s with
  | String a (String b r) =>
      match unhex a, unhex b with
      | Some x, Some y => (16 * x + y) :: fromHex r
      | _, _ => []
      end
  | _ => []
  end.

Definition hexDigit (n : Z) : ascii :=
  if n <? 10 then Js.ofCode (48 + n) else Js.ofCode (87 + n).

(** [buf.toString("hex")] / [hash.digest("hex")]: lower-case digits. *)
Fixpoint toHex (bs : list Z) : string :=
  match bs with
  | [] => EmptyString
  | b :: r => String (hexDigit (b / 16)) (String (hexDigit (b mod 16)) (toHex r))
  end.

End Buffer.

Module Sha256.

Definition mask32 (x : Z) : Z := x mod 4294967296.

Definition add32 (x y : Z) : Z := mask32 (x + y).

Definition rotr (n x : Z) : Z :=
  Z.lor (Z.shiftr x n) (mask32 (Z.shiftl x (32 - n))).

Definition not32 (x : Z) : Z := 4294967295 - x.

Definition Ch (x y z : Z) : Z := Z.lxor (Z.land x y) (Z.land (not32 x) z).

Definition Maj (x y z : Z) : Z :=
  Z.lxor (Z.lxor (Z.land x y) (Z.land x z)) (Z.land y z).

Definition bigSigma0 (x : Z) : Z :=
  Z.lxor (Z.lxor (rotr 2 x) (rotr 13 x)) (rotr 22 x).

Definition bigSigma1 (x : Z) : Z :=
  Z.lxor (Z.lxor (rotr 6 x) (rotr 11 x)) (rotr 25 x).

Definition smallSigma0 (x : Z) : Z :=
  Z.lxor (Z.lxor (rotr 7 x) (rotr 18 x)) (Z.shiftr x 3).

Definition smallSigma1 (x : Z) : Z :=
  Z.lxor (Z.lxor (rotr 17 x) (rotr 19 x)) (Z.shiftr x 10).

(** The first sixty-four primes. *)
Definition primes : list Z :=
  [ 2; 3; 5; 7; 11; 13; 17; 19; 23; 29; 31; 37; 41; 43; 47; 53;
    59; 61; 67; 71; 73; 79; 83; 89; 97; 101; 103; 107; 109; 113; 127; 131;
    137; 139; 149; 151; 157; 163; 167; 173; 179; 181; 191; 193; 197; 199;
    211; 223; 227; 229; 233; 239; 241; 251; 257; 263; 269; 271; 277; 281;
    283; 293; 307; 311 ].

(** Integer cube root of a number below 2^105, one bit at a time. *)
Definition cubeRoot (n : Z) : Z :=
  fold_left
    (fun r b => let c := r + 2 ^ Z.of_nat b in if c * c * c <=? n then c else r)
    (rev (seq 0 35)) 0.

(** First 32 bits of the fractional part of the cube root of [p]. *)
Definition cubeRootFraction (p : Z) : Z := mask32 (cubeRoot (p * 2 ^ 96)).

(** First 32 bits of the fractional part of the square root of [p]. *)
Definition squareRootFraction (p : Z) : Z := mask32 (Z.sqrt (p * 2 ^ 64)).

(** The round constants (FIPS 180-4, 4.2.2). *)
Definition K : list Z := Eval vm_compute in map cubeRootFraction primes.

(** The eight working words. *)
Record regs : Type := Regs {
  ra : Z; rb : Z; rc : Z; rd : Z; re : Z; rf : Z; rg : Z; rh : Z }.

(** The initial hash value (FIPS 180-4, 5.3.3). *)
Definition H0 : regs :=
  Eval vm_compute in
    Regs (squareRootFraction 2) (squareRootFraction 3) (squareRootFraction 5)
         (squareRootFraction 7) (squareRootFraction 11) (squareRootFraction 13)
         (squareRootFraction 17) (squareRootFraction 19).

(** Big-endian 32-bit words of a 64-byte block. *)
Fixpoint words (bs : list Z) : list Z :=
  match bs with
  | b0 :: b1 :: b2 :: b3 :: r =>
      (((b0 * 256 + b1) * 256 + b2) * 256 + b3) :: words r
  | _ => []
  end.

(** Message schedule: [sched n w] extends the reversed schedule [w]
    (latest word first) by [n] further words. *)
Fixpoint sched (n : nat) (w : list Z) : list Z :=
  match n with
  | O => w
  | S n' =>
      let x :=
        add32 (add32 (smallSigma1 (nth 1 w 0)) (nth 6 w 0))
              (add32 (smallSigma0 (nth 14 w 0)) (nth 15 w 0)) in
      sched n' (x :: w)
  end.

Definition schedule (block : list Z) : list Z :=
  rev (sched 48 (rev (words block))).

Definition round (s : regs) (kw : Z * Z) : regs :=
  let '(k, w) := kw in
  let t1 := add32 (add32 (add32 (add32 (rh s) (bigSigma1 (re s)))
                                (Ch (re s) (rf s) (rg s))) k) w in
  let t2 := add32 (bigSigma0 (ra s)) (Maj (ra s) (rb s) (rc s)) in
  Regs (add32 t1 t2) (ra s) (rb s) (rc s) (add32 (rd s) t1) (re s) (rf s) (rg s).

Definition compress (h : regs) (block : list Z) : regs :=
  let s := fold_left round (combine K (schedule block)) h in
  Regs (add32 (ra h) (ra s)) (add32 (rb h) (rb s))
       (add32 (rc h) (rc s)) (add32 (rd h) (rd s))
       (add32 (re h) (re s)) (add32 (rf h) (rf s))
       (add32 (rg h) (rg s)) (add32 (rh h) (rh s)).

Definition be64 (n : Z) : list Z :=
  map (fun i => (n / 2 ^ (8 * i)) mod 256) [7; 6; 5; 4; 3; 2; 1; 0].

(** Message followed by 0x80, zero bytes up to 56 mod 64, and the bit
    length as a big-endian 64-bit integer. *)
Definition pad (msg : list Z) : list Z :=
  let len := Z.of_nat (List.length msg) in
  let zeros := Z.to_nat ((55 - len) mod 64) in
  msg ++ 128 :: repeat 0 zeros ++ be64 (8 * len).

Fixpoint blocks (fuel : nat) (h : regs) (bs : list Z) : regs :=
  match fuel with
  | O => h
  | S fuel' =>
      match bs with
      | [] => h
      | _ => blocks fuel' (compress h (firstn 64 bs)) (skipn 64 bs)
      end
  end.

Definition be32 (w : Z) : list Z :=
  [ (w / 16777216) mod 256; (w / 65536) mod 256; (w / 256) mod 256; w mod 256 ].

Definition output (h : regs) : list Z :=
  be32 (ra h) ++ be32 (rb h) ++ be32 (rc h) ++ be32 (rd h) ++
  be32 (re h) ++ be32 (rf h) ++ be32 (rg h) ++ be32 (rh h).

(** SHA-256 of a byte string (FIPS 180-4). *)
Definition hash (msg : list Z) : list Z :=
  let p := pad msg in
  output (blocks (List.length p) H0 p).

End Sha256.

Module Crypto.

Definition blockSize : nat := 64.

Definition xorPad (c : Z) (key : list Z) : list Z :=
  map (fun b => Z.lxor b c) key.

(** HMAC (RFC 2104) over SHA-256: a key longer than one block is hashed
    first, then zero-padded to the block size. *)
Definition hmacSha256 (key msg : list Z) : list Z :=
  let k := if (blockSize <? List.length key)%nat then Sha256.hash key else key in
  let k := k ++ repeat 0 (blockSize - List.length k) in
  Sha256.hash (xorPad 92 k ++ Sha256.hash (xorPad 54 k ++ msg)).

(** [createHmac("sha256", secret).update(data, "utf8").digest("hex")] *)
Definition createHmacHex (secret data : string) : string :=
  Buffer.toHex (hmacSha256 (Js.utf8 secret) (Js.utf8 data)).

End Crypto.


(* ================================================================== *)
(** ** Values, schema rows and errors *)

(** Values produced by [JSON.parse].  A property that an object does not
    carry reads as [undefined], here [None].  Objects list their
    properties, one binding per name.  Numbers are the integral ones. *)
Inductive JsValue : Type :=
| JNull
| JBool (b : bool)
| JNum (n : Z)
| JStr (s : string)
| JArr (items : list JsValue)
| JObj (props : list (string * JsValue)).

(** [Record<string, unknown>] *)
Definition UnknownRecord : Type := list (string * JsValue).

(** Property read [node[name]] (and [name in node]).  None of the names
    the sources read is a property of [Object.prototype], so only own
    properties count. *)
Fixpoint prop (node : UnknownRecord) (name : string) : option JsValue :=
  match node with
  | [] => None
  | (k, v) :: rest => if (k =? name)%string then Some v else prop rest name
  end.

(** What the sources rely on and is kept abstract.  Of the JavaScript
    engine: [JSON.parse] ([None] when it throws a SyntaxError), the
    string case of [new Date(s).getTime()] ([None] for NaN), and
    [Date.prototype.toISOString].  Of PostgreSQL: which strings it takes
    as a [text] or [varchar] value (not one that holds U+0000), and
    which instants, sent as the driver prints a [Date], it takes as a
    [timestamp]. *)
Record Runtime : Type := {
  JSON_parse : string -> option JsValue;
  Date_parse : string -> option Z;
  Date_toISOString : Z -> string;
  Pg_text : string -> bool;
  Pg_timestamp : Z -> bool
}.

(** Row of table [licenses] (shared/schema.ts).  Instants are epoch
    milliseconds; [id] stands for the generated uuid. *)
Module License.
Record t : Type := Row {
  id : N;
  key : string;
  email : option string;
  status : string;
  plan : string;
  maxDevices : Z;
  paddleSubscriptionId : option string;
  expiresAt : Z;
  createdAt : Z;
  updatedAt : Z
}.
End License.

(** Row of table [processed_events] (shared/schema.ts). *)
Module ProcessedEvent.
Record t : Type := Row {
  id : N;
  eventId : string;
  source : string;
  processedAt : Z
}.
End ProcessedEvent.

(** [LicenseHttpError] (license.types.ts) *)
Module LicenseHttpError.
Record t : Type := New {
  statusCode : Z;
  code : string;
  message : string;
  details : option UnknownRecord
}.
End LicenseHttpError.

(** What a call can throw: the domain error, the [RangeError] that
    [crypto.timingSafeEqual] raises on buffers of different length, and
    the error with which the datastore driver rejects a statement (a
    unique constraint violated, a value that a column does not take). *)
Inductive Thrown : Type :=
| HttpError (e : LicenseHttpError.t)
| TimingSafeEqualLength
| DatastoreError (reason : string).

(** [LicenseValidationResult] (license.types.ts) *)
Module LicenseValidationResult.
Record t : Type := Make {
  valid : bool;
  statusCode : Z;
  message : string;
  code : string;
  details : option UnknownRecord;
  license : option License.t
}.
End LicenseValidationResult.

(** [PaddleWebhookPayload] (license.types.ts) *)
Module PaddleWebhookPayload.
Record t : Type := Make {
  eventId : string;
  eventType : string;
  data : UnknownRecord
}.
End PaddleWebhookPayload.

Inductive PaddleAction : Type :=
| activated | updated | deactivated | ignored | duplicate.

(** [PaddleWebhookResult] (license.types.ts); [ok] is always [true]. *)
Module PaddleWebhookResult.
Record t : Type := Make {
  ok : bool;
  eventId : string;
  eventType : string;
  action : PaddleAction
}.
End PaddleWebhookResult.

(* ================================================================== *)
(** ** The world a call runs in *)

(** Calls that leave the service: queries sent to the datastore and calls
    of [crypto.timingSafeEqual].  [Applying] marks an entry into
    [applyPaddleLifecycle]; it is bookkeeping used to count lifecycle
    applications and changes no behaviour. *)
Inductive Effect : Type :=
| SelectLicenseByKey (key : string)
| SelectLicenseBySubscription (subscriptionId : string)
| InsertLicense (key : string) (inserted : bool)
| UpdateLicenseById (id : N)
| UpdateLicenseBySubscription (subscriptionId : string)
| InsertProcessedEvent (eventId : string) (inserted : bool)
| DeleteProcessedEvent (eventId : string)
| TimingSafeEqual (a b : list Z)
| Applying (eventId : string).

Record World : Type := MkWorld {
  licenses : list License.t;
  processedEvents : list ProcessedEvent.t;
  (** next value of the id generator behind [gen_random_uuid()] *)
  nextId : N;
  (** [Date.now()], epoch milliseconds *)
  now : Z;
  (** the operating system's random source and how much of it is used *)
  entropy : nat -> Z;
  consumed : nat;
  (** calls made so far, oldest first *)
  journal : list Effect
}.

Inductive Outcome (A : Type) : Type :=
| Returned (a : A)
| Threw (e : Thrown).
Arguments Returned {A} a.
Arguments Threw {A} e.

(** A computation reads and updates the world, and returns or throws. *)
Definition M (A : Type) : Type := World -> Outcome A * World.

Definition ret {A} (a : A) : M A := fun w => (Returned a, w).

Definition throw {A} (e : Thrown) : M A := fun w => (Threw e, w).

Definition bind {A B} (m : M A) (k : A -> M B) : M B :=
  fun w =>
    match m w with
    | (Returned a, w') => k a w'
    | (Threw e, w') => (Threw e, w')
    end.

(** [try { body } catch (error) { handler(error) }] *)
Definition tryCatch {A} (body : M A) (handler : Thrown -> M A) : M A :=
  fun w =>
    match body w with
    | (Returned a, w') => (Returned a, w')
    | (Threw e, w') => handler e w'
    end.

Declare Scope monad_scope.
Delimit Scope monad_scope with M.
Notation "x <- c ;; k" := (bind c (fun x => k))
  (at level 61, c at next level, right associativity) : monad_scope.
Notation "c ;; k" := (bind c (fun _ => k))
  (at level 61, right associativity) : monad_scope.
Local Open Scope monad_scope.

Definition record (e : Effect) : M unit :=
  fun w =>
    (Returned tt,
     MkWorld (licenses w) (processedEvents w) (nextId w) (now w)
             (entropy w) (consumed w) (journal w ++ [e])).

(** [Date.now()] *)
Definition Date_now : M Z := fun w => (Returned (now w), w).

(** [new LicenseHttpError(statusCode, code, message, details)], thrown *)
Definition throwHttp {A} (statusCode : Z) (code message : string)
    (details : option UnknownRecord) : M A :=
  throw (HttpError (LicenseHttpError.New statusCode code message details)).

(* ------------------------------------------------------------------ *)
(** *** [crypto] calls that touch the world *)

(** [crypto.randomBytes(n)]: the next [n] bytes of the random source. *)
Definition randomBytes (n : nat) : M (list Z) :=
  fun w =>
    (Returned (map (fun i => entropy w (consumed w + i)%nat mod 256) (seq 0 n)),
     MkWorld (licenses w) (processedEvents w) (nextId w) (now w)
             (entropy w) (consumed w + n) (journal w)).

Fixpoint bytesEqual (a b : list Z) : bool :=
  match a, b with
  | [], [] => true
  | x :: a', y :: b' => (x =? y) && bytesEqual a' b'
  | _, _ => false
  end.

(** [crypto.timingSafeEqual(a, b)]: throws when the byte lengths differ,
    otherwise tells whether the contents are equal. *)
Definition timingSafeEqual (a b : list Z) : M bool :=
  record (TimingSafeEqual a b) ;;
  if (List.length a =? List.length b)%nat
  then ret (bytesEqual a b)
  else throw TimingSafeEqualLength.

(* ------------------------------------------------------------------ *)
(** *** The datastore: the statements the service sends *)

Definition optEqb (o : option string) (s : string) : bool :=
  match o with Some x => (x =? s)%string | None => false end.

Definition setLicenses (ls : list License.t) (w : World) : World :=
  MkWorld ls (processedEvents w) (nextId w) (now w)
          (entropy w) (consumed w) (journal w).

Definition setProcessedEvents (es : list ProcessedEvent.t) (w : World) : World :=
  MkWorld (licenses w) es (nextId w) (now w)
          (entropy w) (consumed w) (journal w).

Definition bumpId (w : World) : World :=
  MkWorld (licenses w) (processedEvents w) (N.succ (nextId w)) (now w)
          (entropy w) (consumed w) (journal w).

(** [db.select().from(licenses).where(eq(licenses.key, k)).limit(1)] *)
Definition selectLicenseByKey (k : string) : M (list License.t) :=
  record (SelectLicenseByKey k) ;;
  fun w =>
    (Returned (firstn 1 (filter (fun l => (License.key l =? k)%string)
                                (licenses w))), w).

(** Whether the datastore takes [s] as the subscription id of a [where]
    clause: a string of its text domain, to which the ids that the table
    holds belong. *)
Definition admitsSubscription (rt : Runtime) (s : string) (w : World) : bool :=
  Pg_text rt s
  || existsb (fun l => optEqb (License.paddleSubscriptionId l) s) (licenses w).

(** [db.select().from(licenses)
      .where(eq(licenses.paddleSubscriptionId, s)).limit(1)]: an id that
    the datastore does not take is an error. *)
Definition selectLicenseBySubscription (rt : Runtime) (s : string)
  : M (list License.t) :=
  record (SelectLicenseBySubscription s) ;;
  fun w =>
    if admitsSubscription rt s w
    then (Returned (firstn 1 (filter (fun l => optEqb (License.paddleSubscriptionId l) s)
                                     (licenses w))), w)
    else (Threw (DatastoreError "invalid input value"), w).

(** Values of [db.insert(licenses).values({...})]. *)
Record NewLicense : Type := {
  new_key : string;
  new_email : option string;
  new_status : string;
  new_plan : string;
  new_maxDevices : Z;
  new_paddleSubscriptionId : string;
  new_expiresAt : Z
}.

(** A test that holds of [undefined]/[null]. *)
Definition whenSome (p : string -> bool) (o : option string) : bool :=
  match o with Some s => p s | None => true end.

(** PostgreSQL's [integer]. *)
Definition isInt32 (n : Z) : bool :=
  (-2147483648 <=? n) && (n <=? 2147483647).

(** Whether the datastore takes the values of an insert into [licenses]:
    [key] is a [varchar(64)], [max_devices] an [integer], [expires_at] a
    [timestamp], the other columns [text] (shared/schema.ts). *)
Definition admitsLicense (rt : Runtime) (v : NewLicense) : bool :=
  (String.length (new_key v) <=? 64)%nat
  && Pg_text rt (new_key v)
  && whenSome (Pg_text rt) (new_email v)
  && Pg_text rt (new_status v)
  && Pg_text rt (new_plan v)
  && isInt32 (new_maxDevices v)
  && Pg_text rt (new_paddleSubscriptionId v)
  && Pg_timestamp rt (new_expiresAt v).

(** [db.insert(licenses).values(v)
      .onConflictDoNothing({ target: licenses.key })
      .returning({ id: licenses.id })]:
    values that a column does not take are an error, whatever the table
    holds; a row with the same key makes the insert do nothing and return
    no row; the unique constraint on [paddle_subscription_id] is not the
    conflict target, so violating it is an error; otherwise the row is
    stored with a fresh id and the current time in [createdAt] and
    [updatedAt]. *)
Definition insertLicense (rt : Runtime) (v : NewLicense) : M (list N) :=
  fun w =>
    if negb (admitsLicense rt v)
    then (record (InsertLicense (new_key v) false) ;;
          throw (DatastoreError "invalid input value")) w
    else if existsb (fun l => (License.key l =? new_key v)%string) (licenses w)
    then (record (InsertLicense (new_key v) false) ;; ret []) w
    else if existsb (fun l => optEqb (License.paddleSubscriptionId l)
                                     (new_paddleSubscriptionId v)) (licenses w)
    then (record (InsertLicense (new_key v) false) ;;
          throw (DatastoreError "licenses_paddle_subscription_id_unique")) w
    else
      let row := License.Row (nextId w) (new_key v) (new_email v)
                   (new_status v) (new_plan v) (new_maxDevices v)
                   (Some (new_paddleSubscriptionId v)) (new_expiresAt v)
                   (now w) (now w) in
      (record (InsertLicense (new_key v) true) ;; ret [nextId w])
        (bumpId (setLicenses (licenses w ++ [row]) w)).

(** Columns of [db.update(licenses).set({...})] in [upsertActiveLicense]. *)
Record LicenseChange : Type := {
  set_email : option string;
  set_plan : string;
  set_maxDevices : Z;
  set_status : string;
  set_expiresAt : Z;
  set_updatedAt : Z
}.

Definition applyChange (c : LicenseChange) (l : License.t) : License.t :=
  License.Row (License.id l) (License.key l) (set_email c) (set_status c)
    (set_plan c) (set_maxDevices c) (License.paddleSubscriptionId l)
    (set_expiresAt c) (License.createdAt l) (set_updatedAt c).

(** Whether the datastore takes the values of the update; [updatedAt]
    is the current time, which it takes. *)
Definition admitsChange (rt : Runtime) (c : LicenseChange) : bool :=
  whenSome (Pg_text rt) (set_email c)
  && Pg_text rt (set_plan c)
  && isInt32 (set_maxDevices c)
  && Pg_text rt (set_status c)
  && Pg_timestamp rt (set_expiresAt c).

(** [db.update(licenses).set(c).where(eq(licenses.id, i))]: values that
    a column does not take are an error, whichever rows match. *)
Definition updateLicenseById (rt : Runtime) (i : N) (c : LicenseChange)
  : M unit :=
  record (UpdateLicenseById i) ;;
  if negb (admitsChange rt c) then throw (DatastoreError "invalid input value")
  else
    fun w =>
      (Returned tt,
       setLicenses (map (fun l => if (License.id l =? i)%N
                                  then applyChange c l else l)
                        (licenses w)) w).

Definition setStatus (st : string) (at_ : Z) (l : License.t) : License.t :=
  License.Row (License.id l) (License.key l) (License.email l) st
    (License.plan l) (License.maxDevices l) (License.paddleSubscriptionId l)
    (License.expiresAt l) (License.createdAt l) at_.

(** [db.update(licenses).set({ status, updatedAt })
      .where(eq(licenses.paddleSubscriptionId, s))]: an id that the
    datastore does not take is an error; the status is one of three fixed
    words and [updatedAt] the current time, which it takes. *)
Definition updateStatusBySubscription (rt : Runtime) (s st : string) (at_ : Z)
  : M unit :=
  record (UpdateLicenseBySubscription s) ;;
  fun w =>
    if admitsSubscription rt s w
    then (Returned tt,
          setLicenses (map (fun l => if optEqb (License.paddleSubscriptionId l) s
                                     then setStatus st at_ l else l)
                           (licenses w)) w)
    else (Threw (DatastoreError "invalid input value"), w).

(** [db.insert(processedEvents).values({ eventId, source })
      .onConflictDoNothing({ target: processedEvents.eventId })
      .returning({ id: processedEvents.id })] *)
Definition insertProcessedEvent (e src : string) : M (list N) :=
  fun w =>
    if existsb (fun r => (ProcessedEvent.eventId r =? e)%string) (processedEvents w)
    then (record (InsertProcessedEvent e false) ;; ret []) w
    else
      let row := ProcessedEvent.Row (nextId w) e src (now w) in
      (record (InsertProcessedEvent e true) ;; ret [nextId w])
        (bumpId (setProcessedEvents (processedEvents w ++ [row]) w)).

(** [db.delete(processedEvents).where(eq(processedEvents.eventId, e))] *)
Definition deleteProcessedEvent (e : string) : M unit :=
  record (DeleteProcessedEvent e) ;;
  fun w =>
    (Returned tt,
     setProcessedEvents
       (filter (fun r => negb (ProcessedEvent.eventId r =? e)%string)
               (processedEvents w)) w).

(* ================================================================== *)
(** ** license.helpers.ts *)

Definition PADDLE_ACTIVATING_EVENTS : list string :=
  [ "subscription.activated"; "subscription.created"; "subscription.updated";
    "subscription.resumed"; "subscription.trialing"; "subscription.past_due" ].

Definition PADDLE_DEACTIVATING_EVENTS : list string :=
  [ "subscription.canceled"; "subscription.cancelled"; "subscription.paused";
    "subscription.expired"; "subscription.terminated" ].

(** [Set.prototype.has] *)
Definition has (set : list string) (x : string) : bool :=
  existsb (fun y => (y =? x)%string) set.

Definition asRecord (value : option JsValue) : option UnknownRecord :=
  match value with
  | Some (JObj props) => Some props
  | _ => None
  end.

Definition readString (value : option JsValue) : option string :=
  match value with
  | Some (JStr s) =>
      if (0 <? String.length (Js.trim s))%nat then Some (Js.trim s) else None
  | _ => None
  end.

(** Time value of [new Date(n)] for a number: NaN beyond 8.64e15 ms. *)
Definition timeClip (n : Z) : option Z :=
  if Z.abs n <=? 8640000000000000 then Some n else None.

(** [optional?.name] on the result of [asRecord]. *)
Definition propOf (node : option UnknownRecord) (name : string) : option JsValue :=
  match node with
  | Some props => prop props name
  | None => None
  end.

Fixpoint readNestedFrom (current : option JsValue) (path : list string)
  : option JsValue :=
  match path with
  | [] => current
  | segment :: rest =>
      match asRecord current with
      | None => None
      | Some node =>
          match prop node segment with
          | None => None
          | Some v => readNestedFrom (Some v) rest
          end
      end
  end.

Definition readNestedValue (source : UnknownRecord) (path : list string)
  : option JsValue :=
  readNestedFrom (Some (JObj source)) path.

Definition derivePlanFromPriceId (priceId : option string) : string :=
  match priceId with
  | None => "pro"
  | Some p =>
      if negb (Js.truthy p) then "pro"
      else
        let normalized := Js.toLowerCase p in
        if Js.includes normalized "enterprise" then "enterprise"
        else if Js.includes normalized "business" then "business"
        else "pro"
  end.

Definition deriveMaxDevices (plan : string) : Z :=
  let normalized := Js.toLowerCase plan in
  if (normalized =? "enterprise")%string then 100
  else if (normalized =? "business")%string then 10
  else 1.

Definition normalizePrefix (prefix : string) : string :=
  if Js.endsWith prefix "-" then prefix else (prefix ++ "-")%string.

(** [randomBytes(2).toString("hex").toUpperCase()] *)
Definition segment : M string :=
  bs <- randomBytes 2 ;;
  ret (Js.toUpperCase (Buffer.toHex bs)).

Definition buildLicenseKey (prefix : string) : M string :=
  let normalizedPrefix := normalizePrefix prefix in
  s1 <- segment ;;
  s2 <- segment ;;
  s3 <- segment ;;
  s4 <- segment ;;
  ret (normalizedPrefix ++ s1 ++ "-" ++ s2 ++ "-" ++ s3 ++ "-" ++ s4)%string.

Definition httpError {A} (statusCode : Z) (code message : string)
    (details : option UnknownRecord) : Outcome A :=
  Threw (HttpError (LicenseHttpError.New statusCode code message details)).

Record ParsedPaddleSignature : Type := {
  timestamp : string;
  signature : string
}.

Definition isPairSeparator (c : ascii) : bool :=
  (c =? ";")%char || (c =? ",")%char.

Definition isEquals (c : ascii) : bool := (c =? "=")%char.

(** Body of [for (const pair of signaturePairs)]. *)
Definition readPair (acc : option string * option string) (pair : string)
  : option string * option string :=
  match Js.split isEquals pair with
  | [] => acc
  | key :: rest =>
      if negb (Js.truthy key) || (List.length rest =? 0)%nat then acc
      else
        let value := Js.trim (Js.join "=" rest) in
        let ts := if (key =? "ts")%string then Some value else fst acc in
        let h1 := if (key =? "h1")%string then Some value else snd acc in
        (ts, h1)
  end.

Definition signaturePairs (signatureHeader : string) : list string :=
  filter (fun part => (0 <? String.length part)%nat)
         (map Js.trim (Js.split isPairSeparator signatureHeader)).

Definition parsePaddleSignatureHeader (signatureHeader : option string)
  : Outcome ParsedPaddleSignature :=
  match signatureHeader with
  | None =>
      httpError 401 "PADDLE_SIGNATURE_MISSING"
        "Paddle webhook signature is missing" None
  | Some header =>
      if negb (Js.truthy header) then
        httpError 401 "PADDLE_SIGNATURE_MISSING"
          "Paddle webhook signature is missing" None
      else
        match fold_left readPair (signaturePairs header) (None, None) with
        | (Some ts, Some h1) =>
            if negb (Js.truthy ts) || negb (Js.truthy h1) then
              httpError 401 "PADDLE_SIGNATURE_INVALID"
                "Paddle webhook signature header is malformed" None
            else Returned {| timestamp := ts; signature := h1 |}
        | _ =>
            httpError 401 "PADDLE_SIGNATURE_INVALID"
              "Paddle webhook signature header is malformed" None
        end
  end.

(** [for (const candidate of candidates)
       { const value = readString(candidate); if (value) return value; }
     return null;] *)
Fixpoint firstString (candidates : list (option JsValue)) : option string :=
  match candidates with
  | [] => None
  | candidate :: rest =>
      match readString candidate with
      | Some value => if Js.truthy value then Some value else firstString rest
      | None => firstString rest
      end
  end.

Definition extractSubscriptionId (data : UnknownRecord) : option string :=
  firstString
    [ prop data "id";
      prop data "subscription_id";
      readNestedValue data ["subscription"; "id"] ].

Definition extractEmail (data : UnknownRecord) : option string :=
  let customer := asRecord (prop data "customer") in
  let customData := asRecord (prop data "custom_data") in
  firstString
    [ prop data "email"; propOf customer "email"; propOf customData "email" ].

Definition mapDeactivationStatus (eventType : string) : string :=
  if (eventType =? "subscription.expired")%string then "expired"
  else if (eventType =? "subscription.paused")%string then "paused"
  else "canceled".

Definition orElseOpt {A} (a b : option A) : option A :=
  match a with Some _ => a | None => b end.

Definition resolvePlan (data : UnknownRecord) : string :=
  let customData := asRecord (prop data "custom_data") in
  match readString (propOf customData "plan") with
  | Some customPlan => customPlan
  | None =>
      let firstItem :=
        match prop data "items" with
        | Some (JArr items) => nth_error items 0
        | _ => Some JNull
        end in
      let firstItemRecord := asRecord firstItem in
      let price := asRecord (propOf firstItemRecord "price") in
      let priceId :=
        orElseOpt (readString (propOf price "id"))
                  (readString (propOf firstItemRecord "price_id")) in
      derivePlanFromPriceId priceId
  end.

Section Payloads.

Variable rt : Runtime.

(** [readDate]: values read from a parsed payload are never [Date]
    objects, which leaves the string and number cases. *)
Definition readDate (value : option JsValue) : option Z :=
  match value with
  | Some (JStr s) => Date_parse rt s
  | Some (JNum n) => timeClip n
  | _ => None
  end.

Fixpoint firstDate (candidates : list (option JsValue)) : option Z :=
  match candidates with
  | [] => None
  | candidate :: rest =>
      match readDate candidate with
      | Some value => Some value
      | None => firstDate rest
      end
  end.

Definition extractExpiryDate (data : UnknownRecord) : M Z :=
  match firstDate
          [ readNestedValue data ["current_billing_period"; "ends_at"];
            prop data "next_billed_at";
            readNestedValue data ["billing_period"; "ends_at"];
            readNestedValue data ["scheduled_change"; "effective_at"] ] with
  | Some value => ret value
  | None => t <- Date_now ;; ret (t + 365 * 24 * 60 * 60 * 1000)
  end.

Definition parsePaddlePayload (rawBody : string)
  : Outcome PaddleWebhookPayload.t :=
  match JSON_parse rt rawBody with
  | None =>
      httpError 400 "PADDLE_INVALID_PAYLOAD"
        "Paddle webhook payload must be valid JSON" None
  | Some parsed =>
      match asRecord (Some parsed) with
      | None =>
          httpError 400 "PADDLE_INVALID_PAYLOAD"
            "Paddle webhook payload must be an object" None
      | Some root =>
          let eventId := readString (prop root "event_id") in
          let eventType := readString (prop root "event_type") in
          let data :=
            match asRecord (prop root "data") with
            | Some d => d
            | None => []
            end in
          match eventId, eventType with
          | Some i, Some t =>
              if negb (Js.truthy i) || negb (Js.truthy t) then
                httpError 400 "PADDLE_INVALID_PAYLOAD"
                  "Paddle webhook payload is missing event_id or event_type" None
              else Returned (PaddleWebhookPayload.Make i t data)
          | _, _ =>
              httpError 400 "PADDLE_INVALID_PAYLOAD"
                "Paddle webhook payload is missing event_id or event_type" None
          end
      end
  end.

End Payloads.

(* ================================================================== *)
(** ** license.service.ts *)

(** The injected database connection; the queries themselves act on the
    tables held by the [World]. *)
Inductive Database : Type := Connection.

(** The service object: [ConfigService.get] and the optional [db]. *)
Record LicenseService : Type := {
  configService : string -> option string;
  db : option Database
}.

Definition lift {A} (o : Outcome A) : M A := fun w => (o, w).

(** A string that is present and not empty, as tested by [!value]. *)
Definition present (o : option string) : option string :=
  match o with
  | Some s => if Js.truthy s then Some s else None
  | None => None
  end.

Definition isEnforced (this : LicenseService) : bool :=
  match configService this "LICENSE_ENFORCE" with
  | Some v => (v =? "true")%string
  | None => false
  end.

(** [private invalid(statusCode, code, message, details?)] *)
Definition invalid (statusCode : Z) (code message : string)
    (details : option UnknownRecord) : LicenseValidationResult.t :=
  LicenseValidationResult.Make false statusCode message code details None.

Definition backendUnavailable {A} : M A :=
  throwHttp 503 "LICENSE_BACKEND_UNAVAILABLE"
    "License backend is not available" None.

(** [Math.floor(t / 1000)] for a reading [t] of the clock: a time value
    is an integer of at most 8.64e15 in magnitude, for which the quotient
    is rounded and floored to the integer quotient. *)
Definition wholeSeconds (t : Z) : Js.number := Js.Finite (t / 1000).

(** A number as a property value of an error's details.  An infinity or
    NaN, which JSON renders as [null], arises for no reading of the
    clock. *)
Definition numberValue (x : Js.number) : JsValue :=
  match x with
  | Js.Finite v => JNum v
  | _ => JNull
  end.

Definition verifyPaddleSignature (this : LicenseService)
    (rawBody : string) (signatureHeader : option string) : M unit :=
  match present (configService this "PADDLE_WEBHOOK_SECRET") with
  | None =>
      throwHttp 503 "PADDLE_NOT_CONFIGURED"
        "Paddle webhook secret is not configured" None
  | Some secret =>
      parsedSignature <- lift (parsePaddleSignatureHeader signatureHeader) ;;
      let timestamp := timestamp parsedSignature in
      let receivedSignature := signature parsedSignature in
      let toleranceSecondsRaw :=
        configService this "PADDLE_WEBHOOK_TOLERANCE_SEC" in
      let toleranceSeconds :=
        Js.parseInt (Js.orElse toleranceSecondsRaw "300") in
      let timestampSeconds := Js.parseInt timestamp in
      (if Js.isFinite toleranceSeconds
          && Js.isFinite timestampSeconds
          && Js.greater toleranceSeconds (Js.Finite 0)
       then
         t <- Date_now ;;
         let drift := Js.abs (Js.minus (wholeSeconds t) timestampSeconds) in
         if Js.greater drift toleranceSeconds then
           throwHttp 401 "PADDLE_SIGNATURE_EXPIRED"
             "Paddle webhook signature timestamp is outside allowed skew"
             (Some [ ("driftSeconds", numberValue drift);
                     ("toleranceSeconds", numberValue toleranceSeconds) ])
         else ret tt
       else ret tt) ;;
      let payloadToSign := (timestamp ++ ":" ++ rawBody)%string in
      let expectedSignature := Crypto.createHmacHex secret payloadToSign in
      let receivedBuffer := Buffer.fromHex receivedSignature in
      let expectedBuffer := Buffer.fromHex expectedSignature in
      if (List.length receivedBuffer =? 0)%nat
         || negb (List.length receivedBuffer =? List.length expectedBuffer)%nat
      then
        throwHttp 401 "PADDLE_SIGNATURE_INVALID"
          "Paddle webhook signature does not match" None
      else
        isValid <- timingSafeEqual receivedBuffer expectedBuffer ;;
        if negb isValid then
          throwHttp 401 "PADDLE_SIGNATURE_INVALID"
            "Paddle webhook signature does not match" None
        else ret tt
  end.

Definition deactivateLicense (rt : Runtime) (this : LicenseService)
    (data : UnknownRecord) (eventType : string) : M unit :=
  match db this with
  | None => backendUnavailable
  | Some _ =>
      match present (extractSubscriptionId data) with
      | None => ret tt
      | Some subscriptionId =>
          let status := mapDeactivationStatus eventType in
          t <- Date_now ;;
          updateStatusBySubscription rt subscriptionId status t
      end
  end.

Definition maxAttempts : nat := 5.

Section Service.

Variable rt : Runtime.

Definition validateLicenseKey (this : LicenseService) (key : string)
  : M LicenseValidationResult.t :=
  let normalizedKey := Js.trim key in
  if negb (Js.truthy normalizedKey) then
    ret (invalid 401 "LICENSE_REQUIRED"
           "License key is required for hosted access" None)
  else
    let expectedPrefix :=
      Js.orElse (configService this "LICENSE_KEY_PREFIX") "AXON-" in
    if Js.truthy expectedPrefix
       && negb (Js.startsWith normalizedKey expectedPrefix)
    then
      ret (invalid 401 "LICENSE_INVALID" "Invalid license key format"
             (Some [ ("expectedPrefix", JStr expectedPrefix) ]))
    else
      match db this with
      | None =>
          ret (invalid 503 "LICENSE_BACKEND_UNAVAILABLE"
                 "License backend is not available" None)
      | Some _ =>
          rows <- selectLicenseByKey normalizedKey ;;
          match nth_error rows 0 with
          | None =>
              ret (invalid 401 "LICENSE_INVALID" "Invalid license key" None)
          | Some current =>
              if negb (License.status current =? "active")%string then
                ret (invalid 403 "LICENSE_BLOCKED" "License is not active"
                       (Some [ ("status", JStr (License.status current)) ]))
              else
                t <- Date_now ;;
                if License.expiresAt current <=? t then
                  ret (invalid 402 "LICENSE_EXPIRED" "License has expired"
                         (Some [ ("expiresAt",
                                  JStr (Date_toISOString rt
                                          (License.expiresAt current))) ]))
                else
                  ret (LicenseValidationResult.Make true 200
                         "License is valid" "LICENSE_VALID" None
                         (Some current))
          end
      end.

(** [for (let attempt = 0; attempt < maxAttempts; attempt += 1) {...}]
    followed by the [throw] after the loop; [remaining] is
    [maxAttempts - attempt]. *)
Fixpoint insertWithFreshKey (remaining : nat) (keyPrefix : string)
    (email : option string) (status plan : string) (maxDevices : Z)
    (subscriptionId : string) (expiresAt : Z) : M unit :=
  match remaining with
  | O =>
      throwHttp 500 "LICENSE_KEY_GENERATION_FAILED"
        "Unable to generate a unique license key" None
  | S remaining' =>
      generatedKey <- buildLicenseKey keyPrefix ;;
      inserted <-
        insertLicense rt
          {| new_key := generatedKey;
             new_email := email;
             new_status := status;
             new_plan := plan;
             new_maxDevices := maxDevices;
             new_paddleSubscriptionId := subscriptionId;
             new_expiresAt := expiresAt |} ;;
      if (0 <? List.length inserted)%nat then ret tt
      else insertWithFreshKey remaining' keyPrefix email status plan
             maxDevices subscriptionId expiresAt
  end.

(** [typeof data.status === "string" && data.status.trim().length > 0
       ? data.status.trim() : "active"] *)
Definition payloadStatus (data : UnknownRecord) : string :=
  match prop data "status" with
  | Some (JStr s) =>
      if (0 <? String.length (Js.trim s))%nat then Js.trim s else "active"
  | _ => "active"
  end.

Definition upsertActiveLicense (this : LicenseService) (data : UnknownRecord)
  : M unit :=
  match db this with
  | None => backendUnavailable
  | Some _ =>
      match present (extractSubscriptionId data) with
      | None =>
          throwHttp 400 "PADDLE_SUBSCRIPTION_ID_MISSING"
            "Paddle event is missing subscription id" None
      | Some subscriptionId =>
          let plan := resolvePlan data in
          let maxDevices := deriveMaxDevices plan in
          expiresAt <- extractExpiryDate rt data ;;
          let email := extractEmail data in
          let status := payloadStatus data in
          existing <- selectLicenseBySubscription rt subscriptionId ;;
          match nth_error existing 0 with
          | Some existingLicense =>
              t <- Date_now ;;
              updateLicenseById rt (License.id existingLicense)
                {| set_email := orElseOpt email (License.email existingLicense);
                   set_plan := plan;
                   set_maxDevices := maxDevices;
                   set_status := status;
                   set_expiresAt := expiresAt;
                   set_updatedAt := t |}
          | None =>
              let keyPrefix :=
                Js.orElse (configService this "LICENSE_KEY_PREFIX") "AXON-" in
              insertWithFreshKey maxAttempts keyPrefix email status plan
                maxDevices subscriptionId expiresAt
          end
      end
  end.

Definition applyPaddleLifecycle (this : LicenseService)
    (payload : PaddleWebhookPayload.t) : M PaddleAction :=
  record (Applying (PaddleWebhookPayload.eventId payload)) ;;
  let eventType := PaddleWebhookPayload.eventType payload in
  if has PADDLE_ACTIVATING_EVENTS eventType then
    upsertActiveLicense this (PaddleWebhookPayload.data payload) ;;
    ret (if (eventType =? "subscription.created")%string
         then activated else updated)
  else if has PADDLE_DEACTIVATING_EVENTS eventType then
    deactivateLicense rt this (PaddleWebhookPayload.data payload) eventType ;;
    ret deactivated
  else ret ignored.

Definition processPaddleWebhook (this : LicenseService)
    (rawBody : string) (signatureHeader : option string)
  : M PaddleWebhookResult.t :=
  verifyPaddleSignature this rawBody signatureHeader ;;
  payload <- lift (parsePaddlePayload rt rawBody) ;;
  match db this with
  | None => backendUnavailable
  | Some _ =>
      lock <- insertProcessedEvent
                (PaddleWebhookPayload.eventId payload) "paddle" ;;
      if (List.length lock =? 0)%nat then
        ret (PaddleWebhookResult.Make true
               (PaddleWebhookPayload.eventId payload)
               (PaddleWebhookPayload.eventType payload)
               duplicate)
      else
        tryCatch
          (action <- applyPaddleLifecycle this payload ;;
           ret (PaddleWebhookResult.Make true
                  (PaddleWebhookPayload.eventId payload)
                  (PaddleWebhookPayload.eventType payload)
                  action))
          (fun error =>
             deleteProcessedEvent (PaddleWebhookPayload.eventId payload) ;;
             throw error)
  end.

End Service.

(* ================================================================== *)
(** ** license.middleware.ts *)

(** [string | string[] | undefined] *)
Inductive HeaderValue : Type :=
| HeaderAbsent
| HeaderOne (value : string)
| HeaderMany (values : list string).

(** [LicensedRequest]: the headers and the [license] slot. *)
Module LicensedRequest.
Record t : Type := Make {
  headers : string -> HeaderValue;
  license : option License.t
}.
End LicensedRequest.

(** Body of a denial: [{ statusCode, message, code, details }], where
    [details : None] is JSON [null]. *)
Module Denial.
Record t : Type := Make {
  statusCode : Z;
  message : string;
  code : string;
  details : option UnknownRecord
}.
End Denial.

(** How [use] leaves the request: [next()] was called, or a response was
    sent with [res.status(s).json(body)]. *)
Inductive Passage : Type :=
| Next
| Respond (status : Z) (body : Denial.t).

Definition readHeaderValue (value : HeaderValue) : string :=
  match value with
  | HeaderOne s => s
  | HeaderMany (first :: _) => first
  | HeaderMany [] => ""
  | HeaderAbsent => ""
  end.

(** The two methods of [LicenseService] that the middleware calls. *)
Class LicenseGate (S : Type) : Type := {
  gate_isEnforced : S -> bool;
  gate_validateLicenseKey : S -> string -> M LicenseValidationResult.t
}.

Definition use {S} `{LicenseGate S} (licenseService : S)
    (req : LicensedRequest.t) : M (LicensedRequest.t * Passage) :=
  if negb (gate_isEnforced licenseService) then ret (req, Next)
  else
    let licenseKey :=
      Js.trim (readHeaderValue (LicensedRequest.headers req "x-license-key")) in
    if negb (Js.truthy licenseKey) then
      ret (req, Respond 401
                  (Denial.Make 401 "License key is required for hosted access"
                     "LICENSE_REQUIRED" None))
    else
      result <- gate_validateLicenseKey licenseService licenseKey ;;
      if negb (LicenseValidationResult.valid result) then
        ret (req, Respond (LicenseValidationResult.statusCode result)
                    (Denial.Make (LicenseValidationResult.statusCode result)
                       (LicenseValidationResult.message result)
                       (LicenseValidationResult.code result)
                       (LicenseValidationResult.details result)))
      else
        ret (LicensedRequest.Make (LicensedRequest.headers req)
               (LicenseValidationResult.license result), Next).

(** The real service behind the middleware. *)
#[export] Instance serviceGate (rt : Runtime) : LicenseGate LicenseService := {
  gate_isEnforced := isEnforced;
  gate_validateLicenseKey := validateLicenseKey rt
}.

(* ================================================================== *)
(** ** Vocabulary of the specification *)

(** Queries that only read. *)
Definition isSelect (e : Effect) : bool :=
  match e with
  | SelectLicenseByKey _ | SelectLicenseBySubscription _ => true
  | _ => false
  end.

(** Number of lifecycle applications recorded in a journal. *)
Definition applications (j : list Effect) : nat :=
  List.length (filter (fun e => match e with Applying _ => true | _ => false end) j).

(** Everything of the world except the journal of calls. *)
Definition sameState (w w' : World) : Prop :=
  licenses w' = licenses w /\
  processedEvents w' = processedEvents w /\
  nextId w' = nextId w /\
  now w' = now w /\
  entropy w' = entropy w /\
  consumed w' = consumed w.

(** Outcome of the signature check, as the HTTP boundary sees it. *)
Inductive Verdict : Type :=
| Accept
| Reject (status : Z) (code : string).

Definition verdictOf {A} (o : Outcome A) : option Verdict :=
  match o with
  | Returned _ => Some Accept
  | Threw (HttpError e) =>
      Some (Reject (LicenseHttpError.statusCode e) (LicenseHttpError.code e))
  | Threw _ => None
  end.

(** The configured tolerance, 300 seconds when none is configured. *)
Definition toleranceOf (raw : option string) : Js.number :=
  Js.parseInt (Js.orElse raw "300").

(** [|now - ts|] in seconds, as doubles give it. *)
Definition driftOf (nowMs : Z) (ts : string) : Js.number :=
  Js.abs (Js.minus (wholeSeconds nowMs) (Js.parseInt ts)).

(** "The tolerance is configured greater than 0, the timestamp parses, and
    |now - ts| exceeds the tolerance": both numbers are finite, the
    tolerance is positive, and the drift is greater than it. *)
Definition expired (raw : option string) (ts : string) (nowMs : Z) : bool :=
  Js.isFinite (toleranceOf raw)
  && Js.isFinite (Js.parseInt ts)
  && Js.greater (toleranceOf raw) (Js.Finite 0)
  && Js.greater (driftOf nowMs ts) (toleranceOf raw).

(** "The hex-decoded h1 differs in length or content from the hex
    HMAC-SHA256 of <ts>:<rawBody> under the secret." *)
Definition mismatch (secret rawBody ts h1 : string) : bool :=
  negb (bytesEqual
          (Buffer.fromHex h1)
          (Buffer.fromHex
             (Crypto.createHmacHex secret (ts ++ ":" ++ rawBody)%string))).

(** The text before the first [=] of a pair and the text after it. *)
Fixpoint cutAtEquals (pair : string) : option (string * string) :=
  match pair with
  | EmptyString => None
  | String c rest =>
      if isEquals c then Some (EmptyString, rest)
      else match cutAtEquals rest with
           | Some (name, value) => Some (String c name, value)
           | None => None
           end
  end.

(** The pair that a part of a header stands for, if any: a part without
    [=] or without a key is no pair; white space around the value does
    not count. *)
Definition pairOf (part : string) : list (string * string) :=
  match cutAtEquals part with
  | Some (name, value) =>
      if Js.truthy name then [ (name, Js.trim value) ] else []
  | None => []
  end.

(** "Semicolon/comma-separated key=value pairs": the pairs of a header
    in the order they stand in; white space around a part does not
    count. *)
Definition headerPairs (header : string) : list (string * string) :=
  flat_map (fun part => pairOf (Js.trim part))
           (Js.split isPairSeparator header).

(** The value that a list of pairs gives a key: that of the last pair
    with the key. *)
Definition lastValue (name : string) (pairs : list (string * string))
  : option string :=
  match filter (fun pair => (fst pair =? name)%string) pairs with
  | [] => None
  | first :: others => Some (snd (last others first))
  end.

Definition headerValue (name header : string) : option string :=
  lastValue name (headerPairs header).

(** One pair read into the two slots that the parser keeps. *)
Definition assign (slots : option string * option string)
    (pair : string * string) : option string * option string :=
  (if (fst pair =? "ts")%string then Some (snd pair) else fst slots,
   if (fst pair =? "h1")%string then Some (snd pair) else snd slots).

(** The contract of the signature verifier in the order the specification
    lists its failures: not configured, missing, invalid (a pair is
    lacking, or the HMAC does not match), expired. *)
Definition listedVerdict (secret signatureHeader toleranceRaw : option string)
    (rawBody : string) (nowMs : Z) : Verdict :=
  match present secret with
  | None => Reject 503 "PADDLE_NOT_CONFIGURED"
  | Some key =>
      match present signatureHeader with
      | None => Reject 401 "PADDLE_SIGNATURE_MISSING"
      | Some header =>
          match present (headerValue "ts" header),
                present (headerValue "h1" header) with
          | Some ts, Some h1 =>
              if mismatch key rawBody ts h1
              then Reject 401 "PADDLE_SIGNATURE_INVALID"
              else if expired toleranceRaw ts nowMs
              then Reject 401 "PADDLE_SIGNATURE_EXPIRED"
              else Accept
          | _, _ => Reject 401 "PADDLE_SIGNATURE_INVALID"
          end
      end
  end.

(** The same contract with the staleness check ahead of the HMAC
    comparison. *)
Definition orderedVerdict (secret signatureHeader toleranceRaw : option string)
    (rawBody : string) (nowMs : Z) : Verdict :=
  match present secret with
  | None => Reject 503 "PADDLE_NOT_CONFIGURED"
  | Some key =>
      match present signatureHeader with
      | None => Reject 401 "PADDLE_SIGNATURE_MISSING"
      | Some header =>
          match present (headerValue "ts" header),
                present (headerValue "h1" header) with
          | Some ts, Some h1 =>
              if expired toleranceRaw ts nowMs
              then Reject 401 "PADDLE_SIGNATURE_EXPIRED"
              else if mismatch key rawBody ts h1
              then Reject 401 "PADDLE_SIGNATURE_INVALID"
              else Accept
          | _, _ => Reject 401 "PADDLE_SIGNATURE_INVALID"
          end
      end
  end.

Definition signatureInvalid : Thrown :=
  HttpError (LicenseHttpError.New 401 "PADDLE_SIGNATURE_INVALID"
               "Paddle webhook signature does not match" None).

(** The prefix that keys are checked against and generated with. *)
Definition configuredPrefix (this : LicenseService) : string :=
  Js.orElse (configService this "LICENSE_KEY_PREFIX") "AXON-".

(** What [validateLicenseKey] decides once a row is at hand. *)
Definition judge (rt : Runtime) (current : License.t) (t : Z)
  : LicenseValidationResult.t :=
  if negb (License.status current =? "active")%string then
    invalid 403 "LICENSE_BLOCKED" "License is not active"
      (Some [ ("status", JStr (License.status current)) ])
  else if License.expiresAt current <=? t then
    invalid 402 "LICENSE_EXPIRED" "License has expired"
      (Some [ ("expiresAt",
               JStr (Date_toISOString rt (License.expiresAt current))) ])
  else
    LicenseValidationResult.Make true 200 "License is valid" "LICENSE_VALID"
      None (Some current).

(** The world after one more call has been journalled. *)
Definition logged (e : Effect) (w : World) : World :=
  MkWorld (licenses w) (processedEvents w) (nextId w) (now w)
          (entropy w) (consumed w) (journal w ++ [e]).

(** The world after [n] more random bytes have been drawn. *)
Definition drawn (n : nat) (w : World) : World :=
  MkWorld (licenses w) (processedEvents w) (nextId w) (now w)
          (entropy w) (consumed w + n) (journal w).

(** The world when the clock reads [t]. *)
Definition atTime (t : Z) (w : World) : World :=
  MkWorld (licenses w) (processedEvents w) (nextId w) t
          (entropy w) (consumed w) (journal w).

(** The hex group that [segment] builds from the random bytes at
    position [pos]. *)
Definition segmentAt (source : nat -> Z) (pos : nat) : string :=
  Js.toUpperCase
    (Buffer.toHex [ source pos mod 256; source (pos + 1)%nat mod 256 ]).

(** The key that [buildLicenseKey] builds from the eight random bytes at
    position [pos]. *)
Definition keyAt (prefix : string) (source : nat -> Z) (pos : nat) : string :=
  (normalizePrefix prefix
     ++ segmentAt source pos ++ "-" ++ segmentAt source (pos + 2)
     ++ "-" ++ segmentAt source (pos + 4) ++ "-" ++ segmentAt source (pos + 6))%string.

(** Some stored license has this key. *)
Definition keyTaken (w : World) (k : string) : bool :=
  existsb (fun l => (License.key l =? k)%string) (licenses w).

(** Some stored license is linked to this subscription. *)
Definition subscriptionSeen (w : World) (s : string) : bool :=
  existsb (fun l => optEqb (License.paddleSubscriptionId l) s) (licenses w).

(** Some ledger row carries this event id. *)
Definition eventClaimed (w : World) (e : string) : bool :=
  existsb (fun r => (ProcessedEvent.eventId r =? e)%string) (processedEvents w).

(** Keys of the license inserts recorded in a journal, with their
    outcome. *)
Definition insertAttempts (j : list Effect) : list (string * bool) :=
  flat_map (fun e => match e with
                     | InsertLicense k done => [(k, done)]
                     | _ => []
                     end) j.

Definition isUpperHex (c : ascii) : bool :=
  let n := Js.code c in
  ((48 <=? n) && (n <=? 57)) || ((65 <=? n) && (n <=? 70)).

(** Four upper-case hexadecimal digits: two bytes. *)
Definition isHexGroup (s : string) : bool :=
  match s with
  | String a (String b (String c (String d EmptyString))) =>
      isUpperHex a && isUpperHex b && isUpperHex c && isUpperHex d
  | _ => false
  end.

Definition keyGenerationFailed : Thrown :=
  HttpError (LicenseHttpError.New 500 "LICENSE_KEY_GENERATION_FAILED"
               "Unable to generate a unique license key" None).

Definition subscriptionIdMissing : Thrown :=
  HttpError (LicenseHttpError.New 400 "PADDLE_SUBSCRIPTION_ID_MISSING"
               "Paddle event is missing subscription id" None).

(** The expiry that [extractExpiryDate] reads from a payload at time [t]. *)
Definition expiryOf (rt : Runtime) (data : UnknownRecord) (t : Z) : Z :=
  match firstDate rt
          [ readNestedValue data ["current_billing_period"; "ends_at"];
            prop data "next_billed_at";
            readNestedValue data ["billing_period"; "ends_at"];
            readNestedValue data ["scheduled_change"; "effective_at"] ] with
  | Some value => value
  | None => t + 365 * 24 * 60 * 60 * 1000
  end.

(** The values that [upsertActiveLicense] offers for insertion under a
    key. *)
Definition offered (rt : Runtime) (data : UnknownRecord) (w : World)
    (key sub : string) : NewLicense :=
  {| new_key := key;
     new_email := extractEmail data;
     new_status := payloadStatus data;
     new_plan := resolvePlan data;
     new_maxDevices := deriveMaxDevices (resolvePlan data);
     new_paddleSubscriptionId := sub;
     new_expiresAt := expiryOf rt data (now w) |}.

(** The error of a statement whose values the datastore does not take. *)
Definition valueRefused : Thrown := DatastoreError "invalid input value".

(** The row that [upsertActiveLicense] inserts for a new subscription. *)
Definition createdRow (rt : Runtime) (data : UnknownRecord) (w : World)
    (key sub : string) : License.t :=
  License.Row (nextId w) key (extractEmail data) (payloadStatus data)
    (resolvePlan data) (deriveMaxDevices (resolvePlan data)) (Some sub)
    (expiryOf rt data (now w)) (now w) (now w).

(** The columns that [upsertActiveLicense] writes when the subscription
    already has the row [existing]. *)
Definition refresh (rt : Runtime) (data : UnknownRecord) (w : World)
    (existing : License.t) : LicenseChange :=
  {| set_email := orElseOpt (extractEmail data) (License.email existing);
     set_plan := resolvePlan data;
     set_maxDevices := deriveMaxDevices (resolvePlan data);
     set_status := payloadStatus data;
     set_expiresAt := expiryOf rt data (now w);
     set_updatedAt := now w |}.

(** The journal of [w'] continues that of [w] without a further
    lifecycle application. *)
Definition quietly (w w' : World) : Prop :=
  exists calls, journal w' = journal w ++ calls /\ applications calls = 0%nat.

(** What a lifecycle step may change: the licenses, the id generator,
    the random source position and the journal, but neither the ledger
    nor the clock. *)
Definition ledgerKept (w w' : World) : Prop :=
  processedEvents w' = processedEvents w /\ now w' = now w /\ quietly w w'.

(** The action that [applyPaddleLifecycle] reports for an activating
    event type. *)
Definition activationAction (eventType : string) : PaddleAction :=
  if (eventType =? "subscription.created")%string then activated else updated.

(** The string does not begin with white space. *)
Definition noLeadingSpace (s : string) : Prop :=
  match s with
  | EmptyString => True
  | String c _ => Js.isWhiteSpace c = false
  end.

(** Every code unit of the string passes the test. *)
Fixpoint allChars (p : ascii -> bool) (s : string) : bool :=
  match s with
  | EmptyString => true
  | String c r => p c && allChars p r
  end.

(* ================================================================== *)
(** ** Sample inputs *)

(** The double quote, for writing JSON bodies. *)
Definition dq : string := String (ascii_of_N 34) EmptyString.

Definition sampleConfig (name : string) : option string :=
  if (name =? "PADDLE_WEBHOOK_SECRET")%string then Some "whsec"
  else if (name =? "LICENSE_ENFORCE")%string then Some "true"
  else None.

Definition sampleService : LicenseService :=
  {| configService := sampleConfig; db := Some Connection |}.

(** A service whose key prefix has 46 characters: a key built with it
    has 65. *)
Definition longPrefix : string :=
  "AXON-ENTERPRISE-EUROPE-PRODUCTION-DATACENTRES-".

Definition longPrefixService : LicenseService :=
  {| configService := fun name =>
       if (name =? "LICENSE_KEY_PREFIX")%string then Some longPrefix
       else sampleConfig name;
     db := Some Connection |}.

(** A service with a tolerance close to 2^53 seconds. *)
Definition wideToleranceService : LicenseService :=
  {| configService := fun name =>
       if (name =? "PADDLE_WEBHOOK_TOLERANCE_SEC")%string
       then Some "9007197554740994"
       else sampleConfig name;
     db := Some Connection |}.

Fixpoint zeros (n : nat) : string :=
  match n with
  | O => EmptyString
  | S k => String "0" (zeros k)
  end.

(** A timestamp of 310 digits, beyond the range of doubles. *)
Definition farTimestamp : string := String "1" (zeros 309).

(** A subscription id that begins with U+0000. *)
Definition unstorableId : string := String (ascii_of_N 0) "sub".

(** A world with empty tables at time [t] (epoch milliseconds). *)
Definition emptyWorld (t : Z) : World :=
  MkWorld [] [] 1 t (fun i => Z.of_nat i) 0 [].

(** The JSON texts the samples use, with the values [JSON.parse] gives
    for them. *)
Definition createdBody : string :=
  ("{" ++ dq ++ "event_id" ++ dq ++ ":" ++ dq ++ "evt1" ++ dq ++ ","
       ++ dq ++ "event_type" ++ dq ++ ":" ++ dq ++ "subscription.created" ++ dq ++ ","
       ++ dq ++ "data" ++ dq ++ ":{" ++ dq ++ "id" ++ dq ++ ":" ++ dq ++ "sub1" ++ dq
       ++ "}}")%string.

Definition createdValue : JsValue :=
  JObj [ ("event_id", JStr "evt1");
         ("event_type", JStr "subscription.created");
         ("data", JObj [ ("id", JStr "sub1") ]) ].

Definition updatedBody : string :=
  ("{" ++ dq ++ "event_id" ++ dq ++ ":" ++ dq ++ "evt2" ++ dq ++ ","
       ++ dq ++ "event_type" ++ dq ++ ":" ++ dq ++ "subscription.updated" ++ dq ++ ","
       ++ dq ++ "data" ++ dq ++ ":{}}")%string.

Definition updatedValue : JsValue :=
  JObj [ ("event_id", JStr "evt2");
         ("event_type", JStr "subscription.updated");
         ("data", JObj []) ].

(** A runtime that parses the sample bodies and renders the one instant
    the samples print; the samples carry no date strings.  Its datastore
    takes every string without U+0000 and the instants of the years 1 to
    9999. *)
Definition sampleRuntime : Runtime :=
  {| JSON_parse := fun s =>
       if (s =? createdBody)%string then Some createdValue
       else if (s =? updatedBody)%string then Some updatedValue
       else None;
     Date_parse := fun _ => None;
     Date_toISOString := fun t =>
       if t =? 1699999940000 then "2023-11-14T22:12:20.000Z" else "";
     Pg_text := allChars (fun c => negb (Js.code c =? 0));
     Pg_timestamp := fun t =>
       (-62135596800000 <=? t) && (t <? 253402300800000) |}.

(** A license row as the service tests build it. *)
Definition buildLicense (status : string) (expiresAt : Z) : License.t :=
  License.Row 1 "AXON-VALID-KEY" None status "pro" 1 None expiresAt
    1699990000000 1699990000000.

Definition worldWith (rows : list License.t) (t : Z) : World :=
  MkWorld rows [] 2 t (fun i => Z.of_nat i) 0 [].

(** A world in which one stored license already uses the first key that
    the random source will yield. *)
Definition collidingWorld : World :=
  MkWorld
    [ License.Row 1 "AXON-0001-0203-0405-0607" None "active" "pro" 1
        (Some "sub0") 1800000000000 1699990000000 1699990000000 ]
    [] 2 1700000000000 (fun i => Z.of_nat i) 0 [].

(** Signature headers for the sample bodies under the sample secret. *)
Definition createdSignature : string :=
  "ts=1700000000;h1=59c0c032b6137df33b33ae7330651d4c9fc8812f7f3fee577974c36b0cf4c479".

Definition updatedSignature : string :=
  "ts=1700000000;h1=1e5dc4de6a9ba59ac336f2ce8d57f55c4835fcddcdf0023af5256cac5c255dd1".

(* ================================================================== *)
(** ** license.controller.ts *)

(** An [HttpException] as the controller builds it: the HTTP status and
    the response body.  [valid : None] means the body has no such field. *)
Module HttpException.
Record t : Type := New {
  status : Z;
  statusCode : Z;
  message : string;
  code : string;
  details : option UnknownRecord;
  valid : option bool
}.
End HttpException.

(** Body of a successful [POST license/validate]. *)
Module ValidateReply.
Record t : Type := Make {
  valid : bool;
  plan : option string;
  expiresAt : option string;
  message : string;
  code : string
}.
End ValidateReply.

(** What a controller method hands to the framework: a body for a 200
    response, or an [HttpException] it has thrown. *)
Inductive Response (A : Type) : Type :=
| Replied (body : A)
| Raised (e : HttpException.t).
Arguments Replied {A} body.
Arguments Raised {A} e.

(** [RequestWithRawBody]: the raw body when the framework kept it, and the
    parsed body ([BodyText] when it is a string). *)
Inductive RequestBody : Type :=
| BodyText (text : string)
| BodyValue (value : option JsValue).

Record RequestWithRawBody : Type := {
  rawBody : option string;
  body : RequestBody
}.

Section Controller.

Variable rt : Runtime.

(** [JSON.stringify], kept abstract. *)
Variable JSON_stringify : JsValue -> string.

Definition validateLicense (licenseService : LicenseService) (key : string)
  : M (Response ValidateReply.t) :=
  result <- validateLicenseKey rt licenseService key ;;
  if negb (LicenseValidationResult.valid result) then
    ret (Raised
           (HttpException.New
              (LicenseValidationResult.statusCode result)
              (LicenseValidationResult.statusCode result)
              (LicenseValidationResult.message result)
              (LicenseValidationResult.code result)
              (LicenseValidationResult.details result)
              (Some false)))
  else
    ret (Replied
           (ValidateReply.Make true
              (option_map License.plan (LicenseValidationResult.license result))
              (option_map (fun l => Date_toISOString rt (License.expiresAt l))
                          (LicenseValidationResult.license result))
              (LicenseValidationResult.message result)
              (LicenseValidationResult.code result))).

(** [req.rawBody ?? (typeof req.body === "string"
       ? req.body : JSON.stringify(req.body ?? {}))] *)
Definition rawBodyOf (req : RequestWithRawBody) : string :=
  match rawBody req with
  | Some raw => raw
  | None =>
      match body req with
      | BodyText text | BodyValue (Some (JStr text)) => text
      | BodyValue (Some JNull) | BodyValue None => JSON_stringify (JObj [])
      | BodyValue (Some value) => JSON_stringify value
      end
  end.

Definition paddleWebhook (licenseService : LicenseService)
    (req : RequestWithRawBody) (paddleSignature : option string)
  : M (Response PaddleWebhookResult.t) :=
  tryCatch
    (result <- processPaddleWebhook rt licenseService (rawBodyOf req)
                 paddleSignature ;;
     ret (Replied result))
    (fun error =>
       match error with
       | HttpError e =>
           ret (Raised
                  (HttpException.New
                     (LicenseHttpError.statusCode e)
                     (LicenseHttpError.statusCode e)
                     (LicenseHttpError.message e)
                     (LicenseHttpError.code e)
                     (LicenseHttpError.details e)
                     None))
       | _ =>
           ret (Raised
                  (HttpException.New 500 500 "Failed to process Paddle webhook"
                     "PADDLE_PROCESSING_ERROR" None None))
       end).

End Controller.

(* ================================================================== *)
(** ** Further vocabulary *)

(** A code unit that is neither white space nor one of [;], [,], [=]. *)
Definition isPlain (c : ascii) : bool :=
  negb (Js.isWhiteSpace c) && negb (isPairSeparator c) && negb (isEquals c).

(** A value that can stand in a [Paddle-Signature] pair as it is: not
    empty, no white space, no separator, no equals sign. *)
Definition plainValue (s : string) : bool :=
  Js.truthy s && allChars isPlain s.

(** The header a sender builds for a body: [ts=<ts>;h1=<hex HMAC>]. *)
Definition signedHeader (secret ts rawBody : string) : string :=
  ("ts=" ++ ts ++ ";h1="
     ++ Crypto.createHmacHex secret (ts ++ ":" ++ rawBody))%string.

(** The columns of a license that no webhook rewrites. *)
Definition identityOf (l : License.t)
  : N * string * option string * Z :=
  (License.id l, License.key l, License.paddleSubscriptionId l,
   License.createdAt l).

(** The error codes of the webhook path with their HTTP statuses. *)
Definition webhookErrors : list (Z * string) :=
  [ (503, "PADDLE_NOT_CONFIGURED");
    (401, "PADDLE_SIGNATURE_MISSING");
    (401, "PADDLE_SIGNATURE_INVALID");
    (401, "PADDLE_SIGNATURE_EXPIRED");
    (400, "PADDLE_INVALID_PAYLOAD");
    (503, "LICENSE_BACKEND_UNAVAILABLE");
    (400, "PADDLE_SUBSCRIPTION_ID_MISSING");
    (500, "LICENSE_KEY_GENERATION_FAILED") ].

Definition pairEqb (a b : Z * string) : bool :=
  (fst a =? fst b) && (snd a =? snd b)%string.

(** An error that the webhook path lets out: a [LicenseHttpError] with
    one of the eight pairs, or an error of the datastore. *)
Definition isWebhookError (e : Thrown) : bool :=
  match e with
  | HttpError h =>
      existsb (pairEqb (LicenseHttpError.statusCode h, LicenseHttpError.code h))
              webhookErrors
  | DatastoreError _ => true
  | TimingSafeEqualLength => false
  end.

(** The answer of the webhook endpoint to an error that is not a
    [LicenseHttpError]. *)
Definition processingError : HttpException.t :=
  HttpException.New 500 500 "Failed to process Paddle webhook"
    "PADDLE_PROCESSING_ERROR" None None.

(** A request that carries a raw body. *)
Definition rawRequest (text : string) : RequestWithRawBody :=
  {| rawBody := Some text; body := BodyValue None |}.

(** The answers of the validator: status code and code. *)
Definition validationAnswers : list (Z * string) :=
  [ (401, "LICENSE_REQUIRED");
    (401, "LICENSE_INVALID");
    (503, "LICENSE_BACKEND_UNAVAILABLE");
    (403, "LICENSE_BLOCKED");
    (402, "LICENSE_EXPIRED");
    (200, "LICENSE_VALID") ].

(** The eight random bytes that a key is built from. *)
Definition keyBytes (source : nat -> Z) (pos : nat) : list Z :=
  map (fun i => source (pos + i)%nat mod 256) (seq 0 8).

(** A request for the gate that carries one license key header. *)
Definition requestWithKey (key : string) : LicensedRequest.t :=
  LicensedRequest.Make
    (fun name => if (name =? "x-license-key")%string
                 then HeaderOne key else HeaderAbsent)
    None.

(* ================================================================== *)
(** * Properties *)

(** ** Hex codec and digest size *)

Lemma unhex_hexDigit (n : Z) :
  0 <= n < 16 -> Buffer.unhex (Buffer.hexDigit n) = Some n.
Proof.
  intros Hn. rewrite <- (Z2Nat.id n) by lia.
  assert (Hk : (Z.to_nat n < 16)%nat) by lia.
  revert Hk. generalize (Z.to_nat n) as k. intros k Hk.
  do 16 (destruct k as [| k]; [reflexivity |]). lia.
Qed.

Lemma fromHex_toHex (bs : list Z) :
  Forall (fun b => 0 <= b < 256) bs -> Buffer.fromHex (Buffer.toHex bs) = bs.
Proof.
  induction 1 as [| b bs Hb _ IH]; [reflexivity |].
  cbn [Buffer.toHex Buffer.fromHex].
  rewrite !unhex_hexDigit.
  - rewrite IH. f_equal. pose proof (Z.div_mod b 16). lia.
  - apply Z.mod_pos_bound; lia.
  - split; [apply Z.div_pos; lia | apply Z.div_lt_upper_bound; lia].
Qed.

Lemma output_length (h : Sha256.regs) : List.length (Sha256.output h) = 32%nat.
Proof. reflexivity. Qed.

Lemma output_bytes (h : Sha256.regs) :
  Forall (fun b => 0 <= b < 256) (Sha256.output h).
Proof.
  unfold Sha256.output, Sha256.be32; cbn [app].
  repeat constructor; apply Z.mod_pos_bound; lia.
Qed.

Lemma hmac_length (key msg : list Z) :
  List.length (Crypto.hmacSha256 key msg) = 32%nat.
Proof. unfold Crypto.hmacSha256, Sha256.hash. apply output_length. Qed.

Lemma hmac_bytes (key msg : list Z) :
  Forall (fun b => 0 <= b < 256) (Crypto.hmacSha256 key msg).
Proof. unfold Crypto.hmacSha256, Sha256.hash. apply output_bytes. Qed.

(** Decoding the hex digest gives the digest back: the expected buffer is
    the 32-byte HMAC. *)
Lemma expectedBuffer_is_hmac (secret data : string) :
  Buffer.fromHex (Crypto.createHmacHex secret data)
  = Crypto.hmacSha256 (Js.utf8 secret) (Js.utf8 data).
Proof. unfold Crypto.createHmacHex. apply fromHex_toHex, hmac_bytes. Qed.

Lemma expectedBuffer_length (secret data : string) :
  List.length (Buffer.fromHex (Crypto.createHmacHex secret data)) = 32%nat.
Proof. rewrite expectedBuffer_is_hmac. apply hmac_length. Qed.

(** Hex decoding yields at most one byte per two characters: a truncated
    or non-hex [h1] decodes short. *)
Lemma fromHex_length (s : string) :
  (2 * List.length (Buffer.fromHex s) <= String.length s)%nat.
Proof.
  assert (H : forall s,
             (2 * List.length (Buffer.fromHex s) <= String.length s)%nat
             /\ forall c,
                  (2 * List.length (Buffer.fromHex (String c s))
                   <= String.length (String c s))%nat).
  { clear s. induction s as [| b r [IHr IHcr]].
    - split; [cbn; lia | intros c; cbn; lia].
    - split; [apply IHcr |].
      intros c. cbn [Buffer.fromHex String.length].
      destruct (Buffer.unhex c); [| cbn; lia].
      destruct (Buffer.unhex b); cbn [List.length]; lia. }
  apply H.
Qed.

Lemma bytesEqual_eq (a b : list Z) : bytesEqual a b = true <-> a = b.
Proof.
  revert b; induction a as [| x a IH]; intros [| y b]; cbn; try easy.
  rewrite andb_true_iff, Z.eqb_eq, IH. split.
  - intros [-> ->]; reflexivity.
  - intros H; injection H; auto.
Qed.

(** ** Test vectors *)

Example sha256_abc :
  Buffer.toHex (Sha256.hash (Js.utf8 "abc"))
  = "ba7816bf8f01cfea414140de5dae2223b00361a396177a9cb410ff61f20015ad".
Proof. vm_compute. reflexivity. Qed.

Example sha256_empty :
  Buffer.toHex (Sha256.hash [])
  = "e3b0c44298fc1c149afbf4c8996fb92427ae41e4649b934ca495991b7852b855".
Proof. vm_compute. reflexivity. Qed.

Example hmac_key_longer_than_block :
  Buffer.toHex
    (Crypto.hmacSha256 (repeat 170 131)
       (Js.utf8 "Test Using Larger Than Block-Size Key - Hash Key First"))
  = "60e431591ee0b67f0d8a26aacbf5b77f8e0bc6213728c5140546040f0ee37f54".
Proof. vm_compute. reflexivity. Qed.

Example hmac_short_key :
  Crypto.createHmacHex "key" "The quick brown fox jumps over the lazy dog"
  = "f7bc83f430538424b13298e6aa6fb143ef4d59a14946175997479dbc2d1a3cd8".
Proof. vm_compute. reflexivity. Qed.

(** ** Signature verification *)

Lemma record_run (e : Effect) (w : World) :
  record e w =
  (Returned tt,
   MkWorld (licenses w) (processedEvents w) (nextId w) (now w)
           (entropy w) (consumed w) (journal w ++ [e])).
Proof. reflexivity. Qed.

Lemma sameState_refl (w : World) : sameState w w.
Proof. repeat split. Qed.

Lemma sameState_trans (w1 w2 w3 : World) :
  sameState w1 w2 -> sameState w2 w3 -> sameState w1 w3.
Proof.
  unfold sameState; intros (?&?&?&?&?&?) (?&?&?&?&?&?).
  repeat split; congruence.
Qed.

Lemma sameState_record (e : Effect) (w : World) :
  sameState w (snd (record e w)).
Proof. repeat split. Qed.

(** The check of the clock skew, read off the source. *)
Lemma skew_check_run (raw : option string) (ts : string) (w : World) :
  (if Js.isFinite (Js.parseInt (Js.orElse raw "300"))
      && Js.isFinite (Js.parseInt ts)
      && Js.greater (Js.parseInt (Js.orElse raw "300")) (Js.Finite 0)
   then
     t <- Date_now ;;
     let drift := Js.abs (Js.minus (wholeSeconds t) (Js.parseInt ts)) in
     if Js.greater drift (Js.parseInt (Js.orElse raw "300")) then
       throwHttp 401 "PADDLE_SIGNATURE_EXPIRED"
         "Paddle webhook signature timestamp is outside allowed skew"
         (Some [ ("driftSeconds", numberValue drift);
                 ("toleranceSeconds",
                  numberValue (Js.parseInt (Js.orElse raw "300"))) ])
     else ret tt
   else ret tt) w
  = if expired raw ts (now w)
    then (Threw (HttpError
                   (LicenseHttpError.New 401 "PADDLE_SIGNATURE_EXPIRED"
                      "Paddle webhook signature timestamp is outside allowed skew"
                      (Some [ ("driftSeconds", numberValue (driftOf (now w) ts));
                              ("toleranceSeconds",
                               numberValue (toleranceOf raw)) ]))), w)
    else (Returned tt, w).
Proof.
  unfold expired, toleranceOf, driftOf.
  destruct (Js.isFinite (Js.parseInt (Js.orElse raw "300"))
            && Js.isFinite (Js.parseInt ts)
            && Js.greater (Js.parseInt (Js.orElse raw "300")) (Js.Finite 0));
    [| reflexivity].
  unfold bind, Date_now. cbv zeta. cbn [andb].
  destruct (Js.greater _ _); reflexivity.
Qed.

(** One equation for the whole of [verifyPaddleSignature]. *)
Lemma verify_run (this : LicenseService) (rawBody : string)
    (signatureHeader : option string) (w : World) :
  verifyPaddleSignature this rawBody signatureHeader w =
  match present (configService this "PADDLE_WEBHOOK_SECRET") with
  | None =>
      (Threw (HttpError (LicenseHttpError.New 503 "PADDLE_NOT_CONFIGURED"
                           "Paddle webhook secret is not configured" None)), w)
  | Some secret =>
      match parsePaddleSignatureHeader signatureHeader with
      | Threw e => (Threw e, w)
      | Returned p =>
          if expired (configService this "PADDLE_WEBHOOK_TOLERANCE_SEC")
                     (timestamp p) (now w)
          then
            (Threw (HttpError
                      (LicenseHttpError.New 401 "PADDLE_SIGNATURE_EXPIRED"
                         "Paddle webhook signature timestamp is outside allowed skew"
                         (Some [ ("driftSeconds",
                                  numberValue (driftOf (now w) (timestamp p)));
                                 ("toleranceSeconds",
                                  numberValue
                                    (toleranceOf
                                       (configService this
                                          "PADDLE_WEBHOOK_TOLERANCE_SEC"))) ]))),
             w)
          else
            let received := Buffer.fromHex (signature p) in
            let expected :=
              Buffer.fromHex
                (Crypto.createHmacHex secret (timestamp p ++ ":" ++ rawBody)%string) in
            if (List.length received =? 32)%nat then
              (if bytesEqual received expected
               then Returned tt else Threw signatureInvalid,
               snd (record (TimingSafeEqual received expected) w))
            else (Threw signatureInvalid, w)
      end
  end.
Proof.
  unfold verifyPaddleSignature.
  destruct (present (configService this "PADDLE_WEBHOOK_SECRET")) as [secret |];
    [| reflexivity].
  unfold bind at 1, lift.
  destruct (parsePaddleSignatureHeader signatureHeader) as [p | e]; [| reflexivity].
  unfold bind at 1. cbv zeta.
  rewrite skew_check_run.
  destruct (expired _ _ _); [reflexivity |].
  rewrite expectedBuffer_length.
  set (received := Buffer.fromHex (signature p)).
  set (expected := Buffer.fromHex _).
  destruct (List.length received =? 32)%nat eqn:Hlen.
  - apply Nat.eqb_eq in Hlen.
    replace (List.length received =? 0)%nat with false
      by (symmetry; apply Nat.eqb_neq; lia).
    cbn [orb negb].
    unfold timingSafeEqual, bind. rewrite record_run. cbn [snd].
    assert (Hexp : List.length expected = 32%nat) by apply expectedBuffer_length.
    replace (List.length received =? List.length expected)%nat with true
      by (symmetry; apply Nat.eqb_eq; lia).
    unfold ret. destruct (bytesEqual received expected); reflexivity.
  - destruct (List.length received =? 0)%nat; reflexivity.
Qed.

Opaque Crypto.hmacSha256 Crypto.createHmacHex.

Lemma bytesEqual_length (a b : list Z) :
  bytesEqual a b = true -> List.length a = List.length b.
Proof. intros H; apply bytesEqual_eq in H; congruence. Qed.

(** What [parsePaddleSignatureHeader] throws. *)
Lemma parse_header_throws (signatureHeader : option string) (e : Thrown) :
  parsePaddleSignatureHeader signatureHeader = Threw e ->
  verdictOf (@Threw unit e)
  = Some (match present signatureHeader with
          | None => Reject 401 "PADDLE_SIGNATURE_MISSING"
          | Some _ => Reject 401 "PADDLE_SIGNATURE_INVALID"
          end).
Proof.
  unfold parsePaddleSignatureHeader, present, httpError.
  destruct signatureHeader as [header |]; [| intros [= <-]; reflexivity].
  destruct (Js.truthy header); cbn [negb]; [| intros [= <-]; reflexivity].
  destruct (fold_left readPair (signaturePairs header) (None, None))
    as [[ts |] [h1 |]]; try (intros [= <-]; reflexivity).
  destruct (negb (Js.truthy ts) || negb (Js.truthy h1));
    [intros [= <-]; reflexivity | discriminate].
Qed.

Lemma parse_header_returns (signatureHeader : option string)
    (p : ParsedPaddleSignature) :
  parsePaddleSignatureHeader signatureHeader = Returned p ->
  present signatureHeader <> None.
Proof.
  unfold parsePaddleSignatureHeader, present, httpError.
  destruct signatureHeader as [header |]; [| discriminate].
  destruct (Js.truthy header); cbn [negb]; [discriminate | discriminate].
Qed.

(** ** The header, pair by pair *)

Lemma split_nonempty (sep : ascii -> bool) (s : string) :
  Js.split sep s <> [].
Proof.
  induction s as [| c r IH]; [discriminate |].
  cbn [Js.split]. destruct (sep c); [discriminate |].
  destruct (Js.split sep r); discriminate.
Qed.

(** Splitting at [=] cuts at the first [=] and goes on behind it. *)
Lemma split_cut (s : string) :
  Js.split isEquals s
  = match cutAtEquals s with
    | Some (name, value) => name :: Js.split isEquals value
    | None => [s]
    end.
Proof.
  induction s as [| c r IH]; [reflexivity |].
  cbn [Js.split cutAtEquals]. destruct (isEquals c); [reflexivity |].
  rewrite IH. destruct (cutAtEquals r) as [[name value] |]; reflexivity.
Qed.

(** Joining with [=] what was split at [=] gives the text back. *)
Lemma join_split (s : string) :
  Js.join "=" (Js.split isEquals s) = s.
Proof.
  unfold Js.join. induction s as [| c r IH]; [reflexivity |].
  cbn [Js.split].
  pose proof (split_nonempty isEquals r) as Hne.
  destruct (Js.split isEquals r) as [| h t] eqn:Hr; [contradiction |].
  destruct (isEquals c) eqn:Hc.
  - unfold isEquals in Hc. apply Ascii.eqb_eq in Hc. subst c.
    change (String.concat "=" ("" :: h :: t))
      with (String "=" (String.concat "=" (h :: t))).
    rewrite IH. reflexivity.
  - rewrite <- IH. destruct t; reflexivity.
Qed.

(** The body of the parser's loop reads the pair a part stands for. *)
Lemma readPair_assign (slots : option string * option string) (part : string) :
  readPair slots part = fold_left assign (pairOf part) slots.
Proof.
  unfold readPair, pairOf. rewrite split_cut.
  destruct (cutAtEquals part) as [[name value] |].
  - pose proof (split_nonempty isEquals value) as Hne.
    rewrite join_split.
    destruct (Js.split isEquals value) as [| h t]; [contradiction |].
    cbn [List.length Nat.eqb orb]. rewrite orb_false_r.
    destruct (Js.truthy name); reflexivity.
  - cbn [List.length Nat.eqb]. rewrite orb_true_r. reflexivity.
Qed.

Lemma fold_readPair (parts : list string)
    (slots : option string * option string) :
  fold_left readPair
    (filter (fun part => (0 <? String.length part)%nat) (map Js.trim parts))
    slots
  = fold_left assign (flat_map (fun part => pairOf (Js.trim part)) parts) slots.
Proof.
  revert slots. induction parts as [| part parts IH]; intros slots; [reflexivity |].
  cbn [map filter flat_map]. rewrite fold_left_app.
  destruct (Js.trim part) as [| c r] eqn:Htrim.
  - cbn [String.length Nat.ltb Nat.leb pairOf cutAtEquals fold_left]. apply IH.
  - replace (0 <? String.length (String c r))%nat with true by reflexivity.
    cbn [fold_left]. rewrite readPair_assign. apply IH.
Qed.

Lemma last_of_cons {A} (l : list A) (a d : A) : last (a :: l) d = last l a.
Proof.
  revert a d. induction l as [| b l IH]; intros a d; [reflexivity |].
  change (last (a :: b :: l) d) with (last (b :: l) d).
  rewrite !IH. reflexivity.
Qed.

Lemma lastValue_cons (name : string) (pair : string * string)
    (pairs : list (string * string)) :
  lastValue name (pair :: pairs)
  = orElseOpt (lastValue name pairs)
              (if (fst pair =? name)%string then Some (snd pair) else None).
Proof.
  unfold lastValue. cbn [filter].
  destruct (fst pair =? name)%string.
  - destruct (filter _ pairs) as [| first others]; [reflexivity |].
    rewrite last_of_cons. reflexivity.
  - destruct (filter _ pairs); reflexivity.
Qed.

(** After the loop each slot holds the value of the last pair with its
    key, or what it held before when there is none. *)
Lemma fold_assign (pairs : list (string * string))
    (slots : option string * option string) :
  fold_left assign pairs slots
  = (orElseOpt (lastValue "ts" pairs) (fst slots),
     orElseOpt (lastValue "h1" pairs) (snd slots)).
Proof.
  revert slots. induction pairs as [| pair pairs IH]; intros [ts h1];
    [reflexivity |].
  cbn [fold_left]. rewrite IH, !lastValue_cons. unfold assign. cbn [fst snd].
  destruct (lastValue "ts" pairs), (lastValue "h1" pairs),
    (fst pair =? "ts")%string, (fst pair =? "h1")%string; reflexivity.
Qed.

(** One equation for [parsePaddleSignatureHeader] on a header that is
    there: it returns the values the header gives [ts] and [h1] when
    neither is lacking or empty. *)
Lemma parse_header_run (header : string) :
  Js.truthy header = true ->
  parsePaddleSignatureHeader (Some header)
  = match present (headerValue "ts" header),
          present (headerValue "h1" header) with
    | Some ts, Some h1 => Returned {| timestamp := ts; signature := h1 |}
    | _, _ =>
        httpError 401 "PADDLE_SIGNATURE_INVALID"
          "Paddle webhook signature header is malformed" None
    end.
Proof.
  intros Hheader. unfold parsePaddleSignatureHeader. rewrite Hheader. cbn [negb].
  unfold signaturePairs. rewrite fold_readPair, fold_assign.
  fold (headerPairs header). fold (headerValue "ts" header).
  fold (headerValue "h1" header). cbn [fst snd orElseOpt].
  destruct (headerValue "ts" header) as [ts |],
           (headerValue "h1" header) as [h1 |]; cbn [orElseOpt present];
    repeat match goal with
           | |- context [Js.truthy ?x] => destruct (Js.truthy x)
           end;
    reflexivity.
Qed.

(** C4 (amended).  For every raw body, header, secret, tolerance and
    clock, [verifyPaddleSignature] raises exactly the first applicable
    failure of the contract taken in this order: PADDLE_NOT_CONFIGURED
    (503) when no secret is configured; PADDLE_SIGNATURE_MISSING (401)
    when the header is absent or empty; PADDLE_SIGNATURE_INVALID (401)
    when the header gives [ts] or [h1] no value or an empty one (the last
    pair with the key counts); PADDLE_SIGNATURE_EXPIRED (401) when the
    tolerance (default 300 s) and the timestamp parse to finite numbers,
    the tolerance is greater than 0 and |now - ts|, computed on doubles,
    exceeds it; PADDLE_SIGNATURE_INVALID (401) when the hex-decoded [h1]
    differs in length or content from the HMAC-SHA256 of
    [<ts>:<rawBody>]; it returns normally otherwise.  Whatever the
    outcome, the tables, the id generator, the clock and the random
    source are left as they were. *)
Theorem verifyPaddleSignature_first_failure
    (this : LicenseService) (rawBody : string)
    (signatureHeader : option string) (w : World) :
  verdictOf (fst (verifyPaddleSignature this rawBody signatureHeader w))
  = Some (orderedVerdict
            (configService this "PADDLE_WEBHOOK_SECRET") signatureHeader
            (configService this "PADDLE_WEBHOOK_TOLERANCE_SEC")
            rawBody (now w))
  /\ sameState w (snd (verifyPaddleSignature this rawBody signatureHeader w)).
Proof.
  rewrite verify_run. unfold orderedVerdict.
  destruct (present (configService this "PADDLE_WEBHOOK_SECRET")) as [secret |];
    [| split; [reflexivity | apply sameState_refl]].
  destruct signatureHeader as [header |];
    [| split; [reflexivity | apply sameState_refl]].
  destruct (Js.truthy header) eqn:Hheader.
  2:{ unfold parsePaddleSignatureHeader, present. rewrite Hheader.
      split; [reflexivity | apply sameState_refl]. }
  rewrite (parse_header_run header Hheader).
  replace (present (Some header)) with (Some header)
    by (unfold present; rewrite Hheader; reflexivity).
  destruct (present (headerValue "ts" header)) as [ts |];
    [| split; [reflexivity | apply sameState_refl]].
  destruct (present (headerValue "h1" header)) as [h1 |];
    [| split; [reflexivity | apply sameState_refl]].
  cbn [timestamp signature].
  destruct (expired _ _ _); [split; [reflexivity | apply sameState_refl] |].
  cbv zeta. unfold mismatch.
  set (received := Buffer.fromHex h1).
  set (expected := Buffer.fromHex _).
  destruct (List.length received =? 32)%nat eqn:Hlen; cbn [fst snd].
  - split; [| apply sameState_record].
    destruct (bytesEqual received expected); reflexivity.
  - split; [| apply sameState_refl].
    destruct (bytesEqual received expected) eqn:Heq; [| reflexivity].
    apply bytesEqual_length in Heq.
    apply Nat.eqb_neq in Hlen.
    unfold expected in Heq. rewrite expectedBuffer_length in Heq. congruence.
Qed.

(** C4, as listed, fails: a delivery that is both stale and wrongly signed
    is rejected PADDLE_SIGNATURE_EXPIRED, although PADDLE_SIGNATURE_INVALID
    comes first in the listed contract. *)
Lemma verifyPaddleSignature_listed_order_fails :
  let w := emptyWorld 1700000000000 in
  fst (verifyPaddleSignature sampleService "{}" (Some "ts=1;h1=00") w)
  = Threw (HttpError
             (LicenseHttpError.New 401 "PADDLE_SIGNATURE_EXPIRED"
                "Paddle webhook signature timestamp is outside allowed skew"
                (Some [ ("driftSeconds", JNum 1699999999);
                        ("toleranceSeconds", JNum 300) ])))
  /\ listedVerdict
       (configService sampleService "PADDLE_WEBHOOK_SECRET")
       (Some "ts=1;h1=00")
       (configService sampleService "PADDLE_WEBHOOK_TOLERANCE_SEC")
       "{}" (now w)
     = Reject 401 "PADDLE_SIGNATURE_INVALID"
  /\ verdictOf (fst (verifyPaddleSignature sampleService "{}"
                       (Some "ts=1;h1=00") w))
     <> Some (listedVerdict
                (configService sampleService "PADDLE_WEBHOOK_SECRET")
                (Some "ts=1;h1=00")
                (configService sampleService "PADDLE_WEBHOOK_TOLERANCE_SEC")
                "{}" (now w)).
Proof.
  cbv zeta. repeat split; try (vm_compute; reflexivity).
  vm_compute. discriminate.
Qed.

Ltac no_calls :=
  exists []; rewrite app_nil_r;
  split; [reflexivity | split; [cbn [List.length]; lia | intros ? ? []]].

(** C10.  [verifyPaddleSignature] calls [timingSafeEqual] at most once,
    and only on two buffers of equal, nonzero length (32 bytes each); the
    guard before it rejects with PADDLE_SIGNATURE_INVALID every received
    [h1] whose hex decoding is empty or is not as long as the 32-byte
    expected HMAC (an [h1] of fewer than 64 characters, or one that stops
    being hex early, decodes short), without calling [timingSafeEqual];
    so the length-mismatch exception of [timingSafeEqual] is never
    raised. *)
Theorem timingSafeEqual_length_mismatch_unreachable
    (this : LicenseService) (rawBody : string)
    (signatureHeader : option string) (w : World) :
  let run := verifyPaddleSignature this rawBody signatureHeader w in
  fst run <> Threw TimingSafeEqualLength
  /\ (exists calls,
        journal (snd run) = journal w ++ calls
        /\ (List.length calls <= 1)%nat
        /\ forall a b, In (TimingSafeEqual a b) calls ->
             List.length a = List.length b
             /\ List.length a <> 0%nat
             /\ List.length b = 32%nat)
  /\ (forall secret data,
        List.length (Buffer.fromHex (Crypto.createHmacHex secret data)) = 32%nat)
  /\ (forall h1,
        (String.length h1 < 64)%nat ->
        (List.length (Buffer.fromHex h1) < 32)%nat)
  /\ (forall secret p,
        present (configService this "PADDLE_WEBHOOK_SECRET") = Some secret ->
        parsePaddleSignatureHeader signatureHeader = Returned p ->
        expired (configService this "PADDLE_WEBHOOK_TOLERANCE_SEC")
                (timestamp p) (now w) = false ->
        List.length (Buffer.fromHex (signature p)) = 0%nat
        \/ List.length (Buffer.fromHex (signature p))
           <> List.length
                (Buffer.fromHex
                   (Crypto.createHmacHex secret
                      (timestamp p ++ ":" ++ rawBody)%string)) ->
        fst run = Threw signatureInvalid /\ journal (snd run) = journal w).
Proof.
  cbv zeta. rewrite verify_run.
  split; [| split; [| split; [| split]]].
  - destruct (present _); [| discriminate].
    destruct (parsePaddleSignatureHeader signatureHeader) as [p | e] eqn:Hparse.
    + destruct (expired _ _ _); [discriminate |]. cbv zeta.
      destruct (_ =? 32)%nat; cbn [fst]; [| discriminate].
      destruct (bytesEqual _ _); discriminate.
    + cbn [fst]. intros [= ->].
      pose proof (parse_header_throws _ _ Hparse) as H. discriminate H.
  - destruct (present _) as [secret |];
      [| no_calls].
    destruct (parsePaddleSignatureHeader signatureHeader) as [p | e];
      [| no_calls].
    destruct (expired _ _ _);
      [no_calls |].
    cbv zeta.
    destruct (_ =? 32)%nat eqn:Hlen;
      [| no_calls].
    apply Nat.eqb_eq in Hlen.
    exists [TimingSafeEqual
              (Buffer.fromHex (signature p))
              (Buffer.fromHex
                 (Crypto.createHmacHex secret (timestamp p ++ ":" ++ rawBody)%string))].
    split; [reflexivity |]. split; [cbn [List.length]; lia |].
    intros a b [[= <- <-] | []].
    rewrite expectedBuffer_length, Hlen. repeat split; lia.
  - intros; apply expectedBuffer_length.
  - intros h1 Hshort. pose proof (fromHex_length h1). lia.
  - intros secret p -> -> -> Hbad. cbv zeta.
    rewrite expectedBuffer_length in Hbad.
    replace (_ =? 32)%nat with false
      by (symmetry; apply Nat.eqb_neq; lia).
    split; reflexivity.
Qed.

(** ** License validation *)

Lemma nth_first_filter {A} (f : A -> bool) (l : list A) :
  nth_error (firstn 1 (filter f l)) 0 = find f l.
Proof.
  induction l as [| x l IH]; [reflexivity |].
  cbn [filter find]. destruct (f x); [reflexivity | exact IH].
Qed.

Lemma truthy_orElse (o : option string) (d : string) :
  Js.truthy d = true -> Js.truthy (Js.orElse o d) = true.
Proof.
  intros Hd. unfold Js.orElse.
  destruct o as [s |]; [| exact Hd].
  destruct (Js.truthy s) eqn:Hs; [exact Hs | exact Hd].
Qed.

Lemma truthy_false (s : string) : Js.truthy s = false <-> s = "".
Proof. destruct s; cbn; split; congruence. Qed.

(** One equation for the whole of [validateLicenseKey]. *)
Lemma validate_run (rt : Runtime) (this : LicenseService) (key : string)
    (w : World) :
  validateLicenseKey rt this key w =
  let normalizedKey := Js.trim key in
  if negb (Js.truthy normalizedKey) then
    (Returned (invalid 401 "LICENSE_REQUIRED"
                 "License key is required for hosted access" None), w)
  else if negb (Js.startsWith normalizedKey (configuredPrefix this)) then
    (Returned (invalid 401 "LICENSE_INVALID" "Invalid license key format"
                 (Some [ ("expectedPrefix", JStr (configuredPrefix this)) ])), w)
  else
    match db this with
    | None =>
        (Returned (invalid 503 "LICENSE_BACKEND_UNAVAILABLE"
                     "License backend is not available" None), w)
    | Some _ =>
        (Returned
           match find (fun l => (License.key l =? normalizedKey)%string)
                      (licenses w) with
           | None => invalid 401 "LICENSE_INVALID" "Invalid license key" None
           | Some current => judge rt current (now w)
           end,
         snd (record (SelectLicenseByKey normalizedKey) w))
    end.
Proof.
  unfold validateLicenseKey, configuredPrefix. cbv zeta.
  destruct (negb (Js.truthy (Js.trim key))); [reflexivity |].
  rewrite (truthy_orElse _ "AXON-" eq_refl). cbn [andb].
  destruct (negb (Js.startsWith _ _)); [reflexivity |].
  destruct (db this); [| reflexivity].
  unfold bind at 1, selectLicenseByKey. unfold bind at 1.
  rewrite record_run. rewrite nth_first_filter. cbn [licenses snd].
  destruct (find _ (licenses w)) as [current |]; [| reflexivity].
  unfold judge.
  destruct (negb (License.status current =? "active")%string); [reflexivity |].
  unfold bind, Date_now. cbn [now].
  destruct (License.expiresAt current <=? now w); reflexivity.
Qed.

(** C9.  [validateLicenseKey] is read-only: for every key and world it
    returns without throwing, sends the datastore nothing but select
    queries, and leaves both tables (and the rest of the state) exactly
    as they were, whatever result it returns. *)
Theorem validateLicenseKey_read_only
    (rt : Runtime) (this : LicenseService) (key : string) (w : World) :
  let run := validateLicenseKey rt this key w in
  (exists result, fst run = Returned result)
  /\ licenses (snd run) = licenses w
  /\ processedEvents (snd run) = processedEvents w
  /\ sameState w (snd run)
  /\ exists queries,
       journal (snd run) = journal w ++ queries
       /\ forallb isSelect queries = true.
Proof.
  cbv zeta. rewrite validate_run. cbv zeta.
  assert (Hidle : forall r : LicenseValidationResult.t,
             (exists result, fst (Returned r, w) = Returned result)
             /\ licenses (snd (Returned r, w)) = licenses w
             /\ processedEvents (snd (Returned r, w)) = processedEvents w
             /\ sameState w (snd (Returned r, w))
             /\ exists queries,
                  journal (snd (Returned r, w)) = journal w ++ queries
                  /\ forallb isSelect queries = true).
  { intros r. cbn [fst snd].
    split; [exists r; reflexivity |].
    split; [reflexivity |]. split; [reflexivity |].
    split; [apply sameState_refl |].
    exists []; rewrite app_nil_r; split; reflexivity. }
  destruct (negb (Js.truthy (Js.trim key))); [apply Hidle |].
  destruct (negb (Js.startsWith _ _)); [apply Hidle |].
  destruct (db this); [| apply Hidle].
  cbn [fst snd]. rewrite record_run. cbn [snd licenses processedEvents journal].
  split; [eexists; reflexivity |].
  split; [reflexivity |]. split; [reflexivity |].
  split; [repeat split |].
  exists [SelectLicenseByKey (Js.trim key)]; split; reflexivity.
Qed.

(** C7 (amended).  For every key whose trimmed form is not empty and does
    not start with the configured prefix (default AXON-),
    [validateLicenseKey] returns LICENSE_INVALID with statusCode 401 and
    the expected prefix in the details, whatever the datastore holds and
    whether or not it is reachable; no query is sent. *)
Theorem validateLicenseKey_wrong_prefix
    (rt : Runtime) (this : LicenseService) (key : string) (w : World) :
  Js.trim key <> "" ->
  Js.startsWith (Js.trim key) (configuredPrefix this) = false ->
  validateLicenseKey rt this key w
  = (Returned
       (LicenseValidationResult.Make false 401 "Invalid license key format"
          "LICENSE_INVALID"
          (Some [ ("expectedPrefix", JStr (configuredPrefix this)) ])
          None),
     w).
Proof.
  intros Hne Hprefix. rewrite validate_run. cbv zeta.
  destruct (Js.truthy (Js.trim key)) eqn:Ht.
  - cbn [negb]. rewrite Hprefix. reflexivity.
  - apply truthy_false in Ht. contradiction.
Qed.

Lemma validateLicenseKey_wrong_prefix_witness :
  Js.trim " BAD-KEY " <> ""
  /\ Js.startsWith (Js.trim " BAD-KEY ") (configuredPrefix sampleService) = false
  /\ validateLicenseKey sampleRuntime sampleService " BAD-KEY "
       (worldWith [buildLicense "active" 1800000000000] 1700000000000)
     = (Returned
          (LicenseValidationResult.Make false 401 "Invalid license key format"
             "LICENSE_INVALID" (Some [ ("expectedPrefix", JStr "AXON-") ]) None),
        worldWith [buildLicense "active" 1800000000000] 1700000000000).
Proof.
  split; [discriminate |]. split; [reflexivity |].
  apply (validateLicenseKey_wrong_prefix sampleRuntime sampleService " BAD-KEY ");
    [discriminate | reflexivity].
Defined.

(** C7, as stated, fails: the empty key does not start with the prefix and
    is answered LICENSE_REQUIRED, not LICENSE_INVALID. *)
Lemma validateLicenseKey_empty_key_not_invalid :
  Js.startsWith (Js.trim "") (configuredPrefix sampleService) = false
  /\ fst (validateLicenseKey sampleRuntime sampleService "" (emptyWorld 0))
     = Returned
         (LicenseValidationResult.Make false 401
            "License key is required for hosted access" "LICENSE_REQUIRED"
            None None)
  /\ forall result,
       fst (validateLicenseKey sampleRuntime sampleService "" (emptyWorld 0))
       = Returned result ->
       LicenseValidationResult.code result <> "LICENSE_INVALID".
Proof.
  split; [reflexivity |]. split; [reflexivity |].
  intros result [= <-]. discriminate.
Qed.

(** C2.  For every license row found by exact match on the trimmed key,
    the status is checked before the expiry: a status other than "active"
    gives LICENSE_BLOCKED with statusCode 403 and the actual status in the
    details, whatever [expiresAt] is; LICENSE_EXPIRED, with statusCode
    402, is returned exactly when the status is "active" and
    [expiresAt <= now]. *)
Theorem validateLicenseKey_blocked_before_expired
    (rt : Runtime) (this : LicenseService) (key : string) (w : World)
    (current : License.t) :
  Js.trim key <> "" ->
  Js.startsWith (Js.trim key) (configuredPrefix this) = true ->
  db this = Some Connection ->
  find (fun l => (License.key l =? Js.trim key)%string) (licenses w)
    = Some current ->
  exists result,
    fst (validateLicenseKey rt this key w) = Returned result
    /\ (License.status current <> "active" ->
        result = LicenseValidationResult.Make false 403 "License is not active"
                   "LICENSE_BLOCKED"
                   (Some [ ("status", JStr (License.status current)) ]) None)
    /\ (License.status current = "active" ->
        License.expiresAt current <= now w ->
        LicenseValidationResult.valid result = false
        /\ LicenseValidationResult.statusCode result = 402
        /\ LicenseValidationResult.code result = "LICENSE_EXPIRED")
    /\ (LicenseValidationResult.code result = "LICENSE_EXPIRED" ->
        License.status current = "active"
        /\ License.expiresAt current <= now w).
Proof.
  intros Hne Hprefix Hdb Hfind. rewrite validate_run. cbv zeta.
  destruct (Js.truthy (Js.trim key)) eqn:Ht;
    [| apply truthy_false in Ht; contradiction].
  cbn [negb]. rewrite Hprefix, Hdb, Hfind. cbn [negb fst].
  eexists; split; [reflexivity |]. unfold judge.
  destruct (License.status current =? "active")%string eqn:Hst; cbn [negb].
  - apply String.eqb_eq in Hst.
    destruct (License.expiresAt current <=? now w) eqn:Hexp.
    + apply Z.leb_le in Hexp.
      split; [congruence |]. split; [intros _ _; repeat split |].
      intros _; split; assumption.
    + apply Z.leb_gt in Hexp.
      split; [congruence |]. split; [intros _ ?; lia |].
      cbn. discriminate.
  - apply String.eqb_neq in Hst.
    split; [reflexivity |]. split; [contradiction |].
    cbn. discriminate.
Qed.

Lemma validateLicenseKey_blocked_before_expired_witness :
  let w := worldWith [buildLicense "revoked" 1699999940000] 1700000000000 in
  Js.trim "AXON-VALID-KEY" <> ""
  /\ Js.startsWith (Js.trim "AXON-VALID-KEY") (configuredPrefix sampleService) = true
  /\ db sampleService = Some Connection
  /\ find (fun l => (License.key l =? Js.trim "AXON-VALID-KEY")%string) (licenses w)
     = Some (buildLicense "revoked" 1699999940000)
  /\ License.expiresAt (buildLicense "revoked" 1699999940000) <= now w
  /\ exists result,
       fst (validateLicenseKey sampleRuntime sampleService "AXON-VALID-KEY" w)
       = Returned result
       /\ LicenseValidationResult.code result = "LICENSE_BLOCKED"
       /\ LicenseValidationResult.statusCode result = 403.
Proof.
  cbv zeta.
  split; [discriminate |]. split; [reflexivity |]. split; [reflexivity |].
  split; [reflexivity |]. split; [cbn; lia |].
  destruct (validateLicenseKey_blocked_before_expired sampleRuntime sampleService
              "AXON-VALID-KEY"
              (worldWith [buildLicense "revoked" 1699999940000] 1700000000000)
              (buildLicense "revoked" 1699999940000))
    as (result & Hrun & Hblocked & _);
    [discriminate | reflexivity | reflexivity | reflexivity |].
  exists result. split; [exact Hrun |].
  rewrite Hblocked; [split; reflexivity | discriminate].
Defined.

(** ** Enforcement gate *)

(** [trim] is idempotent: the gate trims the header and the validator
    trims again. *)
Lemma trimStart_noLeadingSpace (s : string) : noLeadingSpace (Js.trimStart s).
Proof.
  induction s as [| c r IH]; [exact I |].
  cbn [Js.trimStart]. destruct (Js.isWhiteSpace c) eqn:Hc; [exact IH | exact Hc].
Qed.

Lemma trimStart_fixed (s : string) : noLeadingSpace s -> Js.trimStart s = s.
Proof. destruct s as [| c r]; cbn; [reflexivity | intros ->; reflexivity]. Qed.

Lemma trimEnd_noLeadingSpace (s : string) :
  noLeadingSpace s -> noLeadingSpace (Js.trimEnd s).
Proof.
  destruct s as [| c r]; [intros _; exact I |].
  cbn [noLeadingSpace Js.trimEnd]. intros Hc.
  destruct (Js.trimEnd r); [rewrite Hc |]; exact Hc.
Qed.

Lemma trimEnd_idempotent (s : string) : Js.trimEnd (Js.trimEnd s) = Js.trimEnd s.
Proof.
  induction s as [| c r IH]; [reflexivity |].
  cbn [Js.trimEnd].
  destruct (Js.trimEnd r) as [| c' r'] eqn:Hr.
  - destruct (Js.isWhiteSpace c) eqn:Hc; [reflexivity |].
    cbn [Js.trimEnd]. rewrite Hc. reflexivity.
  - cbn [Js.trimEnd] in *. rewrite IH. reflexivity.
Qed.

Lemma trim_idempotent (s : string) : Js.trim (Js.trim s) = Js.trim s.
Proof.
  unfold Js.trim.
  rewrite (trimStart_fixed (Js.trimEnd (Js.trimStart s))).
  - apply trimEnd_idempotent.
  - apply trimEnd_noLeadingSpace, trimStart_noLeadingSpace.
Qed.

Lemma validate_returns (rt : Runtime) (this : LicenseService) (key : string)
    (w : World) :
  exists result,
    validateLicenseKey rt this key w
    = (Returned result, snd (validateLicenseKey rt this key w)).
Proof.
  rewrite validate_run. cbv zeta.
  destruct (negb (Js.truthy (Js.trim key))); [eexists; reflexivity |].
  destruct (negb (Js.startsWith _ _)); [eexists; reflexivity |].
  destruct (db this); eexists; reflexivity.
Qed.

(** A successful validation carries the row that was looked up. *)
Lemma validate_valid_license (rt : Runtime) (this : LicenseService)
    (key : string) (w : World) (result : LicenseValidationResult.t) :
  fst (validateLicenseKey rt this key w) = Returned result ->
  LicenseValidationResult.valid result = true ->
  exists current,
    LicenseValidationResult.license result = Some current
    /\ find (fun l => (License.key l =? Js.trim key)%string) (licenses w)
       = Some current
    /\ License.status current = "active"
    /\ now w < License.expiresAt current.
Proof.
  rewrite validate_run. cbv zeta.
  destruct (negb (Js.truthy (Js.trim key))); [intros [= <-]; discriminate |].
  destruct (negb (Js.startsWith _ _)); [intros [= <-]; discriminate |].
  destruct (db this); [| intros [= <-]; discriminate].
  cbn [fst].
  destruct (find _ (licenses w)) as [current |]; [| intros [= <-]; discriminate].
  unfold judge.
  destruct (License.status current =? "active")%string eqn:Hst; cbn [negb];
    [| intros [= <-]; discriminate].
  destruct (License.expiresAt current <=? now w) eqn:Hexp;
    [intros [= <-]; discriminate |].
  intros [= <-] _. exists current.
  apply String.eqb_eq in Hst. apply Z.leb_gt in Hexp. auto.
Qed.

(** C8.  For every request: with enforcement disabled the gate calls
    [next()] at once, without validating and without touching the
    request; otherwise it reads the [x-license-key] header (the first
    value when there are several), trims it, answers 401 LICENSE_REQUIRED
    when nothing is left, answers with exactly the validator's
    statusCode, message, code and details when validation fails, and on
    success stores the validator's license on the request and calls
    [next()].  With the real service the stored license is the row found
    for that key. *)
Theorem use_enforcement_gate
    {S : Type} `{LicenseGate S} (licenseService : S)
    (req : LicensedRequest.t) (w : World) :
  let licenseKey :=
    Js.trim (readHeaderValue (LicensedRequest.headers req "x-license-key")) in
  (gate_isEnforced licenseService = false ->
   use licenseService req w = (Returned (req, Next), w))
  /\ (gate_isEnforced licenseService = true ->
      licenseKey = "" ->
      use licenseService req w
      = (Returned (req, Respond 401
                          (Denial.Make 401
                             "License key is required for hosted access"
                             "LICENSE_REQUIRED" None)), w))
  /\ (forall result w',
        gate_isEnforced licenseService = true ->
        licenseKey <> "" ->
        gate_validateLicenseKey licenseService licenseKey w
          = (Returned result, w') ->
        LicenseValidationResult.valid result = false ->
        use licenseService req w
        = (Returned (req,
                     Respond (LicenseValidationResult.statusCode result)
                       (Denial.Make
                          (LicenseValidationResult.statusCode result)
                          (LicenseValidationResult.message result)
                          (LicenseValidationResult.code result)
                          (LicenseValidationResult.details result))), w'))
  /\ (forall result w',
        gate_isEnforced licenseService = true ->
        licenseKey <> "" ->
        gate_validateLicenseKey licenseService licenseKey w
          = (Returned result, w') ->
        LicenseValidationResult.valid result = true ->
        use licenseService req w
        = (Returned (LicensedRequest.Make (LicensedRequest.headers req)
                       (LicenseValidationResult.license result), Next), w'))
  /\ (forall first rest, readHeaderValue (HeaderMany (first :: rest)) = first)
  /\ (forall value, readHeaderValue (HeaderOne value) = value)
  /\ readHeaderValue HeaderAbsent = ""
  /\ readHeaderValue (HeaderMany []) = "".
Proof.
  cbv zeta. unfold use.
  set (licenseKey :=
         Js.trim (readHeaderValue (LicensedRequest.headers req "x-license-key"))).
  split; [intros ->; reflexivity |].
  split.
  { intros -> Hempty. rewrite Hempty. reflexivity. }
  split.
  { intros result w' -> Hne Hrun Hvalid. cbn [negb].
    destruct (Js.truthy licenseKey) eqn:Ht;
      [| apply truthy_false in Ht; contradiction].
    cbn [negb]. unfold bind. rewrite Hrun, Hvalid. reflexivity. }
  split.
  { intros result w' -> Hne Hrun Hvalid. cbn [negb].
    destruct (Js.truthy licenseKey) eqn:Ht;
      [| apply truthy_false in Ht; contradiction].
    cbn [negb]. unfold bind. rewrite Hrun, Hvalid. reflexivity. }
  repeat split.
Qed.

(** C8, for the service of this repository: a request that passes the
    gate carries the active, unexpired row stored under its key. *)
Lemma use_attaches_resolved_license
    (rt : Runtime) (this : LicenseService) (req req' : LicensedRequest.t)
    (w w' : World) :
  isEnforced this = true ->
  use (H := serviceGate rt) this req w = (Returned (req', Next), w') ->
  exists current,
    LicensedRequest.license req' = Some current
    /\ find (fun l =>
               (License.key l
                =? Js.trim (readHeaderValue
                              (LicensedRequest.headers req "x-license-key")))%string)
            (licenses w) = Some current
    /\ License.status current = "active"
    /\ now w < License.expiresAt current.
Proof.
  intros Henf. unfold use. cbn [gate_isEnforced gate_validateLicenseKey serviceGate].
  rewrite Henf. cbn [negb].
  set (licenseKey :=
         Js.trim (readHeaderValue (LicensedRequest.headers req "x-license-key"))).
  destruct (Js.truthy licenseKey) eqn:Ht; cbn [negb]; [| discriminate].
  unfold bind.
  destruct (validate_returns rt this licenseKey w) as [result Hrun].
  rewrite Hrun.
  destruct (LicenseValidationResult.valid result) eqn:Hvalid; cbn [negb];
    [| discriminate].
  intros [= <- _].
  assert (Hfst : fst (validateLicenseKey rt this licenseKey w) = Returned result)
    by (rewrite Hrun; reflexivity).
  destruct (validate_valid_license rt this licenseKey w result Hfst Hvalid)
    as (current & Hlic & Hfind & Hst & Hexp).
  exists current. cbn [LicensedRequest.license].
  assert (Hidem : Js.trim licenseKey = licenseKey) by apply trim_idempotent.
  rewrite Hidem in Hfind. auto.
Qed.

(** ** Datastore queries and key generation, step by step *)

Lemma insertProcessedEvent_run (e src : string) (w : World) :
  insertProcessedEvent e src w =
  if eventClaimed w e
  then (Returned [], logged (InsertProcessedEvent e false) w)
  else (Returned [nextId w],
        logged (InsertProcessedEvent e true)
          (bumpId (setProcessedEvents
                     (processedEvents w
                        ++ [ProcessedEvent.Row (nextId w) e src (now w)]) w))).
Proof.
  unfold insertProcessedEvent, eventClaimed.
  destruct (existsb _ (processedEvents w)); reflexivity.
Qed.

Lemma deleteProcessedEvent_run (e : string) (w : World) :
  deleteProcessedEvent e w =
  (Returned tt,
   setProcessedEvents
     (filter (fun r => negb (ProcessedEvent.eventId r =? e)%string)
             (processedEvents w))
     (logged (DeleteProcessedEvent e) w)).
Proof. reflexivity. Qed.

Lemma selectLicenseBySubscription_run (rt : Runtime) (s : string) (w : World) :
  selectLicenseBySubscription rt s w =
  if admitsSubscription rt s w then
    (Returned (firstn 1 (filter (fun l => optEqb (License.paddleSubscriptionId l) s)
                                (licenses w))),
     logged (SelectLicenseBySubscription s) w)
  else (Threw valueRefused, logged (SelectLicenseBySubscription s) w).
Proof.
  unfold selectLicenseBySubscription, bind, record, admitsSubscription.
  cbn [licenses]. destruct (Pg_text rt s || existsb _ (licenses w)); reflexivity.
Qed.

Lemma updateLicenseById_run (rt : Runtime) (i : N) (c : LicenseChange)
    (w : World) :
  updateLicenseById rt i c w =
  if admitsChange rt c then
    (Returned tt,
     setLicenses (map (fun l => if (License.id l =? i)%N then applyChange c l else l)
                      (licenses w))
       (logged (UpdateLicenseById i) w))
  else (Threw valueRefused, logged (UpdateLicenseById i) w).
Proof.
  unfold updateLicenseById, bind. rewrite record_run.
  destruct (admitsChange rt c); reflexivity.
Qed.

Lemma updateStatusBySubscription_run (rt : Runtime) (s st : string) (t : Z)
    (w : World) :
  updateStatusBySubscription rt s st t w =
  if admitsSubscription rt s w then
    (Returned tt,
     setLicenses (map (fun l => if optEqb (License.paddleSubscriptionId l) s
                                then setStatus st t l else l)
                      (licenses w))
       (logged (UpdateLicenseBySubscription s) w))
  else (Threw valueRefused, logged (UpdateLicenseBySubscription s) w).
Proof.
  unfold updateStatusBySubscription, bind, record, admitsSubscription.
  cbn [licenses]. destruct (Pg_text rt s || existsb _ (licenses w)); reflexivity.
Qed.

Lemma insertLicense_run (rt : Runtime) (v : NewLicense) (w : World) :
  insertLicense rt v w =
  if negb (admitsLicense rt v)
  then (Threw valueRefused, logged (InsertLicense (new_key v) false) w)
  else if keyTaken w (new_key v)
  then (Returned [], logged (InsertLicense (new_key v) false) w)
  else if subscriptionSeen w (new_paddleSubscriptionId v)
  then (Threw (DatastoreError "licenses_paddle_subscription_id_unique"),
        logged (InsertLicense (new_key v) false) w)
  else (Returned [nextId w],
        logged (InsertLicense (new_key v) true)
          (bumpId (setLicenses
                     (licenses w
                        ++ [License.Row (nextId w) (new_key v) (new_email v)
                              (new_status v) (new_plan v) (new_maxDevices v)
                              (Some (new_paddleSubscriptionId v))
                              (new_expiresAt v) (now w) (now w)]) w))).
Proof.
  unfold insertLicense, keyTaken, subscriptionSeen.
  destruct (negb (admitsLicense rt v)); [reflexivity |].
  destruct (existsb _ (licenses w)); [reflexivity |].
  destruct (existsb _ (licenses w)); reflexivity.
Qed.

Lemma segment_run (w : World) :
  segment w = (Returned (segmentAt (entropy w) (consumed w)), drawn 2 w).
Proof.
  unfold segment, bind, randomBytes, ret, segmentAt, drawn.
  cbn [seq map]. rewrite Nat.add_0_r. reflexivity.
Qed.

Lemma buildLicenseKey_run (prefix : string) (w : World) :
  buildLicenseKey prefix w
  = (Returned (keyAt prefix (entropy w) (consumed w)), drawn 8 w).
Proof.
  unfold buildLicenseKey, bind. cbv zeta.
  rewrite segment_run. rewrite segment_run. rewrite segment_run.
  rewrite segment_run.
  unfold ret, keyAt, drawn. cbn [entropy consumed licenses processedEvents nextId now journal].
  repeat (f_equal; try lia).
Qed.

(** One turn of the insert loop. *)
Lemma insertWithFreshKey_step (rt : Runtime) (n : nat) (prefix : string)
    (email : option string) (status plan : string) (maxDevices : Z)
    (sub : string) (expiresAt : Z) (w : World) :
  subscriptionSeen w sub = false ->
  let key := keyAt prefix (entropy w) (consumed w) in
  insertWithFreshKey rt (S n) prefix email status plan maxDevices sub expiresAt w
  = if negb (admitsLicense rt
               {| new_key := key; new_email := email; new_status := status;
                  new_plan := plan; new_maxDevices := maxDevices;
                  new_paddleSubscriptionId := sub; new_expiresAt := expiresAt |})
    then (Threw valueRefused, logged (InsertLicense key false) (drawn 8 w))
    else if keyTaken w key
    then insertWithFreshKey rt n prefix email status plan maxDevices sub expiresAt
           (logged (InsertLicense key false) (drawn 8 w))
    else (Returned tt,
          logged (InsertLicense key true)
            (bumpId
               (setLicenses
                  (licenses w
                     ++ [License.Row (nextId w) key email status
                           plan maxDevices (Some sub) expiresAt (now w) (now w)])
                  (drawn 8 w)))).
Proof.
  intros Hsub. cbv zeta. cbn [insertWithFreshKey]. unfold bind at 1.
  rewrite buildLicenseKey_run. unfold bind at 1. rewrite insertLicense_run.
  cbn [new_key new_paddleSubscriptionId new_email new_status new_plan
       new_maxDevices new_expiresAt].
  change (keyTaken (drawn 8 w)) with (keyTaken w).
  change (subscriptionSeen (drawn 8 w)) with (subscriptionSeen w).
  rewrite Hsub.
  destruct (negb (admitsLicense rt _)); [reflexivity |].
  destruct (keyTaken w (keyAt prefix (entropy w) (consumed w))); reflexivity.
Qed.

(** The insert loop: the candidates are offered in order.  The loop ends
    at the first candidate that the datastore does not take (with the
    datastore's error) or that no stored license uses (which is
    inserted); it gives up after [n] candidates that are all in use. *)
Lemma insertWithFreshKey_run (rt : Runtime) (n : nat) (prefix : string)
    (email : option string) (status plan : string) (maxDevices : Z)
    (sub : string) (expiresAt : Z) (w : World) :
  subscriptionSeen w sub = false ->
  let candidate := fun i : nat =>
    keyAt prefix (entropy w) (consumed w + 8 * i) in
  let admitted := fun i : nat =>
    admitsLicense rt
      {| new_key := candidate i; new_email := email; new_status := status;
         new_plan := plan; new_maxDevices := maxDevices;
         new_paddleSubscriptionId := sub; new_expiresAt := expiresAt |} in
  let run := insertWithFreshKey rt n prefix email status plan maxDevices sub
               expiresAt w in
  (exists i,
     (i < n)%nat
     /\ (forall j, (j < i)%nat ->
           admitted j = true /\ keyTaken w (candidate j) = true)
     /\ admitted i = true
     /\ keyTaken w (candidate i) = false
     /\ fst run = Returned tt
     /\ licenses (snd run)
        = licenses w
            ++ [License.Row (nextId w) (candidate i) email status plan
                  maxDevices (Some sub) expiresAt (now w) (now w)]
     /\ processedEvents (snd run) = processedEvents w
     /\ now (snd run) = now w
     /\ journal (snd run)
        = journal w
            ++ map (fun j => InsertLicense (candidate j) false) (seq 0 i)
            ++ [InsertLicense (candidate i) true])
  \/ (exists i,
        (i < n)%nat
        /\ (forall j, (j < i)%nat ->
              admitted j = true /\ keyTaken w (candidate j) = true)
        /\ admitted i = false
        /\ fst run = Threw valueRefused
        /\ licenses (snd run) = licenses w
        /\ processedEvents (snd run) = processedEvents w
        /\ now (snd run) = now w
        /\ journal (snd run)
           = journal w
               ++ map (fun j => InsertLicense (candidate j) false) (seq 0 (S i)))
  \/ ((forall j, (j < n)%nat ->
         admitted j = true /\ keyTaken w (candidate j) = true)
      /\ fst run = Threw keyGenerationFailed
      /\ licenses (snd run) = licenses w
      /\ processedEvents (snd run) = processedEvents w
      /\ now (snd run) = now w
      /\ journal (snd run)
         = journal w ++ map (fun j => InsertLicense (candidate j) false) (seq 0 n)).
Proof.
  revert w. induction n as [| n IH]; intros w Hsub; cbv zeta.
  - right. right. cbn [insertWithFreshKey fst snd seq map].
    rewrite app_nil_r. split; [intros j Hj; lia |].
    split; [reflexivity |]. split; [reflexivity |]. split; [reflexivity |].
    split; reflexivity.
  - rewrite (insertWithFreshKey_step rt n prefix email status plan maxDevices sub
               expiresAt w Hsub). cbv zeta.
    set (k0 := keyAt prefix (entropy w) (consumed w)).
    assert (Hk0 : keyAt prefix (entropy w) (consumed w + 8 * 0) = k0)
      by (unfold k0; f_equal; lia).
    destruct (admitsLicense rt _) eqn:Hadmitted; cbn [negb].
    2:{ (* refused: the datastore's error *)
        right. left. exists 0%nat. cbn [fst snd seq map]. rewrite Hk0.
        split; [lia |]. split; [intros j Hj; lia |].
        split; [exact Hadmitted |]. split; [reflexivity |].
        split; [reflexivity |]. split; [reflexivity |].
        split; reflexivity. }
    destruct (keyTaken w k0) eqn:Htaken.
    + (* collision: on to the next candidate *)
      set (w' := logged (InsertLicense k0 false) (drawn 8 w)).
      specialize (IH w' Hsub). cbv zeta in IH.
      assert (Hshift : forall i,
                 keyAt prefix (entropy w') (consumed w' + 8 * i)
                 = keyAt prefix (entropy w) (consumed w + 8 * S i)).
      { intros i. unfold w'. cbn [entropy consumed logged drawn].
        f_equal. lia. }
      change (keyTaken w') with (keyTaken w) in IH.
      change (licenses w') with (licenses w) in IH.
      change (processedEvents w') with (processedEvents w) in IH.
      change (nextId w') with (nextId w) in IH.
      change (now w') with (now w) in IH.
      change (journal w') with (journal w ++ [InsertLicense k0 false]) in IH.
      assert (Hearlier : forall i,
                 (forall j, (j < i)%nat ->
                    admitsLicense rt
                      {| new_key := keyAt prefix (entropy w') (consumed w' + 8 * j);
                         new_email := email; new_status := status;
                         new_plan := plan; new_maxDevices := maxDevices;
                         new_paddleSubscriptionId := sub;
                         new_expiresAt := expiresAt |} = true
                    /\ keyTaken w (keyAt prefix (entropy w') (consumed w' + 8 * j))
                       = true) ->
                 forall j, (j < S i)%nat ->
                   admitsLicense rt
                     {| new_key := keyAt prefix (entropy w) (consumed w + 8 * j);
                        new_email := email; new_status := status;
                        new_plan := plan; new_maxDevices := maxDevices;
                        new_paddleSubscriptionId := sub;
                        new_expiresAt := expiresAt |} = true
                   /\ keyTaken w (keyAt prefix (entropy w) (consumed w + 8 * j))
                      = true).
      { intros i Hbefore j Hlt. destruct j as [| j].
        - rewrite Hk0. split; [exact Hadmitted | exact Htaken].
        - rewrite <- Hshift. apply Hbefore. lia. }
      assert (Hjournal : forall i,
                 (journal w ++ [InsertLicense k0 false])
                   ++ map (fun j => InsertLicense
                                      (keyAt prefix (entropy w')
                                         (consumed w' + 8 * j)) false)
                          (seq 0 i)
                 = journal w
                     ++ map (fun j => InsertLicense
                                        (keyAt prefix (entropy w)
                                           (consumed w + 8 * j)) false)
                            (seq 0 (S i))).
      { intros i. cbn [seq map]. rewrite Hk0. rewrite <- app_assoc. cbn [app].
        rewrite <- seq_shift, map_map.
        do 2 f_equal. apply map_ext. intros a. rewrite Hshift. reflexivity. }
      destruct IH as [(i & Hi & Hbefore & Hadm & Hfree & Hret & Hlic & Hev & Hnow & Hj)
                     | [(i & Hi & Hbefore & Hadm & Hret & Hlic & Hev & Hnow & Hj)
                       | (Hall & Hret & Hlic & Hev & Hnow & Hj)]].
      * left. exists (S i). rewrite Hshift in Hadm, Hfree, Hlic, Hj.
        split; [lia |]. split; [apply Hearlier, Hbefore |].
        split; [exact Hadm |]. split; [exact Hfree |]. split; [exact Hret |].
        split; [exact Hlic |]. split; [exact Hev |]. split; [exact Hnow |].
        rewrite Hj, app_assoc, Hjournal, <- app_assoc. reflexivity.
      * right. left. exists (S i). rewrite Hshift in Hadm.
        split; [lia |]. split; [apply Hearlier, Hbefore |].
        split; [exact Hadm |]. split; [exact Hret |].
        split; [exact Hlic |]. split; [exact Hev |]. split; [exact Hnow |].
        rewrite Hj. apply Hjournal.
      * right. right. split; [apply Hearlier, Hall |].
        split; [exact Hret |]. split; [exact Hlic |]. split; [exact Hev |].
        split; [exact Hnow |]. rewrite Hj. apply Hjournal.
    + (* free key: inserted *)
      left. exists 0%nat. rewrite Hk0. cbn [fst snd].
      split; [lia |]. split; [intros j Hj; lia |].
      split; [exact Hadmitted |]. split; [exact Htaken |].
      split; [reflexivity |]. repeat split.
Qed.

(** ** Shape of generated keys *)

Lemma prefix_append (p s : string) : String.prefix p (p ++ s)%string = true.
Proof.
  induction p as [| c p IH]; [destruct s; reflexivity |].
  cbn. destruct (ascii_dec c c); [exact IH | contradiction].
Qed.

Lemma append_assoc (a b c : string) :
  ((a ++ b) ++ c)%string = (a ++ (b ++ c))%string.
Proof. induction a as [| x a IH]; cbn; [reflexivity | rewrite IH; reflexivity]. Qed.

Lemma startsWith_normalized (p rest : string) :
  Js.startsWith (normalizePrefix p ++ rest)%string p = true.
Proof.
  unfold Js.startsWith, normalizePrefix.
  destruct (Js.endsWith p "-").
  - apply prefix_append.
  - rewrite append_assoc. apply prefix_append.
Qed.

Lemma keyAt_startsWith (prefix : string) (source : nat -> Z) (pos : nat) :
  Js.startsWith (keyAt prefix source pos) prefix = true.
Proof. unfold keyAt. apply startsWith_normalized. Qed.

Lemma upper_hexDigit (n : Z) :
  0 <= n < 16 -> isUpperHex (Js.upperChar (Buffer.hexDigit n)) = true.
Proof.
  intros Hn. rewrite <- (Z2Nat.id n) by lia.
  assert (Hk : (Z.to_nat n < 16)%nat) by lia.
  revert Hk. generalize (Z.to_nat n) as k. intros k Hk.
  do 16 (destruct k as [| k]; [reflexivity |]). lia.
Qed.

Lemma segmentAt_hexGroup (source : nat -> Z) (pos : nat) :
  isHexGroup (segmentAt source pos) = true.
Proof.
  unfold segmentAt. cbn [Buffer.toHex Js.toUpperCase isHexGroup].
  assert (Hhi : forall b, 0 <= (b mod 256) / 16 < 16).
  { intros b. pose proof (Z.mod_pos_bound b 256 ltac:(lia)).
    split; [apply Z.div_pos; lia | apply Z.div_lt_upper_bound; lia]. }
  assert (Hlo : forall b, 0 <= (b mod 256) mod 16 < 16)
    by (intros b; apply Z.mod_pos_bound; lia).
  rewrite !upper_hexDigit by auto. reflexivity.
Qed.

(** Every key that [buildLicenseKey] can return: the prefix, made to end
    with a dash, then four groups of four upper-case hex digits joined by
    dashes. *)
Lemma keyAt_shape (prefix : string) (source : nat -> Z) (pos : nat) :
  Js.startsWith (keyAt prefix source pos) prefix = true
  /\ exists g1 g2 g3 g4,
       keyAt prefix source pos
       = (normalizePrefix prefix ++ g1 ++ "-" ++ g2 ++ "-" ++ g3 ++ "-" ++ g4)%string
       /\ isHexGroup g1 = true /\ isHexGroup g2 = true
       /\ isHexGroup g3 = true /\ isHexGroup g4 = true.
Proof.
  split; [apply keyAt_startsWith |].
  exists (segmentAt source pos), (segmentAt source (pos + 2)),
         (segmentAt source (pos + 4)), (segmentAt source (pos + 6)).
  split; [reflexivity |]. repeat split; apply segmentAt_hexGroup.
Qed.

(** ** Activation *)

Lemma extractExpiryDate_run (rt : Runtime) (data : UnknownRecord) (w : World) :
  extractExpiryDate rt data w = (Returned (expiryOf rt data (now w)), w).
Proof.
  unfold extractExpiryDate, expiryOf.
  destruct (firstDate rt _); reflexivity.
Qed.

Lemma find_none_existsb {A} (f : A -> bool) (l : list A) :
  find f l = None <-> existsb f l = false.
Proof.
  induction l as [| x l IH]; cbn; [tauto |].
  destruct (f x); cbn; [split; discriminate | exact IH].
Qed.

Lemma admitsSubscription_stored (rt : Runtime) (s : string) (w : World)
    (existing : License.t) :
  find (fun l => optEqb (License.paddleSubscriptionId l) s) (licenses w)
    = Some existing ->
  admitsSubscription rt s w = true.
Proof.
  intros Hfind. unfold admitsSubscription.
  destruct (existsb _ (licenses w)) eqn:Hseen; [apply orb_true_r |].
  apply find_none_existsb in Hseen. congruence.
Qed.

Lemma admitsSubscription_unseen (rt : Runtime) (s : string) (w : World) :
  find (fun l => optEqb (License.paddleSubscriptionId l) s) (licenses w) = None ->
  admitsSubscription rt s w = Pg_text rt s.
Proof.
  intros Hfind. unfold admitsSubscription.
  apply find_none_existsb in Hfind. rewrite Hfind. apply orb_false_r.
Qed.

(** One equation for [upsertActiveLicense] when the datastore is there
    and the payload names a subscription. *)
Lemma upsert_run (rt : Runtime) (this : LicenseService) (data : UnknownRecord)
    (w : World) (sub : string) :
  db this = Some Connection ->
  present (extractSubscriptionId data) = Some sub ->
  upsertActiveLicense rt this data w =
  match find (fun l => optEqb (License.paddleSubscriptionId l) sub) (licenses w) with
  | Some existing =>
      if admitsChange rt (refresh rt data w existing) then
        (Returned tt,
         setLicenses
           (map (fun l => if (License.id l =? License.id existing)%N
                          then applyChange (refresh rt data w existing) l else l)
                (licenses w))
           (logged (UpdateLicenseById (License.id existing))
                   (logged (SelectLicenseBySubscription sub) w)))
      else
        (Threw valueRefused,
         logged (UpdateLicenseById (License.id existing))
                (logged (SelectLicenseBySubscription sub) w))
  | None =>
      if Pg_text rt sub then
        insertWithFreshKey rt maxAttempts (configuredPrefix this)
          (extractEmail data) (payloadStatus data) (resolvePlan data)
          (deriveMaxDevices (resolvePlan data)) sub (expiryOf rt data (now w))
          (logged (SelectLicenseBySubscription sub) w)
      else (Threw valueRefused, logged (SelectLicenseBySubscription sub) w)
  end.
Proof.
  intros Hdb Hsub. unfold upsertActiveLicense. rewrite Hdb, Hsub.
  unfold bind at 1. rewrite extractExpiryDate_run.
  unfold bind at 1. rewrite selectLicenseBySubscription_run.
  destruct (find _ (licenses w)) as [existing |] eqn:Hfind.
  - rewrite (admitsSubscription_stored rt sub w existing Hfind).
    rewrite nth_first_filter, Hfind.
    unfold bind, Date_now. rewrite updateLicenseById_run.
    change (admitsChange rt _) with (admitsChange rt (refresh rt data w existing)).
    destruct (admitsChange rt (refresh rt data w existing)); reflexivity.
  - rewrite (admitsSubscription_unseen rt sub w Hfind).
    destruct (Pg_text rt sub); [| reflexivity].
    rewrite nth_first_filter, Hfind. reflexivity.
Qed.

Lemma upsert_without_subscription (rt : Runtime) (this : LicenseService)
    (data : UnknownRecord) (w : World) :
  db this = Some Connection ->
  present (extractSubscriptionId data) = None ->
  upsertActiveLicense rt this data w = (Threw subscriptionIdMissing, w).
Proof.
  intros Hdb Hsub. unfold upsertActiveLicense. rewrite Hdb, Hsub. reflexivity.
Qed.

Lemma insertAttempts_app (a b : list Effect) :
  insertAttempts (a ++ b) = insertAttempts a ++ insertAttempts b.
Proof. unfold insertAttempts. apply flat_map_app. Qed.

Lemma insertAttempts_failed (candidate : nat -> string) (l : list nat) :
  insertAttempts (map (fun j => InsertLicense (candidate j) false) l)
  = map (fun j => (candidate j, false)) l.
Proof. induction l as [| x l IH]; cbn; [reflexivity | rewrite <- IH; reflexivity]. Qed.

(** C6 (amended).  When an activating payload names a subscription id
    that no stored license carries, [upsertActiveLicense] either ends
    with the datastore's error at the lookup of the id, when the
    datastore does not take the id, before any insert; or it draws keys
    made of the configured prefix (default AXON-) and four random
    two-byte hex groups and offers each for insertion with
    do-nothing-on-key-conflict, at most 5 times.  The attempts end at the
    first key that no stored license uses, which is inserted with the
    payload's fields, and the call returns; or, before that, at the first
    row that the datastore does not take, with the datastore's error and
    nothing inserted; only when all 5 keys are in use does the call raise
    LICENSE_KEY_GENERATION_FAILED (500), leaving the table as it was.
    So when the datastore takes the rows offered, the call returns
    exactly when one of the 5 keys is free, and raises
    LICENSE_KEY_GENERATION_FAILED exactly when all 5 collide.  Every
    generated key starts with the configured prefix. *)
Theorem upsertActiveLicense_generates_unique_key
    (rt : Runtime) (this : LicenseService) (data : UnknownRecord)
    (w : World) (sub : string) :
  db this = Some Connection ->
  present (extractSubscriptionId data) = Some sub ->
  subscriptionSeen w sub = false ->
  let prefix := configuredPrefix this in
  let candidate := fun i : nat => keyAt prefix (entropy w) (consumed w + 8 * i) in
  let admitted := fun i : nat =>
    admitsLicense rt (offered rt data w (candidate i) sub) in
  let run := upsertActiveLicense rt this data w in
  (configService this "LICENSE_KEY_PREFIX" = None -> prefix = "AXON-")
  /\ (forall i,
        Js.startsWith (candidate i) prefix = true
        /\ exists g1 g2 g3 g4,
             candidate i
             = (normalizePrefix prefix
                  ++ g1 ++ "-" ++ g2 ++ "-" ++ g3 ++ "-" ++ g4)%string
             /\ isHexGroup g1 = true /\ isHexGroup g2 = true
             /\ isHexGroup g3 = true /\ isHexGroup g4 = true)
  /\ ((Pg_text rt sub = false
       /\ fst run = Threw valueRefused
       /\ licenses (snd run) = licenses w
       /\ insertAttempts (journal (snd run)) = insertAttempts (journal w))
      \/ (Pg_text rt sub = true
          /\ ((exists i,
                 (i < 5)%nat
                 /\ (forall j, (j < i)%nat ->
                       admitted j = true /\ keyTaken w (candidate j) = true)
                 /\ admitted i = true
                 /\ keyTaken w (candidate i) = false
                 /\ fst run = Returned tt
                 /\ licenses (snd run)
                    = licenses w ++ [createdRow rt data w (candidate i) sub]
                 /\ insertAttempts (journal (snd run))
                    = insertAttempts (journal w)
                        ++ map (fun j => (candidate j, false)) (seq 0 i)
                        ++ [(candidate i, true)])
              \/ (exists i,
                    (i < 5)%nat
                    /\ (forall j, (j < i)%nat ->
                          admitted j = true /\ keyTaken w (candidate j) = true)
                    /\ admitted i = false
                    /\ fst run = Threw valueRefused
                    /\ licenses (snd run) = licenses w
                    /\ insertAttempts (journal (snd run))
                       = insertAttempts (journal w)
                           ++ map (fun j => (candidate j, false)) (seq 0 (S i)))
              \/ ((forall j, (j < 5)%nat ->
                     admitted j = true /\ keyTaken w (candidate j) = true)
                  /\ fst run = Threw keyGenerationFailed
                  /\ licenses (snd run) = licenses w
                  /\ insertAttempts (journal (snd run))
                     = insertAttempts (journal w)
                         ++ map (fun j => (candidate j, false)) (seq 0 5)))))
  /\ ((forall i, (i < 5)%nat -> admitted i = true) ->
      (fst run = Returned tt
       <-> exists i, (i < 5)%nat /\ keyTaken w (candidate i) = false)
      /\ (fst run = Threw keyGenerationFailed
          <-> forall i, (i < 5)%nat -> keyTaken w (candidate i) = true)).
Proof.
  intros Hdb Hsub Hunseen. cbv zeta.
  split; [unfold configuredPrefix; intros ->; reflexivity |].
  split; [intros i; apply keyAt_shape |].
  rewrite (upsert_run rt this data w sub Hdb Hsub).
  assert (Hnone : find (fun l => optEqb (License.paddleSubscriptionId l) sub)
                       (licenses w) = None)
    by (apply find_none_existsb; exact Hunseen).
  rewrite Hnone.
  destruct (Pg_text rt sub) eqn:Htext.
  2:{ split.
      - left. cbn [fst snd licenses journal logged].
        rewrite insertAttempts_app. cbn [insertAttempts flat_map].
        rewrite app_nil_r. repeat split; reflexivity.
      - intros Hadmitted. pose proof (Hadmitted 0%nat ltac:(lia)) as Hfirst.
        unfold admitsLicense, offered in Hfirst.
        cbn [new_paddleSubscriptionId] in Hfirst.
        apply andb_true_iff in Hfirst as [Hfirst _].
        apply andb_true_iff in Hfirst as [_ Hfirst]. congruence. }
  set (w1 := logged (SelectLicenseBySubscription sub) w).
  pose proof (insertWithFreshKey_run rt maxAttempts (configuredPrefix this)
                (extractEmail data) (payloadStatus data) (resolvePlan data)
                (deriveMaxDevices (resolvePlan data)) sub
                (expiryOf rt data (now w)) w1 Hunseen) as Hrun.
  cbv zeta in Hrun.
  change (entropy w1) with (entropy w) in Hrun.
  change (consumed w1) with (consumed w) in Hrun.
  change (keyTaken w1) with (keyTaken w) in Hrun.
  change (licenses w1) with (licenses w) in Hrun.
  change (nextId w1) with (nextId w) in Hrun.
  change (now w1) with (now w) in Hrun.
  set (run := insertWithFreshKey rt maxAttempts (configuredPrefix this)
                (extractEmail data) (payloadStatus data) (resolvePlan data)
                (deriveMaxDevices (resolvePlan data)) sub
                (expiryOf rt data (now w)) w1) in *.
  set (candidate := fun i : nat =>
         keyAt (configuredPrefix this) (entropy w) (consumed w + 8 * i)) in *.
  assert (Hattempts : forall l tail,
             journal (snd run)
             = journal w1 ++ map (fun j => InsertLicense (candidate j) false) l
                 ++ tail ->
             insertAttempts (journal (snd run))
             = insertAttempts (journal w)
                 ++ map (fun j => (candidate j, false)) l
                 ++ insertAttempts tail).
  { intros l tail ->. unfold w1. cbn [journal logged].
    rewrite !insertAttempts_app, insertAttempts_failed.
    cbn [insertAttempts flat_map app]. rewrite app_nil_r. reflexivity. }
  split.
  - right. split; [reflexivity |].
    destruct Hrun as [(i & Hi & Hbefore & Hadm & Hfree & Hret & Hlic & _ & _ & Hj)
                     | [(i & Hi & Hbefore & Hadm & Hret & Hlic & _ & _ & Hj)
                       | (Hall & Hret & Hlic & _ & _ & Hj)]].
    + left. exists i. split; [exact Hi |]. split; [exact Hbefore |].
      split; [exact Hadm |]. split; [exact Hfree |]. split; [exact Hret |].
      split; [exact Hlic |].
      rewrite (Hattempts _ _ Hj). reflexivity.
    + right. left. exists i. split; [exact Hi |]. split; [exact Hbefore |].
      split; [exact Hadm |]. split; [exact Hret |]. split; [exact Hlic |].
      rewrite <- (app_nil_r (map _ (seq 0 (S i)))) in Hj.
      rewrite (Hattempts _ _ Hj). cbn [insertAttempts flat_map].
      rewrite app_nil_r. reflexivity.
    + right. right. split; [exact Hall |]. split; [exact Hret |].
      split; [exact Hlic |].
      rewrite <- (app_nil_r (map _ (seq 0 maxAttempts))) in Hj.
      rewrite (Hattempts _ _ Hj). cbn [insertAttempts flat_map].
      rewrite app_nil_r. reflexivity.
  - intros Hadmitted.
    destruct Hrun as [(i & Hi & Hbefore & _ & Hfree & Hret & _)
                     | [(i & Hi & _ & Hadm & _)
                       | (Hall & Hret & _)]].
    + split; split.
      * intros _. exists i. split; assumption.
      * intros _. exact Hret.
      * rewrite Hret. discriminate.
      * intros Htaken. pose proof (Htaken i Hi) as Ht.
        change (keyTaken w (candidate i) = true) in Ht.
        change (keyTaken w (candidate i) = false) in Hfree. congruence.
    + pose proof (Hadmitted i Hi) as Hyes.
      change (admitsLicense rt (offered rt data w (candidate i) sub) = true) in Hyes.
      change (admitsLicense rt (offered rt data w (candidate i) sub) = false) in Hadm.
      congruence.
    + split; split.
      * rewrite Hret. discriminate.
      * intros (i & Hi & Hfree). destruct (Hall i Hi) as [_ Htaken].
        change (keyTaken w (candidate i) = true) in Htaken.
        change (keyTaken w (candidate i) = false) in Hfree. congruence.
      * intros _ i Hi. apply (Hall i Hi).
      * intros _. exact Hret.
Qed.

Lemma upsertActiveLicense_generates_unique_key_witness :
  let data := [ ("id", JStr "sub1") ] in
  db sampleService = Some Connection
  /\ present (extractSubscriptionId data) = Some "sub1"
  /\ subscriptionSeen collidingWorld "sub1" = false
  /\ keyTaken collidingWorld "AXON-0001-0203-0405-0607" = true
  /\ fst (upsertActiveLicense sampleRuntime sampleService data collidingWorld)
     = Returned tt
  /\ map License.key
       (licenses (snd (upsertActiveLicense sampleRuntime sampleService data
                         collidingWorld)))
     = [ "AXON-0001-0203-0405-0607"; "AXON-0809-0A0B-0C0D-0E0F" ].
Proof.
  cbv zeta.
  split; [reflexivity |]. split; [reflexivity |]. split; [reflexivity |].
  split; [reflexivity |].
  destruct (upsertActiveLicense_generates_unique_key sampleRuntime sampleService
              [ ("id", JStr "sub1") ] collidingWorld "sub1"
              eq_refl eq_refl eq_refl)
    as (_ & _ & [(Htext & _)
                | (_ & [(i & Hi & Hbefore & _ & Hfree & Hret & Hlic & _)
                       | [(i & Hi & Hbefore & Hadm & _)
                         | (Hall & _)]])] & _).
  - vm_compute in Htext. discriminate Htext.
  - split; [exact Hret |].
    destruct i as [| [| i]].
    + vm_compute in Hfree. discriminate Hfree.
    + rewrite Hlic. reflexivity.
    + destruct (Hbefore 1%nat ltac:(lia)) as [_ Htaken]. vm_compute in Htaken.
      discriminate Htaken.
  - exfalso. destruct i as [| [| i]].
    + vm_compute in Hadm. discriminate Hadm.
    + vm_compute in Hadm. discriminate Hadm.
    + destruct (Hbefore 1%nat ltac:(lia)) as [_ Htaken]. vm_compute in Htaken.
      discriminate Htaken.
  - destruct (Hall 1%nat ltac:(lia)) as [_ Htaken]. vm_compute in Htaken.
    discriminate Htaken.
Defined.

(** C6, as stated, fails: with a configured prefix of 46 characters the
    first key is free, yet its insert does not succeed: the key has 65
    characters, the datastore does not take it for its [varchar(64)]
    column, and the call ends with the datastore's error, neither
    creating a license nor raising LICENSE_KEY_GENERATION_FAILED. *)
Lemma upsertActiveLicense_long_prefix_refused :
  let data := [ ("id", JStr "sub1") ] in
  let w := emptyWorld 1700000000000 in
  let key := keyAt (configuredPrefix longPrefixService) (entropy w) (consumed w) in
  let run := upsertActiveLicense sampleRuntime longPrefixService data w in
  String.length (configuredPrefix longPrefixService) = 46%nat
  /\ String.length key = 65%nat
  /\ keyTaken w key = false
  /\ fst run = Threw valueRefused
  /\ fst run <> Returned tt
  /\ fst run <> Threw keyGenerationFailed
  /\ licenses (snd run) = []
  /\ insertAttempts (journal (snd run)) = [ (key, false) ].
Proof.
  cbv zeta. split; [reflexivity |]. split; [reflexivity |].
  split; [reflexivity |]. split; [vm_compute; reflexivity |].
  split; [vm_compute; discriminate |]. split; [vm_compute; discriminate |].
  split; vm_compute; reflexivity.
Qed.

(** ** Journals and frames *)

Lemma applications_app (a b : list Effect) :
  applications (a ++ b) = (applications a + applications b)%nat.
Proof. unfold applications. rewrite filter_app, length_app. reflexivity. Qed.

Lemma quietly_refl (w : World) : quietly w w.
Proof. exists []; rewrite app_nil_r; split; reflexivity. Qed.

Lemma quietly_trans (w1 w2 w3 : World) :
  quietly w1 w2 -> quietly w2 w3 -> quietly w1 w3.
Proof.
  intros (a & Ha & Hna) (b & Hb & Hnb). exists (a ++ b).
  rewrite Hb, Ha, app_assoc, applications_app, Hna, Hnb. split; reflexivity.
Qed.

Lemma quietly_applications (w w' : World) :
  quietly w w' -> applications (journal w') = applications (journal w).
Proof. intros (a & -> & Ha). rewrite applications_app, Ha. lia. Qed.

Lemma ledgerKept_refl (w : World) : ledgerKept w w.
Proof. repeat split. apply quietly_refl. Qed.

Lemma ledgerKept_trans (w1 w2 w3 : World) :
  ledgerKept w1 w2 -> ledgerKept w2 w3 -> ledgerKept w1 w3.
Proof.
  intros (He1 & Hn1 & Hq1) (He2 & Hn2 & Hq2).
  repeat split; try congruence. eapply quietly_trans; eassumption.
Qed.

Lemma applications_failed (candidate : nat -> string) (l : list nat) :
  applications (map (fun j => InsertLicense (candidate j) false) l) = 0%nat.
Proof. induction l as [| x l IH]; [reflexivity | exact IH]. Qed.

Lemma verify_quietly (this : LicenseService) (rawBody : string)
    (signatureHeader : option string) (w : World) :
  sameState w (snd (verifyPaddleSignature this rawBody signatureHeader w))
  /\ quietly w (snd (verifyPaddleSignature this rawBody signatureHeader w)).
Proof.
  rewrite verify_run.
  destruct (present _); [| split; [apply sameState_refl | apply quietly_refl]].
  destruct (parsePaddleSignatureHeader signatureHeader);
    [| split; [apply sameState_refl | apply quietly_refl]].
  destruct (expired _ _ _); [split; [apply sameState_refl | apply quietly_refl] |].
  cbv zeta.
  destruct (_ =? 32)%nat; [| split; [apply sameState_refl | apply quietly_refl]].
  cbn [snd]. split; [apply sameState_record |].
  eexists; split; [reflexivity | reflexivity].
Qed.

Lemma upsert_ledgerKept (rt : Runtime) (this : LicenseService)
    (data : UnknownRecord) (w : World) :
  ledgerKept w (snd (upsertActiveLicense rt this data w)).
Proof.
  destruct (db this) as [[] |] eqn:Hdb;
    [| unfold upsertActiveLicense; rewrite Hdb; apply ledgerKept_refl].
  destruct (present (extractSubscriptionId data)) as [sub |] eqn:Hsub;
    [| rewrite (upsert_without_subscription rt this data w Hdb Hsub);
       apply ledgerKept_refl].
  rewrite (upsert_run rt this data w sub Hdb Hsub).
  destruct (find _ (licenses w)) as [existing |] eqn:Hfind.
  - assert (Hquiet : quietly w
                       (logged (UpdateLicenseById (License.id existing))
                          (logged (SelectLicenseBySubscription sub) w))).
    { exists [SelectLicenseBySubscription sub;
              UpdateLicenseById (License.id existing)].
      cbn [journal logged]. rewrite <- app_assoc. split; reflexivity. }
    destruct (admitsChange rt _); cbn [snd];
      (split; [reflexivity |]; split; [reflexivity | exact Hquiet]).
  - apply find_none_existsb in Hfind.
    destruct (Pg_text rt sub).
    2:{ cbn [snd]. split; [reflexivity |]. split; [reflexivity |].
        exists [SelectLicenseBySubscription sub]. split; reflexivity. }
    set (w1 := logged (SelectLicenseBySubscription sub) w).
    assert (Hquiet : forall l tail w2,
               journal w2
               = journal w1
                   ++ map (fun j => InsertLicense
                                      (keyAt (configuredPrefix this) (entropy w1)
                                         (consumed w1 + 8 * j)) false) l
                   ++ tail ->
               applications tail = 0%nat ->
               quietly w w2).
    { intros l tail w2 Hj Htail. eexists. split.
      - rewrite Hj. unfold w1 at 1. cbn [journal logged].
        rewrite <- app_assoc. reflexivity.
      - rewrite !applications_app, applications_failed, Htail. reflexivity. }
    destruct (insertWithFreshKey_run rt maxAttempts (configuredPrefix this)
                (extractEmail data) (payloadStatus data) (resolvePlan data)
                (deriveMaxDevices (resolvePlan data)) sub
                (expiryOf rt data (now w)) w1 Hfind)
      as [(i & _ & _ & _ & _ & _ & _ & Hev & Hnow & Hj)
         | [(i & _ & _ & _ & _ & _ & Hev & Hnow & Hj)
           | (_ & _ & _ & Hev & Hnow & Hj)]].
    + split; [exact Hev |]. split; [exact Hnow |].
      apply (Hquiet _ _ _ Hj). reflexivity.
    + split; [exact Hev |]. split; [exact Hnow |].
      rewrite <- (app_nil_r (map _ (seq 0 (S i)))) in Hj.
      apply (Hquiet _ _ _ Hj). reflexivity.
    + split; [exact Hev |]. split; [exact Hnow |].
      rewrite <- (app_nil_r (map _ (seq 0 maxAttempts))) in Hj.
      apply (Hquiet _ _ _ Hj). reflexivity.
Qed.

(** ** Deactivation and the lifecycle *)

Lemma deactivate_run (rt : Runtime) (this : LicenseService)
    (data : UnknownRecord) (eventType : string) (w : World) :
  db this = Some Connection ->
  deactivateLicense rt this data eventType w =
  match present (extractSubscriptionId data) with
  | None => (Returned tt, w)
  | Some sub =>
      if admitsSubscription rt sub w then
        (Returned tt,
         setLicenses
           (map (fun l => if optEqb (License.paddleSubscriptionId l) sub
                          then setStatus (mapDeactivationStatus eventType) (now w) l
                          else l)
                (licenses w))
           (logged (UpdateLicenseBySubscription sub) w))
      else (Threw valueRefused, logged (UpdateLicenseBySubscription sub) w)
  end.
Proof.
  intros Hdb. unfold deactivateLicense. rewrite Hdb.
  destruct (present (extractSubscriptionId data)) as [sub |]; [| reflexivity].
  cbv zeta. unfold bind, Date_now. rewrite updateStatusBySubscription_run.
  reflexivity.
Qed.

Lemma deactivate_ledgerKept (rt : Runtime) (this : LicenseService)
    (data : UnknownRecord) (eventType : string) (w : World) :
  ledgerKept w (snd (deactivateLicense rt this data eventType w)).
Proof.
  destruct (db this) as [[] |] eqn:Hdb;
    [| unfold deactivateLicense; rewrite Hdb; apply ledgerKept_refl].
  rewrite (deactivate_run rt this data eventType w Hdb).
  destruct (present (extractSubscriptionId data)) as [sub |];
    [| apply ledgerKept_refl].
  destruct (admitsSubscription rt sub w); cbn [snd];
    (split; [reflexivity |]; split; [reflexivity |]);
    exists [UpdateLicenseBySubscription sub]; split; reflexivity.
Qed.

(** One equation for [applyPaddleLifecycle]. *)
Lemma apply_run (rt : Runtime) (this : LicenseService)
    (payload : PaddleWebhookPayload.t) (w : World) :
  applyPaddleLifecycle rt this payload w =
  let eventType := PaddleWebhookPayload.eventType payload in
  let data := PaddleWebhookPayload.data payload in
  let w0 := logged (Applying (PaddleWebhookPayload.eventId payload)) w in
  if has PADDLE_ACTIVATING_EVENTS eventType then
    match upsertActiveLicense rt this data w0 with
    | (Returned _, w1) => (Returned (activationAction eventType), w1)
    | (Threw e, w1) => (Threw e, w1)
    end
  else if has PADDLE_DEACTIVATING_EVENTS eventType then
    match deactivateLicense rt this data eventType w0 with
    | (Returned _, w1) => (Returned deactivated, w1)
    | (Threw e, w1) => (Threw e, w1)
    end
  else (Returned ignored, w0).
Proof.
  unfold applyPaddleLifecycle. cbv zeta. unfold bind at 1. rewrite record_run.
  fold (logged (Applying (PaddleWebhookPayload.eventId payload)) w).
  destruct (has PADDLE_ACTIVATING_EVENTS _).
  - unfold bind. destruct (upsertActiveLicense _ _ _ _) as [[[] | e] w1]; reflexivity.
  - destruct (has PADDLE_DEACTIVATING_EVENTS _); [| reflexivity].
    unfold bind. destruct (deactivateLicense _ _ _ _) as [[[] | e] w1]; reflexivity.
Qed.

(** A lifecycle application keeps the ledger and journals itself once. *)
Lemma apply_frame (rt : Runtime) (this : LicenseService)
    (payload : PaddleWebhookPayload.t) (w : World) :
  processedEvents (snd (applyPaddleLifecycle rt this payload w))
    = processedEvents w
  /\ now (snd (applyPaddleLifecycle rt this payload w)) = now w
  /\ applications (journal (snd (applyPaddleLifecycle rt this payload w)))
     = S (applications (journal w)).
Proof.
  rewrite apply_run. cbv zeta.
  set (w0 := logged (Applying (PaddleWebhookPayload.eventId payload)) w).
  assert (H0 : applications (journal w0) = S (applications (journal w))).
  { unfold w0. cbn [journal logged]. rewrite applications_app. cbn. lia. }
  assert (Hkept : forall w1, ledgerKept w0 w1 ->
            processedEvents w1 = processedEvents w /\ now w1 = now w
            /\ applications (journal w1) = S (applications (journal w))).
  { intros w1 (Hev & Hnow & Hq). split; [exact Hev |]. split; [exact Hnow |].
    rewrite (quietly_applications _ _ Hq). exact H0. }
  destruct (has PADDLE_ACTIVATING_EVENTS _).
  - pose proof (upsert_ledgerKept rt this (PaddleWebhookPayload.data payload) w0) as Hk.
    destruct (upsertActiveLicense _ _ _ _) as [[[] | e] w1]; apply Hkept, Hk.
  - destruct (has PADDLE_DEACTIVATING_EVENTS _);
      [| apply Hkept, ledgerKept_refl].
    pose proof (deactivate_ledgerKept rt this (PaddleWebhookPayload.data payload)
                  (PaddleWebhookPayload.eventType payload) w0) as Hk.
    destruct (deactivateLicense _ _ _ _) as [[[] | e] w1]; apply Hkept, Hk.
Qed.

(** C5 (amended).  With the datastore in place, for every parsed payload:
    an activating event type yields exactly what the upsert yields -- the
    action "activated" when the type is "subscription.created" and
    "updated" for every other activating type when the upsert completes,
    and the upsert's error, with no action, when it fails.  The upsert
    fails with PADDLE_SUBSCRIPTION_ID_MISSING (400), changing nothing,
    when the payload has no resolvable subscription id, and with the
    datastore's error, changing no license, when the datastore does not
    take the id; when a license already carries the subscription id it
    completes if the datastore takes the new values, and fails with the
    datastore's error, changing no license, if it does not.  A
    deactivating event type yields what the deactivation yields:
    "deactivated" when it completes, its error otherwise.  With no
    resolvable subscription id nothing is changed and no error is raised;
    with an id that the datastore takes, every license matching the id
    gets status mapDeactivationStatus(eventType) and updatedAt = now, and
    the action is "deactivated"; with an id that the datastore does not
    take, the datastore's error is raised and no license is changed.
    Every other event type yields "ignored" and changes nothing. *)
Theorem applyPaddleLifecycle_actions
    (rt : Runtime) (this : LicenseService)
    (payload : PaddleWebhookPayload.t) (w : World) :
  db this = Some Connection ->
  let eventType := PaddleWebhookPayload.eventType payload in
  let data := PaddleWebhookPayload.data payload in
  let entered := logged (Applying (PaddleWebhookPayload.eventId payload)) w in
  let run := applyPaddleLifecycle rt this payload w in
  (has PADDLE_ACTIVATING_EVENTS eventType = true ->
   fst run
   = match fst (upsertActiveLicense rt this data entered) with
     | Returned _ =>
         Returned (if (eventType =? "subscription.created")%string
                   then activated else updated)
     | Threw e => Threw e
     end
   /\ snd run = snd (upsertActiveLicense rt this data entered)
   /\ (present (extractSubscriptionId data) = None ->
       run = (Threw subscriptionIdMissing, entered))
   /\ (forall sub existing,
         present (extractSubscriptionId data) = Some sub ->
         find (fun l => optEqb (License.paddleSubscriptionId l) sub) (licenses w)
           = Some existing ->
         if admitsChange rt (refresh rt data w existing)
         then fst run = Returned (if (eventType =? "subscription.created")%string
                                  then activated else updated)
         else fst run = Threw valueRefused /\ licenses (snd run) = licenses w)
   /\ (forall sub,
         present (extractSubscriptionId data) = Some sub ->
         admitsSubscription rt sub w = false ->
         fst run = Threw valueRefused /\ licenses (snd run) = licenses w))
  /\ (has PADDLE_ACTIVATING_EVENTS eventType = false ->
      has PADDLE_DEACTIVATING_EVENTS eventType = true ->
      fst run
      = match fst (deactivateLicense rt this data eventType entered) with
        | Returned _ => Returned deactivated
        | Threw e => Threw e
        end
      /\ (present (extractSubscriptionId data) = None ->
          run = (Returned deactivated, entered))
      /\ (forall sub,
            present (extractSubscriptionId data) = Some sub ->
            if admitsSubscription rt sub w
            then fst run = Returned deactivated
                 /\ licenses (snd run)
                    = map (fun l =>
                             if optEqb (License.paddleSubscriptionId l) sub
                             then setStatus (mapDeactivationStatus eventType)
                                    (now w) l
                             else l)
                          (licenses w)
            else fst run = Threw valueRefused
                 /\ licenses (snd run) = licenses w))
  /\ (has PADDLE_ACTIVATING_EVENTS eventType = false ->
      has PADDLE_DEACTIVATING_EVENTS eventType = false ->
      run = (Returned ignored, entered)).
Proof.
  intros Hdb. cbv zeta. rewrite apply_run. cbv zeta.
  set (w0 := logged (Applying (PaddleWebhookPayload.eventId payload)) w).
  split; [| split].
  - intros ->. split; [| split; [| split; [| split]]].
    + unfold activationAction.
      destruct (upsertActiveLicense _ _ _ _) as [[[] | e] w1]; reflexivity.
    + destruct (upsertActiveLicense _ _ _ _) as [[[] | e] w1]; reflexivity.
    + intros Hnone.
      rewrite (upsert_without_subscription rt this _ w0 Hdb Hnone). reflexivity.
    + intros sub existing Hsub Hfind.
      rewrite (upsert_run rt this _ w0 sub Hdb Hsub).
      change (licenses w0) with (licenses w). rewrite Hfind.
      change (refresh rt (PaddleWebhookPayload.data payload) w0 existing)
        with (refresh rt (PaddleWebhookPayload.data payload) w existing).
      destruct (admitsChange rt _); [reflexivity |]. split; reflexivity.
    + intros sub Hsub Hrefused.
      rewrite (upsert_run rt this _ w0 sub Hdb Hsub).
      change (licenses w0) with (licenses w).
      destruct (find _ (licenses w)) as [existing |] eqn:Hfind.
      * rewrite (admitsSubscription_stored rt sub w existing Hfind) in Hrefused.
        discriminate Hrefused.
      * rewrite (admitsSubscription_unseen rt sub w Hfind) in Hrefused.
        rewrite Hrefused. split; reflexivity.
  - intros -> ->. split; [| split].
    + destruct (deactivateLicense _ _ _ _ _) as [[[] | e] w1]; reflexivity.
    + intros Hnone. rewrite (deactivate_run rt this _ _ w0 Hdb), Hnone. reflexivity.
    + intros sub Hsub. rewrite (deactivate_run rt this _ _ w0 Hdb), Hsub.
      change (admitsSubscription rt sub w0) with (admitsSubscription rt sub w).
      destruct (admitsSubscription rt sub w); split; reflexivity.
  - intros -> ->. reflexivity.
Qed.

Lemma applyPaddleLifecycle_actions_witness :
  let payload :=
    PaddleWebhookPayload.Make "evt1" "subscription.created" [ ("id", JStr "sub1") ] in
  db sampleService = Some Connection
  /\ has PADDLE_ACTIVATING_EVENTS "subscription.created" = true
  /\ fst (applyPaddleLifecycle sampleRuntime sampleService payload
            (emptyWorld 1700000000000))
     = Returned activated.
Proof.
  cbv zeta. split; [reflexivity |]. split; [reflexivity |].
  destruct (applyPaddleLifecycle_actions sampleRuntime sampleService
              (PaddleWebhookPayload.Make "evt1" "subscription.created"
                 [ ("id", JStr "sub1") ])
              (emptyWorld 1700000000000) eq_refl)
    as [Hact _].
  destruct (Hact eq_refl) as [Heq _].
  rewrite Heq. reflexivity.
Defined.

(** C5, as stated, fails: an activating event whose payload carries no
    subscription id yields no action; it fails with
    PADDLE_SUBSCRIPTION_ID_MISSING. *)
Lemma applyPaddleLifecycle_activating_without_action :
  let payload := PaddleWebhookPayload.Make "evt2" "subscription.updated" [] in
  has PADDLE_ACTIVATING_EVENTS (PaddleWebhookPayload.eventType payload) = true
  /\ fst (applyPaddleLifecycle sampleRuntime sampleService payload
            (emptyWorld 1700000000000))
     = Threw subscriptionIdMissing
  /\ fst (applyPaddleLifecycle sampleRuntime sampleService payload
            (emptyWorld 1700000000000))
     <> Returned updated.
Proof.
  cbv zeta. split; [reflexivity |]. split; [reflexivity | discriminate].
Qed.

(** Values that the datastore refuses, on the sample runtime.  An expiry
    in the year 10000 makes the insert of a new license fail, and the
    update of an existing one; a subscription id that holds U+0000 makes
    the lookup fail, and the deactivating update.  Each time the
    datastore's error propagates and no license is changed. *)
Example refused_values_propagate :
  let late :=
    [ ("id", JStr "sub1"); ("next_billed_at", JNum 253402300800000) ] in
  let renewal :=
    [ ("id", JStr "sub0"); ("next_billed_at", JNum 253402300800000) ] in
  let canceled :=
    PaddleWebhookPayload.Make "evt3" "subscription.canceled"
      [ ("id", JStr unstorableId) ] in
  upsertActiveLicense sampleRuntime sampleService late (emptyWorld 1700000000000)
  = (Threw valueRefused,
     MkWorld [] [] 1 1700000000000 (fun i => Z.of_nat i) 8
       [ SelectLicenseBySubscription "sub1";
         InsertLicense "AXON-0001-0203-0405-0607" false ])
  /\ fst (upsertActiveLicense sampleRuntime sampleService renewal collidingWorld)
     = Threw valueRefused
  /\ licenses (snd (upsertActiveLicense sampleRuntime sampleService renewal
                      collidingWorld))
     = licenses collidingWorld
  /\ fst (upsertActiveLicense sampleRuntime sampleService
            [ ("id", JStr unstorableId) ] collidingWorld)
     = Threw valueRefused
  /\ fst (applyPaddleLifecycle sampleRuntime sampleService canceled collidingWorld)
     = Threw valueRefused
  /\ licenses (snd (applyPaddleLifecycle sampleRuntime sampleService canceled
                      collidingWorld))
     = licenses collidingWorld.
Proof. cbv zeta. repeat split; vm_compute; reflexivity. Qed.

(** ** Webhook processing *)

(** One equation for [processPaddleWebhook]. *)
Lemma process_run (rt : Runtime) (this : LicenseService) (rawBody : string)
    (signatureHeader : option string) (w : World) :
  processPaddleWebhook rt this rawBody signatureHeader w =
  match verifyPaddleSignature this rawBody signatureHeader w with
  | (Threw e, w0) => (Threw e, w0)
  | (Returned _, w0) =>
      match parsePaddlePayload rt rawBody with
      | Threw e => (Threw e, w0)
      | Returned payload =>
          let eventId := PaddleWebhookPayload.eventId payload in
          let eventType := PaddleWebhookPayload.eventType payload in
          match db this with
          | None =>
              (Threw (HttpError
                        (LicenseHttpError.New 503 "LICENSE_BACKEND_UNAVAILABLE"
                           "License backend is not available" None)), w0)
          | Some _ =>
              if eventClaimed w0 eventId then
                (Returned (PaddleWebhookResult.Make true eventId eventType duplicate),
                 logged (InsertProcessedEvent eventId false) w0)
              else
                match applyPaddleLifecycle rt this payload
                        (snd (insertProcessedEvent eventId "paddle" w0)) with
                | (Returned action, w2) =>
                    (Returned (PaddleWebhookResult.Make true eventId eventType action),
                     w2)
                | (Threw e, w2) =>
                    (Threw e, snd (deleteProcessedEvent eventId w2))
                end
          end
      end
  end.
Proof.
  unfold processPaddleWebhook. unfold bind at 1.
  destruct (verifyPaddleSignature this rawBody signatureHeader w) as [[[] | e] w0];
    [| reflexivity].
  unfold bind at 1, lift.
  destruct (parsePaddlePayload rt rawBody) as [payload | e]; [| reflexivity].
  cbv zeta. destruct (db this); [| reflexivity].
  unfold bind at 1. rewrite insertProcessedEvent_run.
  destruct (eventClaimed w0 _); [reflexivity |].
  cbn [List.length Nat.eqb snd]. unfold tryCatch, bind at 1.
  destruct (applyPaddleLifecycle rt this payload _) as [[action | e] w2];
    reflexivity.
Qed.

Lemma eventClaimed_after_delete (e : string) (w : World) :
  eventClaimed (snd (deleteProcessedEvent e w)) e = false.
Proof.
  rewrite deleteProcessedEvent_run. unfold eventClaimed.
  cbn [snd processedEvents setProcessedEvents logged].
  induction (processedEvents w) as [| r l IH]; [reflexivity |].
  cbn [filter]. destruct (ProcessedEvent.eventId r =? e)%string eqn:Hr; cbn [negb].
  - exact IH.
  - cbn [existsb]. rewrite Hr. exact IH.
Qed.

Lemma filter_unclaimed (e : string) (l : list ProcessedEvent.t) :
  existsb (fun r => (ProcessedEvent.eventId r =? e)%string) l = false ->
  filter (fun r => negb (ProcessedEvent.eventId r =? e)%string) l = l.
Proof.
  induction l as [| r l IH]; [reflexivity |].
  cbn [existsb filter]. intros H. apply orb_false_iff in H as [Hr Hl].
  rewrite Hr. cbn [negb]. rewrite IH by exact Hl. reflexivity.
Qed.

(** C3.  With the signature verified, the payload parsed and the
    datastore in place: when the reservation insert succeeds and applying
    the lifecycle throws, [processPaddleWebhook] deletes the ledger row of
    that event id and throws the very same error; and after any call that
    throws, the ledger holds no row for the event id, so that a redelivery
    of the event claims it again.  The failed call leaves the ledger as
    it found it. *)
Theorem processPaddleWebhook_rolls_back_reservation
    (rt : Runtime) (this : LicenseService) (rawBody : string)
    (signatureHeader : option string) (w : World)
    (payload : PaddleWebhookPayload.t) :
  fst (verifyPaddleSignature this rawBody signatureHeader w) = Returned tt ->
  parsePaddlePayload rt rawBody = Returned payload ->
  db this = Some Connection ->
  let eventId := PaddleWebhookPayload.eventId payload in
  let verified := snd (verifyPaddleSignature this rawBody signatureHeader w) in
  let reserved := snd (insertProcessedEvent eventId "paddle" verified) in
  let run := processPaddleWebhook rt this rawBody signatureHeader w in
  (forall e,
     eventClaimed w eventId = false ->
     fst (applyPaddleLifecycle rt this payload reserved) = Threw e ->
     fst run = Threw e
     /\ In (DeleteProcessedEvent eventId) (journal (snd run))
     /\ processedEvents (snd run) = processedEvents w)
  /\ (forall e,
        fst run = Threw e ->
        eventClaimed (snd run) eventId = false
        /\ exists id rest,
             fst (insertProcessedEvent eventId "paddle" (snd run))
             = Returned (id :: rest)).
Proof.
  intros Hverify Hparse Hdb. cbv zeta.
  rewrite process_run.
  pose proof (verify_quietly this rawBody signatureHeader w) as [Hsame _].
  destruct (verifyPaddleSignature this rawBody signatureHeader w) as [r0 w0].
  cbn [fst snd] in *. subst r0. rewrite Hparse, Hdb. cbv zeta.
  set (eventId := PaddleWebhookPayload.eventId payload).
  destruct Hsame as (_ & Hledger & _).
  assert (Hclaimed : eventClaimed w0 eventId = eventClaimed w eventId)
    by (unfold eventClaimed; rewrite Hledger; reflexivity).
  split.
  - intros e Hfree Hthrow. rewrite Hclaimed, Hfree.
    pose proof (apply_frame rt this payload
                  (snd (insertProcessedEvent eventId "paddle" w0)))
      as (Hev & _ & _).
    destruct (applyPaddleLifecycle rt this payload _) as [[action | e'] w2].
    + discriminate Hthrow.
    + cbn [fst snd] in *. injection Hthrow as ->.
      split; [reflexivity |]. split.
      * rewrite deleteProcessedEvent_run. cbn [journal setProcessedEvents logged].
        apply in_or_app. right. left. reflexivity.
      * rewrite deleteProcessedEvent_run.
        cbn [processedEvents setProcessedEvents logged]. rewrite Hev.
        rewrite insertProcessedEvent_run. rewrite Hclaimed, Hfree.
        cbn [snd processedEvents logged bumpId setProcessedEvents].
        rewrite filter_app. cbn [filter ProcessedEvent.eventId].
        unfold eventId. rewrite String.eqb_refl. cbn [negb].
        rewrite app_nil_r. rewrite Hledger.
        apply filter_unclaimed. exact Hfree.
  - intros e. destruct (eventClaimed w0 eventId) eqn:Hc; [discriminate |].
    destruct (applyPaddleLifecycle rt this payload _) as [[action | e'] w2];
      [discriminate |].
    cbn [fst snd]. intros _.
    pose proof (eventClaimed_after_delete eventId w2) as Hgone.
    split; [exact Hgone |].
    rewrite insertProcessedEvent_run, Hgone. cbn [fst]. eauto.
Qed.

Lemma processPaddleWebhook_rolls_back_reservation_witness :
  let w := emptyWorld 1700000000000 in
  let payload := PaddleWebhookPayload.Make "evt2" "subscription.updated" [] in
  fst (verifyPaddleSignature sampleService updatedBody (Some updatedSignature) w)
    = Returned tt
  /\ parsePaddlePayload sampleRuntime updatedBody = Returned payload
  /\ db sampleService = Some Connection
  /\ fst (processPaddleWebhook sampleRuntime sampleService updatedBody
            (Some updatedSignature) w)
     = Threw subscriptionIdMissing
  /\ eventClaimed
       (snd (processPaddleWebhook sampleRuntime sampleService updatedBody
               (Some updatedSignature) w)) "evt2" = false.
Proof.
  cbv zeta.
  assert (Hverify :
            fst (verifyPaddleSignature sampleService updatedBody
                   (Some updatedSignature) (emptyWorld 1700000000000))
            = Returned tt) by (vm_compute; reflexivity).
  assert (Hparse :
            parsePaddlePayload sampleRuntime updatedBody
            = Returned (PaddleWebhookPayload.Make "evt2" "subscription.updated" []))
    by (vm_compute; reflexivity).
  split; [exact Hverify |]. split; [exact Hparse |]. split; [reflexivity |].
  destruct (processPaddleWebhook_rolls_back_reservation sampleRuntime
              sampleService updatedBody (Some updatedSignature)
              (emptyWorld 1700000000000)
              (PaddleWebhookPayload.Make "evt2" "subscription.updated" [])
              Hverify Hparse eq_refl)
    as [Hroll Hafter].
  destruct (Hroll subscriptionIdMissing) as (Hthrow & _ & _);
    [reflexivity | vm_compute; reflexivity |].
  split; [exact Hthrow |].
  apply (Hafter subscriptionIdMissing Hthrow).
Defined.

Lemma apply_never_duplicate (rt : Runtime) (this : LicenseService)
    (payload : PaddleWebhookPayload.t) (w : World) (action : PaddleAction) :
  fst (applyPaddleLifecycle rt this payload w) = Returned action ->
  action <> duplicate.
Proof.
  rewrite apply_run. cbv zeta.
  destruct (has PADDLE_ACTIVATING_EVENTS _).
  - destruct (upsertActiveLicense _ _ _ _) as [[[] | e] w1]; cbn [fst];
      [| discriminate].
    unfold activationAction. intros [= <-].
    destruct (_ =? _)%string; discriminate.
  - destruct (has PADDLE_DEACTIVATING_EVENTS _).
    + destruct (deactivateLicense _ _ _ _) as [[[] | e] w1]; cbn [fst];
        [| discriminate].
      intros [= <-]. discriminate.
    + cbn [fst]. intros [= <-]. discriminate.
Qed.

(** What a delivery that returned has done. *)
Lemma process_returned (rt : Runtime) (this : LicenseService) (rawBody : string)
    (signatureHeader : option string) (w w1 : World)
    (r : PaddleWebhookResult.t) :
  processPaddleWebhook rt this rawBody signatureHeader w = (Returned r, w1) ->
  db this = Some Connection
  /\ PaddleWebhookResult.ok r = true
  /\ eventClaimed w1 (PaddleWebhookResult.eventId r) = true
  /\ ((PaddleWebhookResult.action r = duplicate
       /\ eventClaimed w (PaddleWebhookResult.eventId r) = true
       /\ licenses w1 = licenses w
       /\ applications (journal w1) = applications (journal w))
      \/ (PaddleWebhookResult.action r <> duplicate
          /\ eventClaimed w (PaddleWebhookResult.eventId r) = false
          /\ applications (journal w1) = S (applications (journal w)))).
Proof.
  rewrite process_run.
  pose proof (verify_quietly this rawBody signatureHeader w) as [Hsame Hquiet].
  destruct (verifyPaddleSignature this rawBody signatureHeader w) as [[[] | e] w0];
    [| discriminate].
  cbn [snd] in Hsame, Hquiet.
  destruct (parsePaddlePayload rt rawBody) as [payload | e]; [| discriminate].
  cbv zeta. destruct (db this) as [[] |]; [| discriminate].
  set (eventId := PaddleWebhookPayload.eventId payload).
  destruct Hsame as (Hlic & Hledger & _).
  assert (Hclaimed : eventClaimed w0 eventId = eventClaimed w eventId)
    by (unfold eventClaimed; rewrite Hledger; reflexivity).
  apply quietly_applications in Hquiet.
  destruct (eventClaimed w0 eventId) eqn:Hc.
  - intros [= <- <-]. cbn [PaddleWebhookResult.eventId PaddleWebhookResult.action
                            PaddleWebhookResult.ok].
    split; [reflexivity |]. split; [reflexivity |].
    split; [exact Hc |]. left.
    split; [reflexivity |]. split; [congruence |]. split; [exact Hlic |].
    cbn [journal logged]. rewrite applications_app, Hquiet. cbn. lia.
  - pose proof (apply_frame rt this payload
                  (snd (insertProcessedEvent eventId "paddle" w0)))
      as (Hev & _ & Happ).
    pose proof (apply_never_duplicate rt this payload
                  (snd (insertProcessedEvent eventId "paddle" w0))) as Hnodup.
    destruct (applyPaddleLifecycle rt this payload _) as [[action | e] w2];
      [| discriminate].
    cbn [fst snd] in *. intros [= <- <-].
    cbn [PaddleWebhookResult.eventId PaddleWebhookResult.action
         PaddleWebhookResult.ok].
    rewrite insertProcessedEvent_run, Hc in Hev, Happ.
    cbn [snd processedEvents journal logged bumpId setProcessedEvents] in Hev, Happ.
    split; [reflexivity |]. split; [reflexivity |]. split.
    + unfold eventClaimed. rewrite Hev, existsb_app. cbn [existsb ProcessedEvent.eventId].
      unfold eventId. rewrite String.eqb_refl. apply orb_true_iff. right. reflexivity.
    + right. split; [apply Hnodup; reflexivity |]. split; [congruence |].
      rewrite Happ, applications_app, Hquiet. cbn. lia.
Qed.

(** A verified delivery of an event that the ledger holds is answered
    "duplicate" after the insert attempt, and that is all it does. *)
Lemma process_duplicate (rt : Runtime) (this : LicenseService) (rawBody : string)
    (signatureHeader : option string) (w : World)
    (payload : PaddleWebhookPayload.t) :
  fst (verifyPaddleSignature this rawBody signatureHeader w) = Returned tt ->
  parsePaddlePayload rt rawBody = Returned payload ->
  db this = Some Connection ->
  eventClaimed w (PaddleWebhookPayload.eventId payload) = true ->
  processPaddleWebhook rt this rawBody signatureHeader w
  = (Returned (PaddleWebhookResult.Make true
                 (PaddleWebhookPayload.eventId payload)
                 (PaddleWebhookPayload.eventType payload) duplicate),
     logged (InsertProcessedEvent (PaddleWebhookPayload.eventId payload) false)
            (snd (verifyPaddleSignature this rawBody signatureHeader w))).
Proof.
  intros Hverify Hparse Hdb Hclaimed. rewrite process_run.
  pose proof (verify_quietly this rawBody signatureHeader w) as [Hsame _].
  destruct (verifyPaddleSignature this rawBody signatureHeader w) as [r0 w0].
  cbn [fst snd] in *. subst r0. rewrite Hparse, Hdb. cbv zeta.
  destruct Hsame as (_ & Hledger & _).
  replace (eventClaimed w0 (PaddleWebhookPayload.eventId payload)) with true
    by (unfold eventClaimed in *; rewrite Hledger; symmetry; exact Hclaimed).
  reflexivity.
Qed.

(** C1 (amended).  If [processPaddleWebhook] returns for one delivery and
    is then called, at any later time, with a verified payload carrying
    the same event id, the second call returns ok:true with action
    "duplicate" and applies no lifecycle: the License table (and the
    ledger) after the second call equal those before it.  Across the two
    calls there is exactly one lifecycle application when the first call
    claimed the event (its action is not "duplicate": the ledger held no
    row for the event id), and none when the first call was itself
    answered "duplicate". *)
Theorem processPaddleWebhook_second_delivery_duplicate
    (rt : Runtime) (this : LicenseService)
    (rawBody1 : string) (signatureHeader1 : option string)
    (rawBody2 : string) (signatureHeader2 : option string)
    (w w1 : World) (r1 : PaddleWebhookResult.t) (later : Z)
    (payload2 : PaddleWebhookPayload.t) :
  processPaddleWebhook rt this rawBody1 signatureHeader1 w = (Returned r1, w1) ->
  fst (verifyPaddleSignature this rawBody2 signatureHeader2 (atTime later w1))
    = Returned tt ->
  parsePaddlePayload rt rawBody2 = Returned payload2 ->
  PaddleWebhookPayload.eventId payload2 = PaddleWebhookResult.eventId r1 ->
  let run2 :=
    processPaddleWebhook rt this rawBody2 signatureHeader2 (atTime later w1) in
  fst run2
  = Returned (PaddleWebhookResult.Make true (PaddleWebhookResult.eventId r1)
                (PaddleWebhookPayload.eventType payload2) duplicate)
  /\ licenses (snd run2) = licenses w1
  /\ processedEvents (snd run2) = processedEvents w1
  /\ applications (journal (snd run2)) = applications (journal w1)
  /\ (PaddleWebhookResult.action r1 <> duplicate ->
      eventClaimed w (PaddleWebhookResult.eventId r1) = false
      /\ applications (journal (snd run2)) = S (applications (journal w)))
  /\ (PaddleWebhookResult.action r1 = duplicate ->
      eventClaimed w (PaddleWebhookResult.eventId r1) = true
      /\ applications (journal (snd run2)) = applications (journal w)).
Proof.
  intros Hfirst Hverify Hparse Hid. cbv zeta.
  destruct (process_returned rt this rawBody1 signatureHeader1 w w1 r1 Hfirst)
    as (Hdb & _ & Hclaimed & Hcases).
  assert (Hclaimed2 :
            eventClaimed (atTime later w1) (PaddleWebhookPayload.eventId payload2)
            = true) by (rewrite Hid; exact Hclaimed).
  rewrite (process_duplicate rt this rawBody2 signatureHeader2 (atTime later w1)
             payload2 Hverify Hparse Hdb Hclaimed2).
  pose proof (verify_quietly this rawBody2 signatureHeader2 (atTime later w1))
    as [(Hlic & Hledger & _) Hquiet].
  apply quietly_applications in Hquiet.
  cbn [fst snd licenses processedEvents journal logged].
  cbn [licenses processedEvents journal atTime] in Hlic, Hledger, Hquiet.
  assert (Happ : applications
                   (journal (snd (verifyPaddleSignature this rawBody2
                                    signatureHeader2 (atTime later w1)))
                      ++ [InsertProcessedEvent
                            (PaddleWebhookPayload.eventId payload2) false])
                 = applications (journal w1))
    by (rewrite applications_app, Hquiet; cbn; lia).
  rewrite Happ, Hid.
  split; [reflexivity |]. split; [exact Hlic |]. split; [exact Hledger |].
  split; [reflexivity |].
  destruct Hcases as [(Hdup & Hheld & _ & Hsame) | (Hnodup & Hfree & Hone)].
  - split; [intros Hno; contradiction | intros _; split; assumption].
  - split; [intros _; split; assumption | intros Hdup; contradiction].
Qed.

Lemma processPaddleWebhook_second_delivery_duplicate_witness :
  let w := emptyWorld 1700000000000 in
  let first :=
    processPaddleWebhook sampleRuntime sampleService createdBody
      (Some createdSignature) w in
  let second :=
    processPaddleWebhook sampleRuntime sampleService createdBody
      (Some createdSignature) (atTime 1700000060000 (snd first)) in
  fst first
  = Returned (PaddleWebhookResult.Make true "evt1" "subscription.created" activated)
  /\ fst second
     = Returned (PaddleWebhookResult.Make true "evt1" "subscription.created" duplicate)
  /\ licenses (snd second) = licenses (snd first)
  /\ applications (journal (snd second)) = 1%nat.
Proof.
  cbv zeta.
  set (first := processPaddleWebhook sampleRuntime sampleService createdBody
                  (Some createdSignature) (emptyWorld 1700000000000)).
  assert (Hfst : fst first
                 = Returned (PaddleWebhookResult.Make true "evt1"
                               "subscription.created" activated))
    by (vm_compute; reflexivity).
  assert (Hfirst : first
                   = (Returned (PaddleWebhookResult.Make true "evt1"
                                  "subscription.created" activated), snd first))
    by (rewrite <- Hfst; apply surjective_pairing).
  assert (Hparse :
            parsePaddlePayload sampleRuntime createdBody
            = Returned (PaddleWebhookPayload.Make "evt1" "subscription.created"
                          [ ("id", JStr "sub1") ]))
    by (vm_compute; reflexivity).
  assert (Hverify :
            fst (verifyPaddleSignature sampleService createdBody
                   (Some createdSignature) (atTime 1700000060000 (snd first)))
            = Returned tt)
    by (vm_compute; reflexivity).
  destruct (processPaddleWebhook_second_delivery_duplicate sampleRuntime
              sampleService createdBody (Some createdSignature) createdBody
              (Some createdSignature) (emptyWorld 1700000000000) (snd first)
              (PaddleWebhookResult.Make true "evt1" "subscription.created"
                 activated)
              1700000060000
              (PaddleWebhookPayload.Make "evt1" "subscription.created"
                 [ ("id", JStr "sub1") ])
              Hfirst Hverify Hparse eq_refl)
    as (Hsecond & Hlic & _ & _ & Hone & _).
  split; [exact Hfst |]. split; [exact Hsecond |]. split; [exact Hlic |].
  destruct Hone as [_ Hone]; [discriminate | exact Hone].
Defined.

(** C1, as stated, fails: when an event has been processed, its second
    and third deliveries both return ok:true, yet no lifecycle application
    happens across these two calls. *)
Lemma processPaddleWebhook_two_duplicates_apply_nothing :
  let processed :=
    snd (processPaddleWebhook sampleRuntime sampleService createdBody
           (Some createdSignature) (emptyWorld 1700000000000)) in
  let first :=
    processPaddleWebhook sampleRuntime sampleService createdBody
      (Some createdSignature) processed in
  let second :=
    processPaddleWebhook sampleRuntime sampleService createdBody
      (Some createdSignature) (snd first) in
  fst first
  = Returned (PaddleWebhookResult.Make true "evt1" "subscription.created" duplicate)
  /\ fst second
     = Returned (PaddleWebhookResult.Make true "evt1" "subscription.created" duplicate)
  /\ applications (journal (snd second)) = applications (journal processed)
  /\ (applications (journal (snd second)) - applications (journal processed))%nat
     <> 1%nat.
Proof.
  cbv zeta. split; [vm_compute; reflexivity |].
  split; [vm_compute; reflexivity |].
  split; [vm_compute; reflexivity |].
  vm_compute. discriminate.
Qed.

Lemma use_enforcement_gate_witness :
  let gate := serviceGate sampleRuntime in
  let req :=
    LicensedRequest.Make
      (fun name =>
         if (name =? "x-license-key")%string
         then HeaderMany [ " AXON-VALID-KEY "; "AXON-OTHER" ]
         else HeaderAbsent)
      None in
  let w := worldWith [buildLicense "active" 1800000000000] 1700000000000 in
  gate_isEnforced sampleService = true
  /\ Js.trim (readHeaderValue (LicensedRequest.headers req "x-license-key"))
     = "AXON-VALID-KEY"
  /\ use sampleService req w
     = (Returned
          (LicensedRequest.Make (LicensedRequest.headers req)
             (Some (buildLicense "active" 1800000000000)), Next),
        logged (SelectLicenseByKey "AXON-VALID-KEY") w).
Proof.
  cbv zeta. split; [reflexivity |]. split; [reflexivity |].
  pose proof (use_enforcement_gate (H := serviceGate sampleRuntime) sampleService
                (LicensedRequest.Make
                   (fun name =>
                      if (name =? "x-license-key")%string
                      then HeaderMany [ " AXON-VALID-KEY "; "AXON-OTHER" ]
                      else HeaderAbsent)
                   None)
                (worldWith [buildLicense "active" 1800000000000] 1700000000000))
    as (_ & _ & _ & Hpass & _).
  apply (Hpass
           (LicenseValidationResult.Make true 200 "License is valid"
              "LICENSE_VALID" None (Some (buildLicense "active" 1800000000000))));
    [reflexivity | discriminate | reflexivity | reflexivity].
Defined.

(** ** Scenarios of the specification, run on the model *)

Example header_with_both_pairs :
  parsePaddleSignatureHeader (Some "ts=1700000000; h1=abcd")
  = Returned {| timestamp := "1700000000"; signature := "abcd" |}.
Proof. reflexivity. Qed.

Example header_without_timestamp :
  verdictOf (parsePaddleSignatureHeader (Some "h1=abcd"))
  = Some (Reject 401 "PADDLE_SIGNATURE_INVALID").
Proof. reflexivity. Qed.

Example header_absent :
  verdictOf (parsePaddleSignatureHeader None)
  = Some (Reject 401 "PADDLE_SIGNATURE_MISSING").
Proof. reflexivity. Qed.

Example prefix_only_key :
  fst (validateLicenseKey sampleRuntime sampleService "AXON-" (emptyWorld 0))
  = Returned (invalid 401 "LICENSE_INVALID" "Invalid license key" None).
Proof. reflexivity. Qed.

Example datastore_unavailable :
  fst (validateLicenseKey sampleRuntime
         {| configService := sampleConfig; db := None |}
         "AXON-TEST" (emptyWorld 0))
  = Returned (invalid 503 "LICENSE_BACKEND_UNAVAILABLE"
                "License backend is not available" None).
Proof. reflexivity. Qed.

Example active_but_expired :
  fst (validateLicenseKey sampleRuntime sampleService "AXON-VALID-KEY"
         (worldWith [buildLicense "active" 1699999940000] 1700000000000))
  = Returned (invalid 402 "LICENSE_EXPIRED" "License has expired"
                (Some [ ("expiresAt", JStr "2023-11-14T22:12:20.000Z") ])).
Proof. reflexivity. Qed.

Example revoked_not_expired :
  fst (validateLicenseKey sampleRuntime sampleService "AXON-VALID-KEY"
         (worldWith [buildLicense "revoked" 1700086400000] 1700000000000))
  = Returned (invalid 403 "LICENSE_BLOCKED" "License is not active"
                (Some [ ("status", JStr "revoked") ])).
Proof. reflexivity. Qed.

Example created_event_creates_pro_license :
  let run :=
    processPaddleWebhook sampleRuntime sampleService createdBody
      (Some createdSignature) (emptyWorld 1700000000000) in
  fst run
  = Returned (PaddleWebhookResult.Make true "evt1" "subscription.created" activated)
  /\ map (fun l => (License.key l, License.plan l, License.maxDevices l,
                    License.status l, License.paddleSubscriptionId l))
         (licenses (snd run))
     = [ ("AXON-0001-0203-0405-0607", "pro", 1, "active", Some "sub1") ]
  /\ map ProcessedEvent.eventId (processedEvents (snd run)) = [ "evt1" ].
Proof. vm_compute. repeat split. Qed.

Example activate_validate_deactivate_validate :
  let created :=
    PaddleWebhookPayload.Make "evt1" "subscription.created" [ ("id", JStr "sub1") ] in
  let canceled :=
    PaddleWebhookPayload.Make "evt3" "subscription.canceled" [ ("id", JStr "sub1") ] in
  let w1 :=
    snd (applyPaddleLifecycle sampleRuntime sampleService created
           (emptyWorld 1700000000000)) in
  let w2 := snd (applyPaddleLifecycle sampleRuntime sampleService canceled w1) in
  (exists result,
     fst (validateLicenseKey sampleRuntime sampleService
            "AXON-0001-0203-0405-0607" w1) = Returned result
     /\ LicenseValidationResult.valid result = true
     /\ LicenseValidationResult.code result = "LICENSE_VALID")
  /\ fst (validateLicenseKey sampleRuntime sampleService
            "AXON-0001-0203-0405-0607" w2)
     = Returned (invalid 403 "LICENSE_BLOCKED" "License is not active"
                   (Some [ ("status", JStr "canceled") ])).
Proof.
  cbv zeta. split; [| vm_compute; reflexivity].
  eexists. split; [vm_compute; reflexivity |]. split; reflexivity.
Qed.

(* ================================================================== *)
(** * Further properties of the code *)


(** ** The validator, as a whole *)

(** X1.  [validateLicenseKey] answers valid exactly when the datastore is
    there, the trimmed key is not empty and starts with the configured
    prefix, and the first license stored under the trimmed key is active
    and expires after now; the answer then is 200 LICENSE_VALID with that
    license attached. *)
Theorem validateLicenseKey_valid_iff
    (rt : Runtime) (this : LicenseService) (key : string) (w : World)
    (result : LicenseValidationResult.t) :
  fst (validateLicenseKey rt this key w) = Returned result ->
  (LicenseValidationResult.valid result = true
   <-> (db this <> None
        /\ Js.trim key <> ""
        /\ Js.startsWith (Js.trim key) (configuredPrefix this) = true
        /\ exists current,
             find (fun l => (License.key l =? Js.trim key)%string) (licenses w)
             = Some current
             /\ License.status current = "active"
             /\ now w < License.expiresAt current))
  /\ (LicenseValidationResult.valid result = true ->
      LicenseValidationResult.statusCode result = 200
      /\ LicenseValidationResult.code result = "LICENSE_VALID"
      /\ LicenseValidationResult.license result
         = find (fun l => (License.key l =? Js.trim key)%string) (licenses w))
  /\ (LicenseValidationResult.valid result = false ->
      LicenseValidationResult.license result = None
      /\ LicenseValidationResult.statusCode result <> 200)
  /\ In (LicenseValidationResult.statusCode result,
         LicenseValidationResult.code result) validationAnswers.
Proof.
  rewrite validate_run. cbv zeta.
  destruct (Js.truthy (Js.trim key)) eqn:Ht; cbn [negb].
  2:{ apply truthy_false in Ht. intros [= <-]. cbn.
      split; [split; [discriminate | intros (_ & H & _); contradiction] |].
      split; [discriminate |]. split; [intros _; split; [reflexivity | discriminate] |].
      auto. }
  assert (Hne : Js.trim key <> "") by (intros H; rewrite H in Ht; discriminate).
  destruct (Js.startsWith (Js.trim key) (configuredPrefix this)) eqn:Hp; cbn [negb].
  2:{ intros [= <-]. cbn.
      split; [split; [discriminate | intros (_ & _ & H & _); discriminate] |].
      split; [discriminate |]. split; [intros _; split; [reflexivity | discriminate] |].
      auto. }
  destruct (db this) as [[] |] eqn:Hdb.
  2:{ intros [= <-]. cbn.
      split; [split; [discriminate | intros (H & _); contradiction] |].
      split; [discriminate |]. split; [intros _; split; [reflexivity | discriminate] |].
      auto 10. }
  cbn [fst].
  destruct (find _ (licenses w)) as [current |] eqn:Hfind.
  2:{ intros [= <-]. cbn.
      split; [split; [discriminate | intros (_ & _ & _ & c & H & _); discriminate] |].
      split; [discriminate |]. split; [intros _; split; [reflexivity | discriminate] |].
      auto. }
  unfold judge.
  destruct (License.status current =? "active")%string eqn:Hst; cbn [negb].
  2:{ apply String.eqb_neq in Hst. intros [= <-]. cbn.
      split; [split; [discriminate
                     | intros (_ & _ & _ & c & [= <-] & H & _); contradiction] |].
      split; [discriminate |]. split; [intros _; split; [reflexivity | discriminate] |].
      auto 10. }
  apply String.eqb_eq in Hst.
  destruct (License.expiresAt current <=? now w) eqn:Hexp.
  - apply Z.leb_le in Hexp. intros [= <-]. cbn.
    split; [split; [discriminate
                   | intros (_ & _ & _ & c & [= <-] & _ & H); lia] |].
    split; [discriminate |]. split; [intros _; split; [reflexivity | discriminate] |].
    auto 10.
  - apply Z.leb_gt in Hexp. intros [= <-]. cbn.
    split.
    { split; [intros _ | reflexivity].
      split; [discriminate |]. split; [exact Hne |]. split; [reflexivity |].
      exists current. auto. }
    split; [intros _; auto |]. split; [discriminate |]. auto 10.
Qed.

Lemma validateLicenseKey_valid_iff_witness :
  let w := worldWith [buildLicense "active" 1800000000000] 1700000000000 in
  exists result,
    fst (validateLicenseKey sampleRuntime sampleService "AXON-VALID-KEY" w)
    = Returned result
    /\ LicenseValidationResult.valid result = true
    /\ LicenseValidationResult.statusCode result = 200.
Proof.
  cbv zeta.
  exists (LicenseValidationResult.Make true 200 "License is valid"
            "LICENSE_VALID" None (Some (buildLicense "active" 1800000000000))).
  split; [reflexivity |]. split; [reflexivity |].
  apply (validateLicenseKey_valid_iff sampleRuntime sampleService
           "AXON-VALID-KEY"
           (worldWith [buildLicense "active" 1800000000000] 1700000000000));
    reflexivity.
Defined.

(** X2.  Surrounding white space never matters to the validator: a key
    and its trimmed form get the same answer and leave the same world. *)
Theorem validateLicenseKey_ignores_surrounding_space
    (rt : Runtime) (this : LicenseService) (key : string) (w : World) :
  validateLicenseKey rt this (Js.trim key) w = validateLicenseKey rt this key w.
Proof.
  rewrite !validate_run. cbv zeta. rewrite trim_idempotent. reflexivity.
Qed.

(** ** Parsing the signature header and the payload *)

Lemma allChars_app (p : ascii -> bool) (a b : string) :
  allChars p (a ++ b)%string = allChars p a && allChars p b.
Proof.
  induction a as [| c a IH]; [reflexivity |].
  cbn [append allChars]. rewrite IH, andb_assoc. reflexivity.
Qed.

Lemma allChars_weaken (p q : ascii -> bool) (s : string) :
  (forall c, p c = true -> q c = true) ->
  allChars p s = true -> allChars q s = true.
Proof.
  intros Hpq. induction s as [| c s IH]; [reflexivity |].
  cbn [allChars]. intros H. apply andb_true_iff in H as [Hc Hs].
  rewrite (Hpq c Hc), (IH Hs). reflexivity.
Qed.

Lemma isPlain_parts (c : ascii) :
  isPlain c = true ->
  Js.isWhiteSpace c = false /\ isPairSeparator c = false /\ isEquals c = false.
Proof.
  unfold isPlain. intros H.
  apply andb_true_iff in H as [H He]. apply andb_true_iff in H as [Hw Hs].
  apply negb_true_iff in Hw, Hs, He. auto.
Qed.

Lemma trimStart_without_space (s : string) :
  allChars (fun c => negb (Js.isWhiteSpace c)) s = true -> Js.trimStart s = s.
Proof.
  destruct s as [| c r]; [reflexivity |].
  cbn [allChars Js.trimStart]. intros H. apply andb_true_iff in H as [Hc _].
  apply negb_true_iff in Hc. rewrite Hc. reflexivity.
Qed.

Lemma trimEnd_without_space (s : string) :
  allChars (fun c => negb (Js.isWhiteSpace c)) s = true -> Js.trimEnd s = s.
Proof.
  induction s as [| c r IH]; [reflexivity |].
  cbn [allChars Js.trimEnd]. intros H. apply andb_true_iff in H as [Hc Hr].
  apply negb_true_iff in Hc. rewrite (IH Hr).
  destruct r; [rewrite Hc |]; reflexivity.
Qed.

Lemma trim_without_space (s : string) :
  allChars (fun c => negb (Js.isWhiteSpace c)) s = true -> Js.trim s = s.
Proof.
  intros H. unfold Js.trim. rewrite (trimStart_without_space s H).
  apply trimEnd_without_space, H.
Qed.

Lemma split_without_separator (sep : ascii -> bool) (s : string) :
  allChars (fun c => negb (sep c)) s = true -> Js.split sep s = [s].
Proof.
  induction s as [| c r IH]; [reflexivity |].
  cbn [allChars Js.split]. intros H. apply andb_true_iff in H as [Hc Hr].
  apply negb_true_iff in Hc. rewrite Hc, (IH Hr). reflexivity.
Qed.

Lemma split_at_separator (sep : ascii -> bool) (a b : string) (c : ascii) :
  allChars (fun x => negb (sep x)) a = true ->
  sep c = true ->
  Js.split sep (a ++ String c b)%string = a :: Js.split sep b.
Proof.
  intros Ha Hc. induction a as [| x a IH].
  - cbn [append Js.split]. rewrite Hc. reflexivity.
  - cbn [allChars] in Ha. apply andb_true_iff in Ha as [Hx Ha].
    apply negb_true_iff in Hx.
    cbn [append Js.split]. rewrite Hx, (IH Ha). reflexivity.
Qed.

Lemma plainValue_parts (s : string) :
  plainValue s = true ->
  Js.truthy s = true
  /\ allChars (fun c => negb (Js.isWhiteSpace c)) s = true
  /\ allChars (fun c => negb (isPairSeparator c)) s = true
  /\ allChars (fun c => negb (isEquals c)) s = true.
Proof.
  unfold plainValue. intros H. apply andb_true_iff in H as [Ht Hp].
  split; [exact Ht |].
  repeat split; (eapply allChars_weaken; [| exact Hp]);
    intros c Hc; apply isPlain_parts in Hc as (Hw & Hs & He);
    apply negb_true_iff; assumption.
Qed.

Lemma truthy_length (s : string) :
  Js.truthy s = true -> (0 <? String.length s)%nat = true.
Proof. destruct s; [discriminate | reflexivity]. Qed.

(** A pair [name=value] with a plain value reads as that value. *)
Lemma readPair_plain (name value : string) (acc : option string * option string) :
  plainValue name = true -> plainValue value = true ->
  readPair acc (name ++ "=" ++ value)%string
  = (if (name =? "ts")%string then Some value else fst acc,
     if (name =? "h1")%string then Some value else snd acc).
Proof.
  intros Hn Hv.
  apply plainValue_parts in Hn as (Hnt & _ & _ & Hne).
  apply plainValue_parts in Hv as (Hvt & Hvw & _ & Hve).
  unfold readPair.
  change (name ++ "=" ++ value)%string with (name ++ String "=" value)%string.
  rewrite (split_at_separator isEquals name value "=" Hne eq_refl).
  rewrite (split_without_separator isEquals value Hve).
  rewrite Hnt. cbn [negb List.length Nat.eqb orb Js.join String.concat].
  rewrite (trim_without_space value Hvw). reflexivity.
Qed.

Lemma parse_header_pairs (t h : string) (sep : ascii) :
  isPairSeparator sep = true ->
  plainValue t = true ->
  plainValue h = true ->
  parsePaddleSignatureHeader (Some ("ts=" ++ t ++ String sep ("h1=" ++ h))%string)
  = Returned {| timestamp := t; signature := h |}.
Proof.
  intros Hsep Ht Hh.
  pose proof (plainValue_parts t Ht) as (Htt & Htw & Hts & _).
  pose proof (plainValue_parts h Hh) as (Hht & Hhw & Hhs & _).
  change (parsePaddleSignatureHeader
            (Some (("ts=" ++ t) ++ String sep ("h1=" ++ h))%string)
          = Returned {| timestamp := t; signature := h |}).
  unfold parsePaddleSignatureHeader.
  replace (Js.truthy (("ts=" ++ t) ++ String sep ("h1=" ++ h))%string) with true
    by reflexivity.
  cbn [negb]. unfold signaturePairs.
  rewrite (split_at_separator isPairSeparator ("ts=" ++ t) ("h1=" ++ h) sep);
    [| rewrite allChars_app, Hts; reflexivity | exact Hsep].
  rewrite (split_without_separator isPairSeparator ("h1=" ++ h));
    [| rewrite allChars_app, Hhs; reflexivity].
  cbn [map].
  rewrite (trim_without_space ("ts=" ++ t)) by (rewrite allChars_app, Htw; reflexivity).
  rewrite (trim_without_space ("h1=" ++ h)) by (rewrite allChars_app, Hhw; reflexivity).
  cbn [filter].
  replace (0 <? String.length ("ts=" ++ t))%nat with true by reflexivity.
  replace (0 <? String.length ("h1=" ++ h))%nat with true by reflexivity.
  cbn [fold_left].
  change ("ts=" ++ t)%string with ("ts" ++ "=" ++ t)%string.
  change ("h1=" ++ h)%string with ("h1" ++ "=" ++ h)%string.
  rewrite (readPair_plain "ts" t _ eq_refl Ht).
  rewrite (readPair_plain "h1" h _ eq_refl Hh).
  cbn [String.eqb Ascii.eqb Bool.eqb fst snd].
  rewrite Htt, Hht. reflexivity.
Qed.

(** X3.  A header [ts=<t><sep>h1=<h>] whose separator is [;] or [,] and
    whose two values are plain (not empty; no white space, separator or
    equals sign) parses to exactly that timestamp and that signature,
    in either order of the two pairs. *)
Theorem parsePaddleSignatureHeader_reads_pairs
    (t h : string) (sep : ascii) :
  isPairSeparator sep = true ->
  plainValue t = true ->
  plainValue h = true ->
  parsePaddleSignatureHeader (Some ("ts=" ++ t ++ String sep ("h1=" ++ h))%string)
  = Returned {| timestamp := t; signature := h |}
  /\ parsePaddleSignatureHeader
       (Some ("h1=" ++ h ++ String sep ("ts=" ++ t))%string)
     = Returned {| timestamp := t; signature := h |}.
Proof.
  intros Hsep Ht Hh. split; [apply parse_header_pairs; assumption |].
  pose proof (plainValue_parts t Ht) as (Htt & Htw & Hts & _).
  pose proof (plainValue_parts h Hh) as (Hht & Hhw & Hhs & _).
  change (parsePaddleSignatureHeader
            (Some (("h1=" ++ h) ++ String sep ("ts=" ++ t))%string)
          = Returned {| timestamp := t; signature := h |}).
  unfold parsePaddleSignatureHeader.
  replace (Js.truthy (("h1=" ++ h) ++ String sep ("ts=" ++ t))%string) with true
    by reflexivity.
  cbn [negb]. unfold signaturePairs.
  rewrite (split_at_separator isPairSeparator ("h1=" ++ h) ("ts=" ++ t) sep);
    [| rewrite allChars_app, Hhs; reflexivity | exact Hsep].
  rewrite (split_without_separator isPairSeparator ("ts=" ++ t));
    [| rewrite allChars_app, Hts; reflexivity].
  cbn [map].
  rewrite (trim_without_space ("ts=" ++ t)) by (rewrite allChars_app, Htw; reflexivity).
  rewrite (trim_without_space ("h1=" ++ h)) by (rewrite allChars_app, Hhw; reflexivity).
  cbn [filter].
  replace (0 <? String.length ("ts=" ++ t))%nat with true by reflexivity.
  replace (0 <? String.length ("h1=" ++ h))%nat with true by reflexivity.
  cbn [fold_left].
  change ("ts=" ++ t)%string with ("ts" ++ "=" ++ t)%string.
  change ("h1=" ++ h)%string with ("h1" ++ "=" ++ h)%string.
  rewrite (readPair_plain "h1" h _ eq_refl Hh).
  rewrite (readPair_plain "ts" t _ eq_refl Ht).
  cbn [String.eqb Ascii.eqb Bool.eqb fst snd].
  rewrite Htt, Hht. reflexivity.
Qed.

Lemma parsePaddleSignatureHeader_reads_pairs_witness :
  isPairSeparator "," = true
  /\ plainValue "1700000000" = true
  /\ plainValue "abcd" = true
  /\ parsePaddleSignatureHeader (Some "ts=1700000000,h1=abcd")
     = Returned {| timestamp := "1700000000"; signature := "abcd" |}.
Proof.
  split; [reflexivity |]. split; [reflexivity |]. split; [reflexivity |].
  apply (parsePaddleSignatureHeader_reads_pairs "1700000000" "abcd" ",");
    reflexivity.
Defined.

Lemma readPair_trimmed (acc : option string * option string) (pair : string) :
  (forall s, fst acc = Some s -> Js.trim s = s) ->
  (forall s, snd acc = Some s -> Js.trim s = s) ->
  (forall s, fst (readPair acc pair) = Some s -> Js.trim s = s)
  /\ (forall s, snd (readPair acc pair) = Some s -> Js.trim s = s).
Proof.
  intros Hts Hh1. unfold readPair.
  destruct (Js.split isEquals pair) as [| key rest]; [auto |].
  destruct (negb (Js.truthy key) || (List.length rest =? 0)%nat); [auto |].
  cbn [fst snd]. split.
  - destruct (key =? "ts")%string; [| exact Hts].
    intros s [= <-]. apply trim_idempotent.
  - destruct (key =? "h1")%string; [| exact Hh1].
    intros s [= <-]. apply trim_idempotent.
Qed.

Lemma readPairs_trimmed (pairs : list string) (acc : option string * option string) :
  (forall s, fst acc = Some s -> Js.trim s = s) ->
  (forall s, snd acc = Some s -> Js.trim s = s) ->
  (forall s, fst (fold_left readPair pairs acc) = Some s -> Js.trim s = s)
  /\ (forall s, snd (fold_left readPair pairs acc) = Some s -> Js.trim s = s).
Proof.
  revert acc. induction pairs as [| pair pairs IH]; intros acc Hts Hh1; [auto |].
  cbn [fold_left]. destruct (readPair_trimmed acc pair Hts Hh1). apply IH; assumption.
Qed.

(** X4.  Whatever [parsePaddleSignatureHeader] returns is usable as it
    is: neither the timestamp nor the signature is empty, and neither has
    white space around it. *)
Theorem parsePaddleSignatureHeader_returns_trimmed
    (signatureHeader : option string) (p : ParsedPaddleSignature) :
  parsePaddleSignatureHeader signatureHeader = Returned p ->
  timestamp p <> "" /\ signature p <> ""
  /\ Js.trim (timestamp p) = timestamp p
  /\ Js.trim (signature p) = signature p.
Proof.
  unfold parsePaddleSignatureHeader, httpError.
  destruct signatureHeader as [header |]; [| discriminate].
  destruct (negb (Js.truthy header)); [discriminate |].
  pose proof (readPairs_trimmed (signaturePairs header) (None, None)) as Htrim.
  destruct (fold_left readPair (signaturePairs header) (None, None))
    as [[ts |] [h1 |]]; try discriminate.
  destruct (Js.truthy ts) eqn:Hts; [| discriminate].
  destruct (Js.truthy h1) eqn:Hh1; [| discriminate].
  cbn [negb orb]. intros [= <-]. cbn [timestamp signature].
  destruct Htrim as [Ha Hb]; try (cbn; discriminate).
  split; [intros ->; discriminate |]. split; [intros ->; discriminate |].
  split; [apply Ha | apply Hb]; reflexivity.
Qed.

Lemma parsePaddleSignatureHeader_returns_trimmed_witness :
  parsePaddleSignatureHeader (Some " ts = 5 ; ts= 17 ;h1=  ab=cd  ")
  = Returned {| timestamp := "17"; signature := "ab=cd" |}
  /\ Js.trim "17" = "17" /\ Js.trim "ab=cd" = "ab=cd".
Proof.
  split; [reflexivity |].
  destruct (parsePaddleSignatureHeader_returns_trimmed
              (Some " ts = 5 ; ts= 17 ;h1=  ab=cd  ")
              {| timestamp := "17"; signature := "ab=cd" |} eq_refl)
    as (_ & _ & Ha & Hb).
  split; [exact Ha | exact Hb].
Defined.

(** ** Signing and verifying *)

Lemma hexDigit_plain (n : Z) :
  0 <= n < 16 -> isPlain (Buffer.hexDigit n) = true.
Proof.
  intros Hn. rewrite <- (Z2Nat.id n) by lia.
  assert (Hk : (Z.to_nat n < 16)%nat) by lia.
  revert Hk. generalize (Z.to_nat n) as k. intros k Hk.
  do 16 (destruct k as [| k]; [reflexivity |]). lia.
Qed.

Lemma toHex_plain (bs : list Z) :
  Forall (fun b => 0 <= b < 256) bs -> allChars isPlain (Buffer.toHex bs) = true.
Proof.
  induction 1 as [| b bs Hb _ IH]; [reflexivity |].
  cbn [Buffer.toHex allChars].
  rewrite !hexDigit_plain, IH; [reflexivity | |].
  - apply Z.mod_pos_bound; lia.
  - split; [apply Z.div_pos; lia | apply Z.div_lt_upper_bound; lia].
Qed.

Lemma toHex_truthy (bs : list Z) :
  bs <> [] -> Js.truthy (Buffer.toHex bs) = true.
Proof. destruct bs; [contradiction | reflexivity]. Qed.

Transparent Crypto.createHmacHex.

Lemma createHmacHex_plain (secret data : string) :
  plainValue (Crypto.createHmacHex secret data) = true.
Proof.
  unfold plainValue, Crypto.createHmacHex. apply andb_true_iff. split.
  - apply toHex_truthy. intros Hnil.
    pose proof (hmac_length (Js.utf8 secret) (Js.utf8 data)) as Hlen.
    rewrite Hnil in Hlen. discriminate Hlen.
  - apply toHex_plain, hmac_bytes.
Qed.

Opaque Crypto.createHmacHex.

(** X5.  Signing round trip: with a secret configured, the header
    [ts=<ts>;h1=<hex HMAC-SHA256 of ts:rawBody>] built for a body with a
    plain timestamp makes [verifyPaddleSignature] return normally, for
    every body, unless the skew test refuses the timestamp.  The skew
    test is the one of the code, on doubles: it refuses when tolerance
    and timestamp parse to finite numbers, the tolerance is positive and
    the drift, computed from the rounded timestamp, exceeds it. *)
Theorem verifyPaddleSignature_accepts_signed
    (this : LicenseService) (secret ts rawBody : string) (w : World) :
  present (configService this "PADDLE_WEBHOOK_SECRET") = Some secret ->
  plainValue ts = true ->
  expired (configService this "PADDLE_WEBHOOK_TOLERANCE_SEC") ts (now w) = false ->
  fst (verifyPaddleSignature this rawBody
         (Some (signedHeader secret ts rawBody)) w)
  = Returned tt.
Proof.
  intros Hsecret Hts Hfresh. rewrite verify_run, Hsecret.
  change (signedHeader secret ts rawBody)
    with ("ts=" ++ ts
            ++ String ";"
                 ("h1=" ++ Crypto.createHmacHex secret (ts ++ ":" ++ rawBody)))%string.
  rewrite (parse_header_pairs ts
             (Crypto.createHmacHex secret (ts ++ ":" ++ rawBody)) ";"
             eq_refl Hts (createHmacHex_plain _ _)).
  cbn [timestamp signature]. rewrite Hfresh. cbv zeta.
  rewrite expectedBuffer_length, Nat.eqb_refl. cbn [fst].
  replace (bytesEqual _ _) with true; [reflexivity |].
  symmetry. apply bytesEqual_eq. reflexivity.
Qed.

Lemma verifyPaddleSignature_accepts_signed_witness :
  present (configService sampleService "PADDLE_WEBHOOK_SECRET") = Some "whsec"
  /\ plainValue "1700000000" = true
  /\ expired (configService sampleService "PADDLE_WEBHOOK_TOLERANCE_SEC")
             "1700000000" (now (emptyWorld 1700000250000)) = false
  /\ fst (verifyPaddleSignature sampleService createdBody
            (Some (signedHeader "whsec" "1700000000" createdBody))
            (emptyWorld 1700000250000))
     = Returned tt.
Proof.
  split; [reflexivity |]. split; [reflexivity |]. split; [reflexivity |].
  apply (verifyPaddleSignature_accepts_signed sampleService "whsec"
           "1700000000" createdBody (emptyWorld 1700000250000));
    reflexivity.
Defined.

(** The skew test runs on doubles.  A timestamp above 2^53 is rounded
    before it is compared: with a tolerance of 9007197554740994 seconds,
    a correctly signed delivery stamped 9007199254740995 is read as
    9007199254740996, found to drift by 9007197554740995 seconds and
    refused; on the integers the drift would be within the tolerance. *)
Example skew_test_rounds_timestamp :
  Js.parseInt "9007199254740995" = Js.Finite 9007199254740996
  /\ Z.abs (1700000001000 / 1000 - 9007199254740995) = 9007197554740994
  /\ fst (verifyPaddleSignature wideToleranceService createdBody
            (Some (signedHeader "whsec" "9007199254740995" createdBody))
            (emptyWorld 1700000001000))
     = Threw (HttpError
                (LicenseHttpError.New 401 "PADDLE_SIGNATURE_EXPIRED"
                   "Paddle webhook signature timestamp is outside allowed skew"
                   (Some [ ("driftSeconds", JNum 9007197554740995);
                           ("toleranceSeconds", JNum 9007197554740994) ]))).
Proof. split; [| split]; vm_compute; reflexivity. Qed.

(** A timestamp beyond the range of doubles parses to an infinity, and
    the skew test is skipped for it: a correctly signed delivery with
    such a timestamp is accepted at any time. *)
Example skew_test_skips_infinite_timestamp :
  Js.parseInt farTimestamp = Js.Infinity false
  /\ expired (configService sampleService "PADDLE_WEBHOOK_TOLERANCE_SEC")
             farTimestamp 1700000000000 = false
  /\ fst (verifyPaddleSignature sampleService createdBody
            (Some (signedHeader "whsec" farTimestamp createdBody))
            (emptyWorld 1700000000000))
     = Returned tt.
Proof. split; [| split]; vm_compute; reflexivity. Qed.

(** ** The payload *)

Lemma readString_trimmed (value : option JsValue) (s : string) :
  readString value = Some s -> s <> "" /\ Js.trim s = s.
Proof.
  unfold readString.
  destruct value as [[| | | raw | |] |]; try discriminate.
  destruct (0 <? String.length (Js.trim raw))%nat eqn:Hlen; [| discriminate].
  intros [= <-]. split; [| apply trim_idempotent].
  intros Hempty. rewrite Hempty in Hlen. discriminate Hlen.
Qed.

(** X6.  [parsePaddlePayload] either fails with 400
    PADDLE_INVALID_PAYLOAD or returns an event whose id and type are not
    empty and carry no surrounding white space; it returns exactly when
    the body parses to an object whose [event_id] and [event_type] are
    strings that are not blank, and [data] is then the object under
    [data], or the empty object when there is none. *)
Theorem parsePaddlePayload_outcomes (rt : Runtime) (rawBody : string) :
  match parsePaddlePayload rt rawBody with
  | Returned payload =>
      PaddleWebhookPayload.eventId payload <> ""
      /\ PaddleWebhookPayload.eventType payload <> ""
      /\ Js.trim (PaddleWebhookPayload.eventId payload)
         = PaddleWebhookPayload.eventId payload
      /\ Js.trim (PaddleWebhookPayload.eventType payload)
         = PaddleWebhookPayload.eventType payload
      /\ exists root,
           JSON_parse rt rawBody = Some (JObj root)
           /\ readString (prop root "event_id")
              = Some (PaddleWebhookPayload.eventId payload)
           /\ readString (prop root "event_type")
              = Some (PaddleWebhookPayload.eventType payload)
           /\ PaddleWebhookPayload.data payload
              = match prop root "data" with
                | Some (JObj d) => d
                | _ => []
                end
  | Threw e =>
      (exists message,
         e = HttpError (LicenseHttpError.New 400 "PADDLE_INVALID_PAYLOAD"
                          message None))
      /\ forall root,
           JSON_parse rt rawBody = Some (JObj root) ->
           readString (prop root "event_id") = None
           \/ readString (prop root "event_type") = None
  end.
Proof.
  unfold parsePaddlePayload, httpError.
  destruct (JSON_parse rt rawBody) as [parsed |];
    [| split; [eexists; reflexivity | discriminate]].
  destruct parsed as [| b | n | s | items | root]; cbn [asRecord];
    try (split; [eexists; reflexivity | discriminate]).
  destruct (readString (prop root "event_id")) as [i |] eqn:Hid.
  2:{ split; [eexists; reflexivity |]. intros r [= <-]. left. exact Hid. }
  destruct (readString (prop root "event_type")) as [t |] eqn:Htype.
  2:{ split; [eexists; reflexivity |]. intros r [= <-]. right. exact Htype. }
  destruct (readString_trimmed _ _ Hid) as [Hi1 Hi2].
  destruct (readString_trimmed _ _ Htype) as [Ht1 Ht2].
  destruct (Js.truthy i) eqn:Hti; [| apply truthy_false in Hti; contradiction].
  destruct (Js.truthy t) eqn:Htt; [| apply truthy_false in Htt; contradiction].
  cbn [negb orb PaddleWebhookPayload.eventId PaddleWebhookPayload.eventType
       PaddleWebhookPayload.data].
  repeat (split; [assumption |]).
  exists root. split; [reflexivity |]. split; [exact Hid |]. split; [exact Htype |].
  destruct (prop root "data") as [[| | | | |] |]; reflexivity.
Qed.

(** ** Field extractors *)

Lemma firstString_trimmed (candidates : list (option JsValue)) (s : string) :
  firstString candidates = Some s -> s <> "" /\ Js.trim s = s.
Proof.
  induction candidates as [| c rest IH]; [discriminate |].
  cbn [firstString].
  destruct (readString c) as [v |] eqn:Hc; [| exact IH].
  destruct (Js.truthy v); [| exact IH].
  intros [= <-]. exact (readString_trimmed c v Hc).
Qed.

Lemma firstString_cons (c : option JsValue) (rest : list (option JsValue)) :
  firstString (c :: rest)
  = match readString c with
    | Some v => Some v
    | None => firstString rest
    end.
Proof.
  cbn [firstString]. destruct (readString c) as [v |] eqn:Hc; [| reflexivity].
  destruct (readString_trimmed c v Hc) as [Hne _].
  destruct (Js.truthy v) eqn:Ht; [reflexivity |].
  apply truthy_false in Ht. contradiction.
Qed.

(** X7.  [extractSubscriptionId] takes the first of [data.id],
    [data.subscription_id], [data.subscription.id] that is a string with
    something other than white space in it, trimmed; whatever it returns
    is not empty and has no surrounding white space, so the emptiness
    test that the service applies to it never fires.  [extractEmail]
    does the same with [data.email], [data.customer.email],
    [data.custom_data.email]. *)
Theorem extractors_first_nonblank_wins (data : UnknownRecord) :
  extractSubscriptionId data
  = match readString (prop data "id") with
    | Some s => Some s
    | None =>
        match readString (prop data "subscription_id") with
        | Some s => Some s
        | None =>
            readString (propOf (asRecord (prop data "subscription")) "id")
        end
    end
  /\ extractEmail data
     = match readString (prop data "email") with
       | Some s => Some s
       | None =>
           match readString (propOf (asRecord (prop data "customer")) "email") with
           | Some s => Some s
           | None =>
               readString (propOf (asRecord (prop data "custom_data")) "email")
           end
       end
  /\ (forall s, extractSubscriptionId data = Some s -> s <> "" /\ Js.trim s = s)
  /\ (forall s, extractEmail data = Some s -> s <> "" /\ Js.trim s = s)
  /\ present (extractSubscriptionId data) = extractSubscriptionId data.
Proof.
  assert (Hnested : readNestedValue data ["subscription"; "id"]
                    = propOf (asRecord (prop data "subscription")) "id").
  { unfold readNestedValue. cbn [readNestedFrom asRecord].
    destruct (prop data "subscription") as [[| | | | | sub] |]; cbn [asRecord propOf];
      try reflexivity.
    destruct (prop sub "id"); reflexivity. }
  split; [| split; [| split; [| split]]].
  - unfold extractSubscriptionId. rewrite !firstString_cons, Hnested.
    cbn [firstString].
    destruct (readString (propOf _ "id")); reflexivity.
  - unfold extractEmail. rewrite !firstString_cons. cbn [firstString].
    destruct (readString (propOf (asRecord (prop data "custom_data")) "email"));
      reflexivity.
  - intros s. apply firstString_trimmed.
  - intros s. unfold extractEmail. apply firstString_trimmed.
  - destruct (extractSubscriptionId data) as [s |] eqn:Hs; [| reflexivity].
    destruct (firstString_trimmed _ _ Hs) as [Hne _].
    cbn [present]. destruct (Js.truthy s) eqn:Ht; [reflexivity |].
    apply truthy_false in Ht. contradiction.
Qed.

Lemma lowerChar_idempotent (c : ascii) :
  Js.lowerChar (Js.lowerChar c) = Js.lowerChar c.
Proof. destruct c as [[] [] [] [] [] [] [] []]; reflexivity. Qed.

Lemma toLowerCase_idempotent (s : string) :
  Js.toLowerCase (Js.toLowerCase s) = Js.toLowerCase s.
Proof.
  induction s as [| c s IH]; [reflexivity |].
  cbn [Js.toLowerCase]. rewrite lowerChar_idempotent, IH. reflexivity.
Qed.

(** X8.  Plans and device quotas.  A non-blank [custom_data.plan] is
    taken verbatim (trimmed) as the plan.  Otherwise the plan is one of
    "enterprise", "business", "pro", read off the first item's price id,
    and the quota that [deriveMaxDevices] gives it is 100, 10, 1
    respectively.  For any plan the quota is 100, 10 or 1, it does not
    depend on the case of the plan's letters, and it is 1 unless the plan
    is "enterprise" or "business" up to case.  A price id that mentions
    "enterprise" in any case gives the enterprise plan. *)
Theorem resolvePlan_and_quota (data : UnknownRecord) :
  let customPlan :=
    readString (propOf (asRecord (prop data "custom_data")) "plan") in
  (forall p, customPlan = Some p -> resolvePlan data = p)
  /\ (customPlan = None ->
      (resolvePlan data = "enterprise" /\ deriveMaxDevices (resolvePlan data) = 100)
      \/ (resolvePlan data = "business" /\ deriveMaxDevices (resolvePlan data) = 10)
      \/ (resolvePlan data = "pro" /\ deriveMaxDevices (resolvePlan data) = 1))
  /\ (forall plan,
        deriveMaxDevices plan = 100 /\ Js.toLowerCase plan = "enterprise"
        \/ deriveMaxDevices plan = 10 /\ Js.toLowerCase plan = "business"
        \/ deriveMaxDevices plan = 1)
  /\ (forall plan, deriveMaxDevices (Js.toLowerCase plan) = deriveMaxDevices plan)
  /\ (forall priceId,
        Js.includes (Js.toLowerCase priceId) "enterprise" = true ->
        derivePlanFromPriceId (Some priceId) = "enterprise").
Proof.
  cbv zeta. split; [| split; [| split; [| split]]].
  - intros p Hp. unfold resolvePlan. rewrite Hp. reflexivity.
  - intros Hnone. unfold resolvePlan. rewrite Hnone.
    match goal with
    | |- context [derivePlanFromPriceId ?x] => generalize x
    end.
    intros priceId. unfold derivePlanFromPriceId.
    destruct priceId as [p |]; [| right; right; split; reflexivity].
    destruct (negb (Js.truthy p)); [right; right; split; reflexivity |].
    destruct (Js.includes (Js.toLowerCase p) "enterprise");
      [left; split; reflexivity |].
    destruct (Js.includes (Js.toLowerCase p) "business");
      [right; left; split; reflexivity | right; right; split; reflexivity].
  - intros plan. unfold deriveMaxDevices.
    destruct (Js.toLowerCase plan =? "enterprise")%string eqn:He;
      [left; split; [reflexivity | apply String.eqb_eq, He] |].
    destruct (Js.toLowerCase plan =? "business")%string eqn:Hb;
      [right; left; split; [reflexivity | apply String.eqb_eq, Hb] |].
    right; right; reflexivity.
  - intros plan. unfold deriveMaxDevices. rewrite toLowerCase_idempotent. reflexivity.
  - intros priceId Henterprise. unfold derivePlanFromPriceId.
    destruct (Js.truthy priceId) eqn:Ht; cbn [negb].
    + rewrite Henterprise. reflexivity.
    + apply truthy_false in Ht. subst priceId. discriminate Henterprise.
Qed.

(** ** A webhook followed by a validation *)

Lemma find_map_same_key (g : License.t -> License.t) (k : string)
    (ls : list License.t) :
  (forall l, License.key (g l) = License.key l) ->
  find (fun l => (License.key l =? k)%string) (map g ls)
  = option_map g (find (fun l => (License.key l =? k)%string) ls).
Proof.
  intros Hkey. induction ls as [| l ls IH]; [reflexivity |].
  cbn [map find]. rewrite Hkey.
  destruct (License.key l =? k)%string; [reflexivity | exact IH].
Qed.

Lemma mapDeactivationStatus_values (eventType : string) :
  (mapDeactivationStatus eventType = "expired"
   \/ mapDeactivationStatus eventType = "paused"
   \/ mapDeactivationStatus eventType = "canceled")
  /\ mapDeactivationStatus eventType <> "active".
Proof.
  unfold mapDeactivationStatus.
  destruct (eventType =? "subscription.expired")%string;
    [split; [auto | discriminate] |].
  destruct (eventType =? "subscription.paused")%string;
    split; auto; discriminate.
Qed.

(** X9.  Deactivation blocks.  After a deactivating event that names a
    subscription has been applied, validating the key of a license linked
    to that subscription answers 403 LICENSE_BLOCKED, with the status that
    the event type maps to ("expired", "paused" or "canceled") in the
    details, whatever the license's status and expiry were before. *)
Theorem deactivation_blocks_validation
    (rt : Runtime) (this : LicenseService) (payload : PaddleWebhookPayload.t)
    (w : World) (key sub : string) (current : License.t) :
  db this = Some Connection ->
  has PADDLE_ACTIVATING_EVENTS (PaddleWebhookPayload.eventType payload) = false ->
  has PADDLE_DEACTIVATING_EVENTS (PaddleWebhookPayload.eventType payload) = true ->
  present (extractSubscriptionId (PaddleWebhookPayload.data payload)) = Some sub ->
  Js.trim key <> "" ->
  Js.startsWith (Js.trim key) (configuredPrefix this) = true ->
  find (fun l => (License.key l =? Js.trim key)%string) (licenses w)
    = Some current ->
  License.paddleSubscriptionId current = Some sub ->
  fst (validateLicenseKey rt this key
         (snd (applyPaddleLifecycle rt this payload w)))
  = Returned
      (LicenseValidationResult.Make false 403 "License is not active"
         "LICENSE_BLOCKED"
         (Some [ ("status",
                  JStr (mapDeactivationStatus
                          (PaddleWebhookPayload.eventType payload))) ])
         None).
Proof.
  intros Hdb Hact Hdeact Hsub Hne Hprefix Hfind Hlinked.
  rewrite apply_run. cbv zeta. rewrite Hact, Hdeact.
  rewrite (deactivate_run rt this _ _ _ Hdb), Hsub.
  replace (admitsSubscription rt sub _) with true.
  2:{ symmetry. unfold admitsSubscription. cbn [licenses logged].
      apply orb_true_iff. right. apply existsb_exists. exists current.
      split; [exact (proj1 (find_some _ _ Hfind)) |].
      rewrite Hlinked. apply String.eqb_refl. }
  rewrite validate_run. cbv zeta.
  destruct (Js.truthy (Js.trim key)) eqn:Ht;
    [| apply truthy_false in Ht; contradiction].
  cbn [negb]. rewrite Hprefix, Hdb. cbn [negb fst snd licenses setLicenses logged].
  rewrite find_map_same_key.
  2:{ intros l. destruct (optEqb (License.paddleSubscriptionId l) sub); reflexivity. }
  rewrite Hfind. cbn [option_map]. rewrite Hlinked. cbn [optEqb].
  rewrite String.eqb_refl. unfold judge. cbn [setStatus License.status].
  destruct (mapDeactivationStatus_values (PaddleWebhookPayload.eventType payload))
    as [_ Hnot].
  apply String.eqb_neq in Hnot. rewrite Hnot. reflexivity.
Qed.

Lemma deactivation_blocks_validation_witness :
  let payload :=
    PaddleWebhookPayload.Make "evt9" "subscription.paused"
      [ ("subscription_id", JStr " sub0 ") ] in
  db sampleService = Some Connection
  /\ present (extractSubscriptionId (PaddleWebhookPayload.data payload))
     = Some "sub0"
  /\ fst (validateLicenseKey sampleRuntime sampleService
            "AXON-0001-0203-0405-0607"
            (snd (applyPaddleLifecycle sampleRuntime sampleService payload
                    collidingWorld)))
     = Returned
         (LicenseValidationResult.Make false 403 "License is not active"
            "LICENSE_BLOCKED" (Some [ ("status", JStr "paused") ]) None).
Proof.
  cbv zeta. split; [reflexivity |]. split; [reflexivity |].
  apply (deactivation_blocks_validation sampleRuntime sampleService
           (PaddleWebhookPayload.Make "evt9" "subscription.paused"
              [ ("subscription_id", JStr " sub0 ") ])
           collidingWorld "AXON-0001-0203-0405-0607" "sub0"
           (License.Row 1 "AXON-0001-0203-0405-0607" None "active" "pro" 1
              (Some "sub0") 1800000000000 1699990000000 1699990000000));
    try reflexivity; discriminate.
Defined.

Lemma upperHex_not_space (c : ascii) :
  isUpperHex c = true -> Js.isWhiteSpace c = false.
Proof. destruct c as [[] [] [] [] [] [] [] []]; cbn; congruence. Qed.

Lemma hexGroup_without_space (g : string) :
  isHexGroup g = true ->
  allChars (fun c => negb (Js.isWhiteSpace c)) g = true.
Proof.
  destruct g as [| a [| b [| c [| d [| e g]]]]]; try discriminate.
  cbn [isHexGroup allChars]. intros H.
  apply andb_true_iff in H as [H Hd]. apply andb_true_iff in H as [H Hc].
  apply andb_true_iff in H as [Ha Hb].
  rewrite (upperHex_not_space a Ha), (upperHex_not_space b Hb),
          (upperHex_not_space c Hc), (upperHex_not_space d Hd).
  reflexivity.
Qed.

Lemma trimEnd_keeps_solid_end (a b : string) :
  allChars (fun c => negb (Js.isWhiteSpace c)) b = true ->
  b <> "" ->
  Js.trimEnd (a ++ b)%string = (a ++ b)%string.
Proof.
  intros Hb Hne. induction a as [| c a IH].
  - cbn [append]. apply trimEnd_without_space, Hb.
  - cbn [append Js.trimEnd]. rewrite IH.
    destruct (a ++ b)%string eqn:Hab; [| reflexivity].
    destruct a; cbn in Hab; [contradiction | discriminate].
Qed.

(** A generated key is its own trimmed form when the prefix does not
    begin with white space. *)
Lemma keyAt_trimmed (prefix : string) (source : nat -> Z) (pos : nat) :
  prefix <> "" -> noLeadingSpace prefix ->
  Js.trim (keyAt prefix source pos) = keyAt prefix source pos.
Proof.
  intros Hne Hlead. unfold Js.trim.
  assert (Hstart : Js.trimStart (keyAt prefix source pos) = keyAt prefix source pos).
  { apply trimStart_fixed. unfold keyAt, normalizePrefix.
    destruct prefix as [| c p]; [contradiction |].
    destruct (Js.endsWith (String c p) "-"); exact Hlead. }
  rewrite Hstart. unfold keyAt. apply trimEnd_keeps_solid_end.
  - rewrite !allChars_app.
    rewrite !(hexGroup_without_space _ (segmentAt_hexGroup _ _)). reflexivity.
  - pose proof (segmentAt_hexGroup source pos) as Hg.
    destruct (segmentAt source pos); [discriminate Hg | discriminate].
Qed.

Lemma find_app_fresh (k : string) (ls : list License.t) (row : License.t) :
  existsb (fun l => (License.key l =? k)%string) ls = false ->
  License.key row = k ->
  find (fun l => (License.key l =? k)%string) (ls ++ [row]) = Some row.
Proof.
  intros Hfree Hrow. induction ls as [| l ls IH].
  - cbn. rewrite Hrow, String.eqb_refl. reflexivity.
  - cbn [existsb] in Hfree. apply orb_false_iff in Hfree as [Hl Hls].
    cbn [app find]. rewrite Hl. apply IH, Hls.
Qed.

Lemma configuredPrefix_not_empty (this : LicenseService) :
  configuredPrefix this <> "".
Proof.
  unfold configuredPrefix. intros Hempty.
  pose proof (truthy_orElse (configService this "LICENSE_KEY_PREFIX") "AXON-"
                eq_refl) as Ht.
  rewrite Hempty in Ht. discriminate Ht.
Qed.

(** X10.  Activation enables.  When an activating payload for a
    subscription that no license carries is upserted successfully, its
    status is "active" and its expiry lies in the future, and the
    configured prefix does not begin with white space, then exactly one
    license is added, it is linked to the subscription, and validating
    its key at once answers 200 LICENSE_VALID with that license. *)
Theorem activation_enables_validation
    (rt : Runtime) (this : LicenseService) (data : UnknownRecord)
    (w : World) (sub : string) :
  db this = Some Connection ->
  present (extractSubscriptionId data) = Some sub ->
  subscriptionSeen w sub = false ->
  noLeadingSpace (configuredPrefix this) ->
  payloadStatus data = "active" ->
  now w < expiryOf rt data (now w) ->
  fst (upsertActiveLicense rt this data w) = Returned tt ->
  exists row,
    licenses (snd (upsertActiveLicense rt this data w)) = licenses w ++ [row]
    /\ License.paddleSubscriptionId row = Some sub
    /\ License.plan row = resolvePlan data
    /\ License.maxDevices row = deriveMaxDevices (resolvePlan data)
    /\ fst (validateLicenseKey rt this (License.key row)
              (snd (upsertActiveLicense rt this data w)))
       = Returned
           (LicenseValidationResult.Make true 200 "License is valid"
              "LICENSE_VALID" None (Some row)).
Proof.
  intros Hdb Hsub Hunseen Hlead Hstatus Hexpiry Hret.
  rewrite (upsert_run rt this data w sub Hdb Hsub) in *.
  assert (Hnone : find (fun l => optEqb (License.paddleSubscriptionId l) sub)
                       (licenses w) = None)
    by (apply find_none_existsb; exact Hunseen).
  rewrite Hnone in *.
  destruct (Pg_text rt sub); [| discriminate Hret].
  set (w1 := logged (SelectLicenseBySubscription sub) w) in *.
  destruct (insertWithFreshKey_run rt maxAttempts (configuredPrefix this)
              (extractEmail data) (payloadStatus data) (resolvePlan data)
              (deriveMaxDevices (resolvePlan data)) sub
              (expiryOf rt data (now w)) w1 Hunseen)
    as [(i & _ & _ & _ & Hfree & _ & Hlic & _ & Hnow & _)
       | [(i & _ & _ & _ & Hthrow & _)
         | (_ & Hthrow & _)]];
    [| rewrite Hthrow in Hret; discriminate Hret
     | rewrite Hthrow in Hret; discriminate Hret].
  change (licenses w1) with (licenses w) in Hlic.
  change (nextId w1) with (nextId w) in Hlic.
  change (now w1) with (now w) in Hlic, Hnow.
  change (keyTaken w1) with (keyTaken w) in Hfree.
  match type of Hlic with
  | _ = _ ++ [?r] => set (row := r) in *
  end.
  exists row. split; [exact Hlic |].
  split; [reflexivity |]. split; [reflexivity |]. split; [reflexivity |].
  rewrite validate_run. cbv zeta.
  assert (Hkey : Js.trim (License.key row) = License.key row).
  { apply keyAt_trimmed; [apply configuredPrefix_not_empty | exact Hlead]. }
  rewrite Hkey.
  assert (Hne : Js.truthy (License.key row) = true).
  { destruct (License.key row) eqn:Hk; [| reflexivity].
    pose proof (keyAt_startsWith (configuredPrefix this) (entropy w1)
                  (consumed w1 + 8 * i)) as Hstarts.
    change (License.key row)
      with (keyAt (configuredPrefix this) (entropy w1) (consumed w1 + 8 * i)) in Hk.
    rewrite Hk in Hstarts. unfold Js.startsWith in Hstarts.
    pose proof (configuredPrefix_not_empty this) as Hp.
    destruct (configuredPrefix this); [contradiction | discriminate Hstarts]. }
  rewrite Hne. cbn [negb].
  change (License.key row)
    with (keyAt (configuredPrefix this) (entropy w1) (consumed w1 + 8 * i)) at 1.
  rewrite keyAt_startsWith. cbn [negb]. rewrite Hdb. cbn [fst].
  rewrite Hlic, Hnow.
  rewrite (find_app_fresh (License.key row) (licenses w) row Hfree eq_refl).
  unfold judge. change (License.status row) with (payloadStatus data).
  rewrite Hstatus. cbn [String.eqb Ascii.eqb Bool.eqb negb].
  change (License.expiresAt row) with (expiryOf rt data (now w)).
  replace (expiryOf rt data (now w) <=? now w) with false
    by (symmetry; apply Z.leb_gt; exact Hexpiry).
  reflexivity.
Qed.

Lemma activation_enables_validation_witness :
  let data := [ ("id", JStr "sub1") ] in
  let run := upsertActiveLicense sampleRuntime sampleService data collidingWorld in
  subscriptionSeen collidingWorld "sub1" = false
  /\ payloadStatus data = "active"
  /\ now collidingWorld < expiryOf sampleRuntime data (now collidingWorld)
  /\ fst run = Returned tt
  /\ exists row,
       License.key row = "AXON-0809-0A0B-0C0D-0E0F"
       /\ fst (validateLicenseKey sampleRuntime sampleService (License.key row)
                 (snd run))
          = Returned
              (LicenseValidationResult.Make true 200 "License is valid"
                 "LICENSE_VALID" None (Some row)).
Proof.
  cbv zeta. split; [reflexivity |]. split; [reflexivity |].
  split; [reflexivity |]. split; [reflexivity |].
  destruct (activation_enables_validation sampleRuntime sampleService
              [ ("id", JStr "sub1") ] collidingWorld "sub1")
    as (row & Hlic & _ & _ & _ & Hvalid);
    try reflexivity.
  exists row. split; [| exact Hvalid].
  assert (Hlast : last (licenses (snd (upsertActiveLicense sampleRuntime
                                         sampleService [ ("id", JStr "sub1") ]
                                         collidingWorld))) row = row)
    by (rewrite Hlic; apply last_last).
  rewrite <- Hlast. reflexivity.
Defined.

(** ** What a webhook may change *)

Lemma upsert_outcome (rt : Runtime) (this : LicenseService)
    (data : UnknownRecord) (w : World) :
  db this = Some Connection ->
  (forall e,
     fst (upsertActiveLicense rt this data w) = Threw e ->
     licenses (snd (upsertActiveLicense rt this data w)) = licenses w
     /\ (e = subscriptionIdMissing \/ e = keyGenerationFailed
         \/ e = valueRefused))
  /\ exists added,
       map identityOf (licenses (snd (upsertActiveLicense rt this data w)))
       = map identityOf (licenses w) ++ added
       /\ (List.length added <= 1)%nat.
Proof.
  intros Hdb.
  destruct (present (extractSubscriptionId data)) as [sub |] eqn:Hsub.
  2:{ rewrite (upsert_without_subscription rt this data w Hdb Hsub). cbn [fst snd].
      split; [intros e [= <-]; auto |].
      exists []. rewrite app_nil_r. split; [reflexivity | cbn; lia]. }
  rewrite (upsert_run rt this data w sub Hdb Hsub).
  destruct (find _ (licenses w)) as [existing |] eqn:Hfind.
  - destruct (admitsChange rt _); cbn [fst snd licenses setLicenses logged].
    + split; [discriminate |].
      exists []. rewrite app_nil_r. split; [| cbn; lia].
      rewrite map_map. apply map_ext. intros l.
      destruct (License.id l =? License.id existing)%N; reflexivity.
    + split; [intros e [= <-]; auto |].
      exists []. rewrite app_nil_r. split; [reflexivity | cbn; lia].
  - apply find_none_existsb in Hfind.
    destruct (Pg_text rt sub).
    2:{ cbn [fst snd licenses logged]. split; [intros e [= <-]; auto |].
        exists []. rewrite app_nil_r. split; [reflexivity | cbn; lia]. }
    set (w1 := logged (SelectLicenseBySubscription sub) w).
    destruct (insertWithFreshKey_run rt maxAttempts (configuredPrefix this)
                (extractEmail data) (payloadStatus data) (resolvePlan data)
                (deriveMaxDevices (resolvePlan data)) sub
                (expiryOf rt data (now w)) w1 Hfind)
      as [(i & _ & _ & _ & _ & Hret & Hlic & _)
         | [(i & _ & _ & _ & Hthrow & Hlic & _)
           | (_ & Hthrow & Hlic & _)]].
    + split; [intros e He; rewrite Hret in He; discriminate He |].
      rewrite Hlic. change (licenses w1) with (licenses w).
      rewrite map_app. eexists. split; [reflexivity | cbn; lia].
    + split.
      * intros e He. rewrite Hthrow in He. injection He as <-.
        split; [exact Hlic | auto].
      * rewrite Hlic. change (licenses w1) with (licenses w).
        exists []. rewrite app_nil_r. split; [reflexivity | cbn; lia].
    + split.
      * intros e He. rewrite Hthrow in He. injection He as <-.
        split; [exact Hlic | auto].
      * rewrite Hlic. change (licenses w1) with (licenses w).
        exists []. rewrite app_nil_r. split; [reflexivity | cbn; lia].
Qed.

(** The same for a whole lifecycle application. *)
Lemma apply_outcome (rt : Runtime) (this : LicenseService)
    (payload : PaddleWebhookPayload.t) (w : World) :
  db this = Some Connection ->
  (forall e,
     fst (applyPaddleLifecycle rt this payload w) = Threw e ->
     licenses (snd (applyPaddleLifecycle rt this payload w)) = licenses w
     /\ (e = subscriptionIdMissing \/ e = keyGenerationFailed
         \/ e = valueRefused))
  /\ exists added,
       map identityOf (licenses (snd (applyPaddleLifecycle rt this payload w)))
       = map identityOf (licenses w) ++ added
       /\ (List.length added <= 1)%nat.
Proof.
  intros Hdb. rewrite apply_run. cbv zeta.
  set (w0 := logged (Applying (PaddleWebhookPayload.eventId payload)) w).
  destruct (has PADDLE_ACTIVATING_EVENTS _).
  - destruct (upsert_outcome rt this (PaddleWebhookPayload.data payload) w0 Hdb)
      as [Hthrow Hgrow].
    change (licenses w0) with (licenses w) in Hthrow, Hgrow.
    destruct (upsertActiveLicense _ _ _ _) as [[[] | e] w1]; cbn [fst snd] in *.
    + split; [discriminate | exact Hgrow].
    + split; [| exact Hgrow]. intros e' [= <-]. apply Hthrow. reflexivity.
  - destruct (has PADDLE_DEACTIVATING_EVENTS _).
    + rewrite (deactivate_run rt this _ _ w0 Hdb).
      destruct (present (extractSubscriptionId _)) as [sub |];
        [destruct (admitsSubscription rt sub w0) |];
        cbn [fst snd licenses setLicenses logged].
      * split; [discriminate |]. exists []. rewrite app_nil_r.
        split; [| cbn; lia]. rewrite map_map. apply map_ext. intros l.
        destruct (optEqb (License.paddleSubscriptionId l) sub); reflexivity.
      * split; [intros e [= <-]; auto |]. exists []. rewrite app_nil_r.
        split; [reflexivity | cbn; lia].
      * split; [discriminate |]. exists []. rewrite app_nil_r.
        split; [reflexivity | cbn; lia].
    + cbn [fst snd]. split; [discriminate |]. exists []. rewrite app_nil_r.
      split; [reflexivity | cbn; lia].
Qed.

Lemma parsePayload_throws (rt : Runtime) (rawBody : string) (e : Thrown) :
  parsePaddlePayload rt rawBody = Threw e ->
  exists message,
    e = HttpError (LicenseHttpError.New 400 "PADDLE_INVALID_PAYLOAD" message None).
Proof.
  unfold parsePaddlePayload, httpError.
  destruct (JSON_parse rt rawBody) as [parsed |];
    [| intros [= <-]; eexists; reflexivity].
  destruct (asRecord (Some parsed)) as [root |];
    [| intros [= <-]; eexists; reflexivity].
  destruct (readString (prop root "event_id")) as [i |];
    [| intros [= <-]; eexists; reflexivity].
  destruct (readString (prop root "event_type")) as [t |];
    [| intros [= <-]; eexists; reflexivity].
  destruct (negb (Js.truthy i) || negb (Js.truthy t));
    [intros [= <-]; eexists; reflexivity | discriminate].
Qed.

Lemma verify_throws (this : LicenseService) (rawBody : string)
    (signatureHeader : option string) (w : World) (e : Thrown) :
  fst (verifyPaddleSignature this rawBody signatureHeader w) = Threw e ->
  isWebhookError e = true.
Proof.
  rewrite verify_run.
  destruct (present _); [| intros [= <-]; reflexivity].
  destruct (parsePaddleSignatureHeader signatureHeader) as [p | e'] eqn:Hparse.
  - destruct (expired _ _ _); [intros [= <-]; reflexivity |]. cbv zeta.
    destruct (_ =? 32)%nat; cbn [fst]; [| intros [= <-]; reflexivity].
    destruct (bytesEqual _ _); [discriminate | intros [= <-]; reflexivity].
  - cbn [fst]. intros [= <-].
    pose proof (parse_header_throws _ _ Hparse) as Hverdict.
    destruct e' as [h | |]; cbn [verdictOf] in Hverdict; try discriminate.
    injection Hverdict as Hv. cbn [isWebhookError].
    destruct (present signatureHeader); injection Hv as -> ->; reflexivity.
Qed.

(** X12.  A webhook call that throws, at whatever stage, leaves both
    tables exactly as it found them: no license is created or changed,
    and the ledger holds the rows it held. *)
Theorem processPaddleWebhook_failure_changes_nothing
    (rt : Runtime) (this : LicenseService) (rawBody : string)
    (signatureHeader : option string) (w : World) (e : Thrown) :
  fst (processPaddleWebhook rt this rawBody signatureHeader w) = Threw e ->
  licenses (snd (processPaddleWebhook rt this rawBody signatureHeader w))
    = licenses w
  /\ processedEvents (snd (processPaddleWebhook rt this rawBody signatureHeader w))
     = processedEvents w.
Proof.
  rewrite process_run.
  pose proof (verify_quietly this rawBody signatureHeader w) as [(Hl & He & _) _].
  destruct (verifyPaddleSignature this rawBody signatureHeader w) as [[[] | e0] w0];
    cbn [snd] in *; [| intros _; split; assumption].
  destruct (parsePaddlePayload rt rawBody) as [payload | e0];
    [| intros _; split; assumption].
  cbv zeta. destruct (db this) as [[] |] eqn:Hdb; [| intros _; split; assumption].
  set (eventId := PaddleWebhookPayload.eventId payload).
  destruct (eventClaimed w0 eventId) eqn:Hclaimed; [discriminate |].
  pose proof (apply_frame rt this payload
                (snd (insertProcessedEvent eventId "paddle" w0))) as (Hev & _ & _).
  destruct (apply_outcome rt this payload
              (snd (insertProcessedEvent eventId "paddle" w0)) Hdb) as [Hthrow _].
  destruct (applyPaddleLifecycle rt this payload _) as [[action | e0] w2];
    [discriminate |].
  cbn [fst snd] in *. intros _.
  destruct (Hthrow e0 eq_refl) as [Hlic _].
  rewrite deleteProcessedEvent_run.
  cbn [snd licenses processedEvents setProcessedEvents logged].
  rewrite Hlic, Hev, insertProcessedEvent_run, Hclaimed.
  cbn [snd licenses processedEvents logged bumpId setProcessedEvents].
  split; [exact Hl |].
  rewrite filter_app. cbn [filter ProcessedEvent.eventId].
  unfold eventId. rewrite String.eqb_refl. cbn [negb]. rewrite app_nil_r.
  rewrite <- He. apply filter_unclaimed. exact Hclaimed.
Qed.

Lemma processPaddleWebhook_failure_changes_nothing_witness :
  fst (processPaddleWebhook sampleRuntime sampleService updatedBody
         (Some updatedSignature) collidingWorld)
  = Threw subscriptionIdMissing
  /\ licenses
       (snd (processPaddleWebhook sampleRuntime sampleService updatedBody
               (Some updatedSignature) collidingWorld))
     = licenses collidingWorld.
Proof.
  assert (Hthrow :
            fst (processPaddleWebhook sampleRuntime sampleService updatedBody
                   (Some updatedSignature) collidingWorld)
            = Threw subscriptionIdMissing) by (vm_compute; reflexivity).
  split; [exact Hthrow |].
  apply (processPaddleWebhook_failure_changes_nothing sampleRuntime sampleService
           updatedBody (Some updatedSignature) collidingWorld
           subscriptionIdMissing Hthrow).
Defined.

(** X13.  No webhook deletes a license or rewrites its id, key,
    subscription link or creation time: the list of these columns after
    [processPaddleWebhook] is the list before it, followed by at most one
    new license; and the event ids in the ledger are those before it,
    followed by at most one.  This holds for every outcome. *)
Theorem processPaddleWebhook_footprint
    (rt : Runtime) (this : LicenseService) (rawBody : string)
    (signatureHeader : option string) (w : World) :
  let after := snd (processPaddleWebhook rt this rawBody signatureHeader w) in
  (exists added,
     map identityOf (licenses after) = map identityOf (licenses w) ++ added
     /\ (List.length added <= 1)%nat)
  /\ (exists claimed,
        map ProcessedEvent.eventId (processedEvents after)
        = map ProcessedEvent.eventId (processedEvents w) ++ claimed
        /\ (List.length claimed <= 1)%nat).
Proof.
  cbv zeta. rewrite process_run.
  pose proof (verify_quietly this rawBody signatureHeader w) as [(Hl & He & _) _].
  assert (Hidle : forall w0 : World,
             licenses w0 = licenses w -> processedEvents w0 = processedEvents w ->
             (exists added,
                map identityOf (licenses w0) = map identityOf (licenses w) ++ added
                /\ (List.length added <= 1)%nat)
             /\ (exists claimed,
                   map ProcessedEvent.eventId (processedEvents w0)
                   = map ProcessedEvent.eventId (processedEvents w) ++ claimed
                   /\ (List.length claimed <= 1)%nat)).
  { intros w0 -> ->. split; exists []; rewrite app_nil_r; split; cbn; auto. }
  destruct (verifyPaddleSignature this rawBody signatureHeader w) as [[[] | e0] w0];
    cbn [snd] in *; [| apply Hidle; assumption].
  destruct (parsePaddlePayload rt rawBody) as [payload | e0];
    [| apply Hidle; assumption].
  cbv zeta. destruct (db this) as [[] |] eqn:Hdb; [| apply Hidle; assumption].
  set (eventId := PaddleWebhookPayload.eventId payload).
  destruct (eventClaimed w0 eventId) eqn:Hclaimed;
    [cbn [snd]; apply Hidle; assumption |].
  pose proof (apply_frame rt this payload
                (snd (insertProcessedEvent eventId "paddle" w0))) as (Hev & _ & _).
  destruct (apply_outcome rt this payload
              (snd (insertProcessedEvent eventId "paddle" w0)) Hdb)
    as [_ (added & Hadded & Hlen)].
  assert (Hrow : licenses (snd (insertProcessedEvent eventId "paddle" w0))
                 = licenses w
                 /\ processedEvents (snd (insertProcessedEvent eventId "paddle" w0))
                    = processedEvents w
                        ++ [ProcessedEvent.Row (nextId w0) eventId "paddle" (now w0)]).
  { rewrite insertProcessedEvent_run, Hclaimed.
    cbn [snd licenses processedEvents logged bumpId setProcessedEvents].
    rewrite Hl, He. split; reflexivity. }
  destruct Hrow as [Hl1 He1]. rewrite Hl1 in Hadded. rewrite He1 in Hev.
  destruct (applyPaddleLifecycle rt this payload _) as [[action | e0] w2];
    cbn [snd] in *.
  - split; [exists added; auto |].
    rewrite Hev, map_app. eexists. split; [reflexivity | cbn; lia].
  - rewrite deleteProcessedEvent_run.
    cbn [snd licenses processedEvents setProcessedEvents logged].
    split; [exists added; auto |].
    rewrite Hev, filter_app. cbn [filter ProcessedEvent.eventId].
    unfold eventId. rewrite String.eqb_refl. cbn [negb]. rewrite app_nil_r.
    rewrite filter_unclaimed by (rewrite <- He; exact Hclaimed).
    exists []. rewrite app_nil_r. split; [reflexivity | cbn; lia].
Qed.
(** ** Errors of the webhook path and the controller *)

Lemma process_throws (rt : Runtime) (this : LicenseService) (rawBody : string)
    (signatureHeader : option string) (w : World) (e : Thrown) :
  fst (processPaddleWebhook rt this rawBody signatureHeader w) = Threw e ->
  isWebhookError e = true.
Proof.
  rewrite process_run.
  pose proof (verify_throws this rawBody signatureHeader w) as Hverify.
  destruct (verifyPaddleSignature this rawBody signatureHeader w) as [[[] | e0] w0];
    cbn [fst] in *; [| intros [= <-]; apply Hverify; reflexivity].
  destruct (parsePaddlePayload rt rawBody) as [payload | e0] eqn:Hparse.
  2:{ intros [= <-]. destruct (parsePayload_throws rt rawBody e0 Hparse) as [m ->].
      reflexivity. }
  cbv zeta. destruct (db this) as [[] |] eqn:Hdb; [| intros [= <-]; reflexivity].
  destruct (eventClaimed w0 _); [discriminate |].
  destruct (apply_outcome rt this payload
              (snd (insertProcessedEvent (PaddleWebhookPayload.eventId payload)
                      "paddle" w0)) Hdb) as [Hthrow _].
  destruct (applyPaddleLifecycle rt this payload _) as [[action | e0] w2];
    cbn [fst] in *; [discriminate |].
  intros [= <-]. destruct (Hthrow e0 eq_refl) as [_ [-> | [-> | ->]]]; reflexivity.
Qed.

Lemma isWebhookError_listed (h : LicenseHttpError.t) :
  isWebhookError (HttpError h) = true ->
  In (LicenseHttpError.statusCode h, LicenseHttpError.code h) webhookErrors.
Proof.
  cbn [isWebhookError]. intros Hlisted.
  apply existsb_exists in Hlisted as ((s, c) & Hin & Heq).
  unfold pairEqb in Heq. cbn [fst snd] in Heq.
  apply andb_true_iff in Heq as [Hs Hc].
  apply Z.eqb_eq in Hs. apply String.eqb_eq in Hc. rewrite Hs, Hc. exact Hin.
Qed.

(** X14.  Whenever [processPaddleWebhook] fails with a
    [LicenseHttpError], the error carries one of eight (status, code)
    pairs; and the length error of [timingSafeEqual] never escapes the
    service.  What else it can throw is an error of the datastore. *)
Theorem processPaddleWebhook_error_taxonomy
    (rt : Runtime) (this : LicenseService) (rawBody : string)
    (signatureHeader : option string) (w : World) (e : Thrown) :
  fst (processPaddleWebhook rt this rawBody signatureHeader w) = Threw e ->
  match e with
  | HttpError h =>
      In (LicenseHttpError.statusCode h, LicenseHttpError.code h) webhookErrors
  | TimingSafeEqualLength => False
  | DatastoreError _ => True
  end.
Proof.
  intros Hthrow. apply process_throws in Hthrow.
  destruct e as [h | | reason];
    [apply isWebhookError_listed, Hthrow | discriminate Hthrow | exact I].
Qed.

Lemma processPaddleWebhook_error_taxonomy_witness :
  fst (processPaddleWebhook sampleRuntime sampleService updatedBody
         (Some updatedSignature) collidingWorld)
  = Threw subscriptionIdMissing
  /\ In (400, "PADDLE_SUBSCRIPTION_ID_MISSING") webhookErrors.
Proof.
  assert (Hthrow :
            fst (processPaddleWebhook sampleRuntime sampleService updatedBody
                   (Some updatedSignature) collidingWorld)
            = Threw subscriptionIdMissing) by (vm_compute; reflexivity).
  split; [exact Hthrow |].
  apply (processPaddleWebhook_error_taxonomy sampleRuntime sampleService
           updatedBody (Some updatedSignature) collidingWorld
           subscriptionIdMissing Hthrow).
Defined.

(** X15.  The webhook endpoint.  [paddleWebhook] always completes, with
    the state that the service left.  It replies with the service's
    result when the service returns.  When the service throws a
    [LicenseHttpError], it raises an [HttpException] with the status,
    message, code and details of that error, whose (status, code) pair
    is one of the eight of the webhook path; when the service throws
    anything else, such as an error of the datastore, it raises 500
    PADDLE_PROCESSING_ERROR.  So PADDLE_PROCESSING_ERROR is the answer
    exactly to the errors that are no [LicenseHttpError]. *)
Theorem paddleWebhook_mirrors_service
    (rt : Runtime) (JSON_stringify : JsValue -> string)
    (licenseService : LicenseService) (req : RequestWithRawBody)
    (paddleSignature : option string) (w : World) :
  let served :=
    processPaddleWebhook rt licenseService (rawBodyOf JSON_stringify req)
      paddleSignature w in
  let answered :=
    paddleWebhook rt JSON_stringify licenseService req paddleSignature w in
  snd answered = snd served
  /\ match fst answered with
     | Returned (Replied result) => fst served = Returned result
     | Returned (Raised x) =>
         exists e,
           fst served = Threw e
           /\ match e with
              | HttpError h =>
                  x = HttpException.New
                        (LicenseHttpError.statusCode h)
                        (LicenseHttpError.statusCode h)
                        (LicenseHttpError.message h)
                        (LicenseHttpError.code h)
                        (LicenseHttpError.details h) None
                  /\ In (HttpException.status x, HttpException.code x)
                        webhookErrors
                  /\ HttpException.code x <> "PADDLE_PROCESSING_ERROR"
              | _ => x = processingError
              end
     | Threw _ => False
     end.
Proof.
  cbv zeta. unfold paddleWebhook, tryCatch, bind.
  pose proof (process_throws rt licenseService (rawBodyOf JSON_stringify req)
                paddleSignature w) as Hthrows.
  destruct (processPaddleWebhook rt licenseService (rawBodyOf JSON_stringify req)
              paddleSignature w) as [[result | e] w1]; cbn [fst snd] in *.
  - split; reflexivity.
  - specialize (Hthrows e eq_refl).
    destruct e as [h | | reason]; cbn [ret fst snd];
      (split; [reflexivity |]); eexists; (split; [reflexivity |]);
      try reflexivity.
    split; [reflexivity |].
    pose proof (isWebhookError_listed h Hthrows) as Hin.
    cbn [HttpException.status HttpException.code].
    split; [exact Hin |].
    intros Hcode. rewrite Hcode in Hin. cbn [webhookErrors In] in Hin.
    repeat (destruct Hin as [Hin | Hin]; [discriminate Hin |]). exact Hin.
Qed.

(** The two kinds of failure at the endpoint: a delivery without a
    subscription id is answered with the service's 400, and one whose
    license the datastore does not take (the key is too long for its
    column) with 500 PADDLE_PROCESSING_ERROR. *)
Example paddleWebhook_answers_400_and_500 :
  fst (paddleWebhook sampleRuntime (fun _ => EmptyString) sampleService
         (rawRequest updatedBody) (Some updatedSignature)
         (emptyWorld 1700000000000))
  = Returned
      (Raised (HttpException.New 400 400
                 "Paddle event is missing subscription id"
                 "PADDLE_SUBSCRIPTION_ID_MISSING" None None))
  /\ fst (paddleWebhook sampleRuntime (fun _ => EmptyString) longPrefixService
            (rawRequest createdBody) (Some createdSignature)
            (emptyWorld 1700000000000))
     = Returned (Raised processingError).
Proof. split; vm_compute; reflexivity. Qed.

(** ** The gate and the validation endpoint *)

Lemma validate_trimmed (rt : Runtime) (this : LicenseService) (key : string)
    (w : World) :
  validateLicenseKey rt this (Js.trim key) w = validateLicenseKey rt this key w.
Proof. rewrite !validate_run. cbv zeta. rewrite trim_idempotent. reflexivity. Qed.

Lemma validate_blank (rt : Runtime) (this : LicenseService) (key : string)
    (w : World) :
  Js.truthy (Js.trim key) = false ->
  validateLicenseKey rt this key w
  = (Returned (invalid 401 "LICENSE_REQUIRED"
                 "License key is required for hosted access" None), w).
Proof. intros Hblank. rewrite validate_run. cbv zeta. rewrite Hblank. reflexivity. Qed.

(** X16.  The gate and the endpoint agree.  With enforcement on, a
    request that carries a key in [x-license-key] passes [use] exactly
    when [validateLicense] replies for that key in the same state, and
    the license stored on the request is the one whose plan and expiry
    the endpoint reports; otherwise the gate responds with the status,
    message, code and details of the exception the endpoint raises
    (for a blank key as well, which the gate answers on its own).  Both
    leave the same state behind. *)
Theorem use_agrees_with_validateLicense
    (rt : Runtime) (this : LicenseService) (key : string) (w : World) :
  isEnforced this = true ->
  snd (use (H := serviceGate rt) this (requestWithKey key) w)
  = snd (validateLicense rt this key w)
  /\ match fst (validateLicense rt this key w),
           fst (use (H := serviceGate rt) this (requestWithKey key) w) with
     | Returned (Replied reply), Returned (req', Next) =>
         exists current,
           LicensedRequest.license req' = Some current
           /\ ValidateReply.plan reply = Some (License.plan current)
           /\ ValidateReply.expiresAt reply
              = Some (Date_toISOString rt (License.expiresAt current))
     | Returned (Raised x), Returned (req', Respond status denial) =>
         LicensedRequest.license req' = None
         /\ status = HttpException.status x
         /\ Denial.statusCode denial = HttpException.statusCode x
         /\ Denial.message denial = HttpException.message x
         /\ Denial.code denial = HttpException.code x
         /\ Denial.details denial = HttpException.details x
     | _, _ => False
     end.
Proof.
  intros Henforced. unfold use, validateLicense.
  cbn [gate_isEnforced gate_validateLicenseKey serviceGate].
  rewrite Henforced. cbn [negb].
  cbn [requestWithKey LicensedRequest.headers String.eqb Ascii.eqb Bool.eqb
       readHeaderValue].
  destruct (Js.truthy (Js.trim key)) eqn:Hkey; cbn [negb].
  - unfold bind. rewrite validate_trimmed.
    pose proof (validate_valid_license rt this key w) as Hvalid.
    pose proof (validate_returns rt this key w) as [returned Hreturned].
    destruct (validateLicenseKey rt this key w) as [[result | e] w1];
      cbn [fst snd] in *; [| discriminate Hreturned].
    destruct (LicenseValidationResult.valid result) eqn:Hv; cbn [negb ret fst snd].
    + split; [reflexivity |].
      destruct (Hvalid result eq_refl Hv) as (current & Hcurrent & _).
      exists current. cbn [LicensedRequest.license ValidateReply.plan
                           ValidateReply.expiresAt].
      rewrite Hcurrent. repeat split.
    + split; [reflexivity |]. repeat split.
  - unfold bind. rewrite (validate_blank rt this key w Hkey).
    cbn [invalid LicenseValidationResult.valid negb ret fst snd
         LicenseValidationResult.statusCode LicenseValidationResult.message
         LicenseValidationResult.code LicenseValidationResult.details].
    split; [reflexivity |]. repeat split.
Qed.

Lemma use_agrees_with_validateLicense_witness :
  isEnforced sampleService = true
  /\ snd (use (H := serviceGate sampleRuntime) sampleService
            (requestWithKey " AXON-VALID-KEY ")
            (worldWith [buildLicense "active" 1800000000000] 1700000000000))
     = snd (validateLicense sampleRuntime sampleService " AXON-VALID-KEY "
              (worldWith [buildLicense "active" 1800000000000] 1700000000000)).
Proof.
  split; [reflexivity |].
  destruct (use_agrees_with_validateLicense sampleRuntime sampleService
              " AXON-VALID-KEY "
              (worldWith [buildLicense "active" 1800000000000] 1700000000000)
              eq_refl) as [Hsame _].
  exact Hsame.
Defined.
(** ** Keys and the random bytes behind them *)

Lemma unhex_upper_hexDigit (n : Z) :
  0 <= n < 16 -> Buffer.unhex (Js.upperChar (Buffer.hexDigit n)) = Some n.
Proof.
  intros Hn. rewrite <- (Z2Nat.id n) by lia.
  assert (Hk : (Z.to_nat n < 16)%nat) by lia.
  revert Hk. generalize (Z.to_nat n) as k. intros k Hk.
  do 16 (destruct k as [| k]; [reflexivity |]). lia.
Qed.

(** Decoding a group gives back the two bytes it was built from. *)
Lemma segmentAt_decodes (source : nat -> Z) (pos : nat) :
  Buffer.fromHex (segmentAt source pos)
  = [ source pos mod 256; source (pos + 1)%nat mod 256 ].
Proof.
  unfold segmentAt. cbn [Buffer.toHex Js.toUpperCase Buffer.fromHex].
  assert (Hbyte : forall b, 0 <= b mod 256 < 256)
    by (intros b; apply Z.mod_pos_bound; lia).
  assert (Hhi : forall b, 0 <= (b mod 256) / 16 < 16).
  { intros b. specialize (Hbyte b).
    split; [apply Z.div_pos; lia | apply Z.div_lt_upper_bound; lia]. }
  assert (Hlo : forall b, 0 <= (b mod 256) mod 16 < 16)
    by (intros b; apply Z.mod_pos_bound; lia).
  rewrite !unhex_upper_hexDigit by auto.
  rewrite <- !Z.div_mod by lia. reflexivity.
Qed.

Lemma segmentAt_length (source : nat -> Z) (pos : nat) :
  String.length (segmentAt source pos) = 4%nat.
Proof. reflexivity. Qed.

Lemma append_length (a b : string) :
  String.length (a ++ b) = (String.length a + String.length b)%nat.
Proof. induction a as [| c a IH]; cbn; [| rewrite IH]; reflexivity. Qed.

Lemma append_cancel_head (p a b : string) :
  (p ++ a = p ++ b)%string -> a = b.
Proof.
  induction p as [| c p IH]; cbn [append]; [auto |].
  intros [= H]. apply IH, H.
Qed.

(** Two strings that start with a group of four split at the same place. *)
Lemma group_split (source source' : nat -> Z) (pos pos' : nat) (r r' : string) :
  (segmentAt source pos ++ r = segmentAt source' pos' ++ r')%string ->
  segmentAt source pos = segmentAt source' pos' /\ r = r'.
Proof.
  unfold segmentAt. cbn [Buffer.toHex Js.toUpperCase append].
  intros [= -> -> -> -> ->]. split; reflexivity.
Qed.

Lemma keyAt_groups (prefix : string) (source source' : nat -> Z)
    (pos pos' : nat) :
  keyAt prefix source pos = keyAt prefix source' pos' ->
  segmentAt source pos = segmentAt source' pos'
  /\ segmentAt source (pos + 2) = segmentAt source' (pos' + 2)
  /\ segmentAt source (pos + 4) = segmentAt source' (pos' + 4)
  /\ segmentAt source (pos + 6) = segmentAt source' (pos' + 6).
Proof.
  unfold keyAt. intros Hkey. apply append_cancel_head in Hkey.
  apply group_split in Hkey as [H1 Hkey]. apply (append_cancel_head "-") in Hkey.
  apply group_split in Hkey as [H2 Hkey]. apply (append_cancel_head "-") in Hkey.
  apply group_split in Hkey as [H3 Hkey]. apply (append_cancel_head "-") in Hkey.
  auto.
Qed.

Lemma keyBytes_groups (source : nat -> Z) (pos : nat) :
  keyBytes source pos
  = Buffer.fromHex (segmentAt source pos)
      ++ Buffer.fromHex (segmentAt source (pos + 2))
      ++ Buffer.fromHex (segmentAt source (pos + 4))
      ++ Buffer.fromHex (segmentAt source (pos + 6)).
Proof.
  rewrite !segmentAt_decodes. unfold keyBytes. cbn [seq map app].
  repeat (f_equal; try lia).
Qed.

Lemma segmentAt_bytes (source source' : nat -> Z) (pos pos' : nat) :
  source pos mod 256 = source' pos' mod 256 ->
  source (pos + 1)%nat mod 256 = source' (pos' + 1)%nat mod 256 ->
  segmentAt source pos = segmentAt source' pos'.
Proof. unfold segmentAt. intros -> ->. reflexivity. Qed.

(** X17.  A generated key is a faithful print of its random bytes: two
    keys that [buildLicenseKey] builds under the same prefix are equal
    exactly when the eight random bytes drawn for them are equal, so
    keys collide only when the random source repeats itself; and a key
    is always 19 characters longer than the prefix made to end with a
    dash. *)
Theorem buildLicenseKey_prints_its_bytes (prefix : string) (w1 w2 : World) :
  (fst (buildLicenseKey prefix w1) = fst (buildLicenseKey prefix w2)
   <-> keyBytes (entropy w1) (consumed w1) = keyBytes (entropy w2) (consumed w2))
  /\ exists key,
       fst (buildLicenseKey prefix w1) = Returned key
       /\ String.length key = (String.length (normalizePrefix prefix) + 19)%nat
       /\ consumed (snd (buildLicenseKey prefix w1)) = (consumed w1 + 8)%nat.
Proof.
  rewrite !buildLicenseKey_run. cbn [fst snd]. split.
  - split.
    + intros [= Hkey]. apply keyAt_groups in Hkey as (H1 & H2 & H3 & H4).
      rewrite !keyBytes_groups, H1, H2, H3, H4. reflexivity.
    + unfold keyBytes. cbn [seq map]. intros [= H0 H1 H2 H3 H4 H5 H6 H7].
      rewrite !Nat.add_0_r in H0.
      unfold keyAt. f_equal.
      rewrite (segmentAt_bytes (entropy w1) (entropy w2)
                 (consumed w1) (consumed w2) H0 H1).
      rewrite (segmentAt_bytes (entropy w1) (entropy w2)
                 (consumed w1 + 2) (consumed w2 + 2)).
      2:{ exact H2. }
      2:{ replace (consumed w1 + 2 + 1)%nat with (consumed w1 + 3)%nat by lia.
          replace (consumed w2 + 2 + 1)%nat with (consumed w2 + 3)%nat by lia.
          exact H3. }
      rewrite (segmentAt_bytes (entropy w1) (entropy w2)
                 (consumed w1 + 4) (consumed w2 + 4)).
      2:{ exact H4. }
      2:{ replace (consumed w1 + 4 + 1)%nat with (consumed w1 + 5)%nat by lia.
          replace (consumed w2 + 4 + 1)%nat with (consumed w2 + 5)%nat by lia.
          exact H5. }
      rewrite (segmentAt_bytes (entropy w1) (entropy w2)
                 (consumed w1 + 6) (consumed w2 + 6)).
      2:{ exact H6. }
      2:{ replace (consumed w1 + 6 + 1)%nat with (consumed w1 + 7)%nat by lia.
          replace (consumed w2 + 6 + 1)%nat with (consumed w2 + 7)%nat by lia.
          exact H7. }
      reflexivity.
  - eexists. split; [reflexivity |]. split; [| reflexivity].
    unfold keyAt. rewrite append_length. reflexivity.
Qed.
(** ** Renewal *)

Lemma find_unique_key (ls : list License.t) (x : License.t) :
  NoDup (map License.key ls) ->
  In x ls ->
  find (fun l => (License.key l =? License.key x)%string) ls = Some x.
Proof.
  induction ls as [| l ls IH]; [intros _ [] |].
  cbn [map find]. intros Hnd Hin. inversion Hnd as [| k ks Hfresh Hrest]; subst.
  destruct Hin as [-> | Hin].
  - rewrite String.eqb_refl. reflexivity.
  - destruct (License.key l =? License.key x)%string eqn:Hk; [| apply IH; assumption].
    apply String.eqb_eq in Hk. exfalso. apply Hfresh. rewrite Hk.
    apply in_map, Hin.
Qed.

(** X18.  Renewal decides.  When an activating payload names a
    subscription that a license already carries and the datastore takes
    the values of the update, [upsertActiveLicense] returns, adds no
    license, and rewrites that license in place: id, key, subscription
    link and creation time stay, the e-mail address stays unless the
    payload brings one.  Validating the license's key afterwards no
    longer depends on what the license was: it is valid exactly when the
    payload's status is "active" (which it is when the payload has none)
    and the expiry read from the payload lies in the future, and it is
    LICENSE_BLOCKED whenever the payload's status is something else.
    Keys are assumed unique and stored as the validator looks them up:
    not empty, trimmed, with the configured prefix. *)
Theorem renewal_decides_validation
    (rt : Runtime) (this : LicenseService) (data : UnknownRecord)
    (w : World) (sub : string) (existing : License.t) :
  NoDup (map License.key (licenses w)) ->
  db this = Some Connection ->
  present (extractSubscriptionId data) = Some sub ->
  find (fun l => optEqb (License.paddleSubscriptionId l) sub) (licenses w)
    = Some existing ->
  License.key existing <> "" ->
  Js.trim (License.key existing) = License.key existing ->
  Js.startsWith (License.key existing) (configuredPrefix this) = true ->
  admitsChange rt (refresh rt data w existing) = true ->
  fst (upsertActiveLicense rt this data w) = Returned tt
  /\ List.length (licenses (snd (upsertActiveLicense rt this data w)))
     = List.length (licenses w)
  /\ exists result renewed,
       fst (validateLicenseKey rt this (License.key existing)
              (snd (upsertActiveLicense rt this data w)))
         = Returned result
       /\ find (fun l => (License.key l =? License.key existing)%string)
               (licenses (snd (upsertActiveLicense rt this data w)))
          = Some renewed
       /\ identityOf renewed = identityOf existing
       /\ License.email renewed
          = orElseOpt (extractEmail data) (License.email existing)
       /\ (LicenseValidationResult.valid result = true
           <-> payloadStatus data = "active"
               /\ now w < expiryOf rt data (now w))
       /\ (LicenseValidationResult.valid result = true ->
           LicenseValidationResult.license result = Some renewed)
       /\ (payloadStatus data <> "active" ->
           LicenseValidationResult.code result = "LICENSE_BLOCKED").
Proof.
  intros Hkeys Hdb Hsub Hfind Hne Htrim Hprefix Hadmits.
  rewrite (upsert_run rt this data w sub Hdb Hsub), Hfind, Hadmits.
  cbn [fst snd licenses setLicenses logged].
  split; [reflexivity |]. split; [apply length_map |].
  set (renewed := applyChange (refresh rt data w existing) existing).
  assert (Hfound :
            find (fun l => (License.key l =? License.key existing)%string)
                 (map (fun l => if (License.id l =? License.id existing)%N
                                then applyChange (refresh rt data w existing) l
                                else l)
                      (licenses w))
            = Some renewed).
  { rewrite find_map_same_key
      by (intros l; destruct (License.id l =? License.id existing)%N; reflexivity).
    rewrite (find_unique_key (licenses w) existing Hkeys)
      by (apply find_some in Hfind; apply Hfind).
    cbn [option_map]. rewrite N.eqb_refl. reflexivity. }
  exists (judge rt renewed (now w)), renewed.
  split.
  { rewrite validate_run. cbv zeta. rewrite Htrim.
    destruct (Js.truthy (License.key existing)) eqn:Ht;
      [| apply truthy_false in Ht; contradiction].
    cbn [negb]. rewrite Hprefix, Hdb.
    cbn [negb fst snd licenses setLicenses logged now].
    rewrite Hfound. reflexivity. }
  split; [exact Hfound |]. split; [reflexivity |]. split; [reflexivity |].
  unfold judge.
  change (License.status renewed) with (payloadStatus data).
  change (License.expiresAt renewed) with (expiryOf rt data (now w)).
  destruct (payloadStatus data =? "active")%string eqn:Hstatus; cbn [negb].
  - apply String.eqb_eq in Hstatus.
    destruct (expiryOf rt data (now w) <=? now w) eqn:Hexp.
    + apply Z.leb_le in Hexp. cbn [invalid LicenseValidationResult.valid
                                      LicenseValidationResult.code].
      split; [split; [discriminate | intros [_ Hlt]; lia] |].
      split; [discriminate | intros Hno; contradiction].
    + apply Z.leb_gt in Hexp. cbn [LicenseValidationResult.valid
                                      LicenseValidationResult.license].
      split; [split; [intros _; split; assumption | reflexivity] |].
      split; [reflexivity | intros Hno; contradiction].
  - apply String.eqb_neq in Hstatus.
    cbn [invalid LicenseValidationResult.valid LicenseValidationResult.code].
    split; [split; [discriminate | intros [Hact _]; contradiction] |].
    split; [discriminate | reflexivity].
Qed.

Lemma renewal_decides_validation_witness :
  let data := [ ("id", JStr "sub0"); ("status", JStr "past_due") ] in
  let after := snd (upsertActiveLicense sampleRuntime sampleService data
                      collidingWorld) in
  NoDup (map License.key (licenses collidingWorld))
  /\ admitsChange sampleRuntime
       (refresh sampleRuntime data collidingWorld
          (License.Row 1 "AXON-0001-0203-0405-0607" None "active" "pro" 1
             (Some "sub0") 1800000000000 1699990000000 1699990000000))
     = true
  /\ present (extractSubscriptionId data) = Some "sub0"
  /\ payloadStatus data = "past_due"
  /\ List.length (licenses after) = 1%nat.
Proof.
  cbv zeta.
  assert (Hkeys : NoDup (map License.key (licenses collidingWorld)))
    by (repeat constructor; intros []).
  split; [exact Hkeys |]. split; [reflexivity |].
  split; [reflexivity |]. split; [reflexivity |].
  destruct (renewal_decides_validation sampleRuntime sampleService
              [ ("id", JStr "sub0"); ("status", JStr "past_due") ]
              collidingWorld "sub0"
              (License.Row 1 "AXON-0001-0203-0405-0607" None "active" "pro" 1
                 (Some "sub0") 1800000000000 1699990000000 1699990000000)
              Hkeys eq_refl eq_refl eq_refl
              ltac:(discriminate) eq_refl eq_refl eq_refl)
    as (_ & Hlength & _).
  exact Hlength.
Defined.
(** ** Expiry *)

Lemma firstDate_first (rt : Runtime) (before after : list (option JsValue))
    (c : option JsValue) (d : Z) :
  (forall x, In x before -> readDate rt x = None) ->
  readDate rt c = Some d ->
  firstDate rt (before ++ c :: after) = Some d.
Proof.
  intros Hbefore Hc. induction before as [| b before IH]; cbn [app firstDate].
  - rewrite Hc. reflexivity.
  - rewrite (Hbefore b (or_introl eq_refl)). apply IH.
    intros x Hx. apply Hbefore. right. exact Hx.
Qed.

Lemma firstDate_none (rt : Runtime) (candidates : list (option JsValue)) :
  (forall x, In x candidates -> readDate rt x = None) ->
  firstDate rt candidates = None.
Proof.
  induction candidates as [| c rest IH]; [reflexivity |].
  intros Hall. cbn [firstDate]. rewrite (Hall c (or_introl eq_refl)).
  apply IH. intros x Hx. apply Hall. right. exact Hx.
Qed.

(** X19.  [extractExpiryDate] always returns and changes nothing.  Of
    [current_billing_period.ends_at], [next_billed_at],
    [billing_period.ends_at], [scheduled_change.effective_at], in this
    order, the first that reads as a date is the expiry, whatever the
    later ones hold; when none does, the expiry is exactly 365 days
    after the clock's reading, hence in the future. *)
Theorem extractExpiryDate_first_date_or_one_year
    (rt : Runtime) (data : UnknownRecord) (w : World) :
  let candidates :=
    [ readNestedValue data ["current_billing_period"; "ends_at"];
      prop data "next_billed_at";
      readNestedValue data ["billing_period"; "ends_at"];
      readNestedValue data ["scheduled_change"; "effective_at"] ] in
  exists expiry,
    extractExpiryDate rt data w = (Returned expiry, w)
    /\ (forall before c after d,
          candidates = before ++ c :: after ->
          (forall x, In x before -> readDate rt x = None) ->
          readDate rt c = Some d ->
          expiry = d)
    /\ ((forall x, In x candidates -> readDate rt x = None) ->
        expiry = now w + 31536000000 /\ now w < expiry).
Proof.
  cbv zeta. rewrite extractExpiryDate_run. eexists. split; [reflexivity |].
  unfold expiryOf. split.
  - intros before c after d -> Hbefore Hc.
    rewrite (firstDate_first rt before after c d Hbefore Hc). reflexivity.
  - intros Hnone. rewrite (firstDate_none rt _ Hnone). lia.
Qed.
